(** * Paper-assistant: document structure recovery and pattern-based
      knowledge extraction

    A shallow embedding of the Python modules

      - [app/core/pdf_parser/layout_analyzer.py]
      - [app/core/pdf_parser/reference_parser.py]
      - [app/core/pdf_parser/pymupdf_parser.py] (text and table extraction)
      - [app/core/nlp/entity_recognizer.py]
      - [app/core/nlp/relation_extractor.py]

    together with the part of the Python runtime they rest on: [str]
    methods and the backtracking semantics of the [re] module.

    Conventions.
      - A Python [str] is a list of Unicode code points ([list N]).
      - A Python [float] that carries a measurement (font size, coordinate,
        confidence) is an exact rational ([Q]); comparisons and sums are
        the exact ones.
      - A Python [set] of strings is a [gset (list N)].
      - A Python exception is the [None] of an [option]. *)

From Stdlib Require Import String Ascii NArith ZArith QArith Qabs Qround Lia.
From stdpp Require Import base option list gmap.

Set Default Proof Using "Type".

(* ===================================================================== *)
(** * Python strings *)
(* ===================================================================== *)

Module Py.

Local Open Scope N_scope.

(** A Python string. *)
Definition str : Type := list N.

(** ** UTF-8

    The source files are UTF-8 encoded; string literals of this
    development are decoded the same way, so that a literal reads as it
    does in the Python source. *)

Definition bytes_of_string (s : string) : list N :=
  List.map N_of_ascii (list_ascii_of_string s).

Fixpoint utf8_decode (bs : list N) : str :=
  match bs with
  | [] => []
  | b :: r =>
      if b <? 0x80 then b :: utf8_decode r
      else if b <? 0xE0 then
        match r with
        | b1 :: r1 => ((b - 0xC0) * 0x40 + (b1 - 0x80)) :: utf8_decode r1
        | _ => []
        end
      else if b <? 0xF0 then
        match r with
        | b1 :: b2 :: r2 =>
            ((b - 0xE0) * 0x1000 + (b1 - 0x80) * 0x40 + (b2 - 0x80))
              :: utf8_decode r2
        | _ => []
        end
      else
        match r with
        | b1 :: b2 :: b3 :: r3 =>
            ((b - 0xF0) * 0x40000 + (b1 - 0x80) * 0x1000
             + (b2 - 0x80) * 0x40 + (b3 - 0x80)) :: utf8_decode r3
        | _ => []
        end
  end.

(** [u "..."] is the Python string written as the literal. *)
Definition u (s : string) : str := utf8_decode (bytes_of_string s).

(** ** Character classes

    The tables are those of CPython for Latin-1 (U+0000..U+00FF), for
    the Unicode white-space characters and for the CJK Unified
    Ideographs block. Other code points are taken to be uncased
    symbols. *)

Definition in_range (lo hi c : N) : bool := (lo <=? c) && (c <=? hi).

(** [str.isspace] on one character; also the class [\s] of [re]. *)
Definition is_space (c : N) : bool :=
  in_range 0x09 0x0D c || in_range 0x1C 0x20 c || (c =? 0x85) || (c =? 0xA0)
  || (c =? 0x1680) || in_range 0x2000 0x200A c || in_range 0x2028 0x2029 c
  || (c =? 0x202F) || (c =? 0x205F) || (c =? 0x3000).

(** Decimal digits: the class [\d] of [re], and what [int] accepts. *)
Definition is_decimal (c : N) : bool :=
  in_range 0x30 0x39 c || in_range 0x660 0x669 c || in_range 0x6F0 0x6F9 c.

Definition decimal_value (c : N) : N :=
  if in_range 0x30 0x39 c then c - 0x30
  else if in_range 0x660 0x669 c then c - 0x660
  else c - 0x6F0.

(** [str.isdigit] on one character: decimal digits and superscripts. *)
Definition is_digit (c : N) : bool :=
  is_decimal c || in_range 0xB2 0xB3 c || (c =? 0xB9).

Definition is_upper (c : N) : bool :=
  in_range 0x41 0x5A c || in_range 0xC0 0xD6 c || in_range 0xD8 0xDE c.

Definition is_lower (c : N) : bool :=
  in_range 0x61 0x7A c || (c =? 0xAA) || (c =? 0xB5) || (c =? 0xBA)
  || in_range 0xDF 0xF6 c || in_range 0xF8 0xFF c.

Definition is_cjk (c : N) : bool := in_range 0x4E00 0x9FFF c.

(** [str.isalnum] on one character. *)
Definition is_alnum (c : N) : bool :=
  is_digit c || is_upper c || is_lower c || in_range 0xBC 0xBE c || is_cjk c.

(** The class [\w] of [re]. *)
Definition is_word (c : N) : bool := is_alnum c || (c =? 0x5F).

Definition lower_char (c : N) : N := if is_upper c then c + 0x20 else c.

(** Simple upper-case mapping (the one [re] uses under IGNORECASE). *)
Definition upper_char (c : N) : N :=
  if in_range 0x61 0x7A c || in_range 0xE0 0xF6 c || in_range 0xF8 0xFE c
  then c - 0x20
  else if c =? 0xB5 then 0x39C
  else if c =? 0xFF then 0x178
  else c.

(** ** [str] methods *)

Definition lower (s : str) : str := List.map lower_char s.

Fixpoint lstrip_by (p : N -> bool) (s : str) : str :=
  match s with
  | [] => []
  | c :: r => if p c then lstrip_by p r else s
  end.

Definition rstrip_by (p : N -> bool) (s : str) : str :=
  List.rev (lstrip_by p (List.rev s)).

(** [s.strip()] *)
Definition strip (s : str) : str := rstrip_by is_space (lstrip_by is_space s).

Definition mem_char (c : N) (cs : str) : bool := List.existsb (N.eqb c) cs.

(** [s.rstrip(chars)] *)
Definition rstrip_chars (chars s : str) : str :=
  rstrip_by (fun c => mem_char c chars) s.

(** [s.isdigit()] *)
Definition isdigit (s : str) : bool :=
  match s with
  | [] => false
  | _ => List.forallb is_digit s
  end.

(** [s.isupper()]: some cased character, and no lower-case one. *)
Definition isupper (s : str) : bool :=
  List.existsb is_upper s && negb (List.existsb is_lower s).

(** [int(s)] for a string that passed [isdigit]: superscript digits
    raise [ValueError]. *)
Fixpoint int_digits (acc : N) (s : str) : option N :=
  match s with
  | [] => Some acc
  | c :: r => if is_decimal c then int_digits (10 * acc + decimal_value c) r
              else None
  end.

Definition int (s : str) : option N :=
  match strip s with
  | [] => None
  | d => int_digits 0 d
  end.

Definition str_eqb (a b : str) : bool := bool_decide (a = b).

Fixpoint starts_with (p s : str) : bool :=
  match p, s with
  | [], _ => true
  | c :: p', d :: s' => (c =? d) && starts_with p' s'
  | _ :: _, [] => false
  end.

(** [s.split(sep)] for a one-character separator. *)
Fixpoint split_char (sep : N) (s : str) : list str :=
  match s with
  | [] => [[]]
  | c :: r =>
      if c =? sep then [] :: split_char sep r
      else match split_char sep r with
           | [] => [[c]]
           | h :: t => (c :: h) :: t
           end
  end.

(** [sep.join(parts)] *)
Fixpoint join (sep : str) (parts : list str) : str :=
  match parts with
  | [] => []
  | [p] => p
  | p :: rest => p ++ sep ++ join sep rest
  end.

(** [s.replace(old, new)] for non-empty [old]: leftmost occurrences,
    left to right, not overlapping. *)
Fixpoint replace_fuel (fuel : nat) (old new s : str) : str :=
  match fuel with
  | O => s
  | S f =>
      match s with
      | [] => []
      | c :: r =>
          if starts_with old s
          then new ++ replace_fuel f old new (List.skipn (List.length old) s)
          else c :: replace_fuel f old new r
      end
  end.

Definition replace (old new s : str) : str :=
  replace_fuel (S (List.length s)) old new s.

(** [s[a:b]] for [0 <= a], [0 <= b]. *)
Definition slice (s : str) (a b : nat) : str :=
  List.firstn (b - a) (List.skipn a s).

Definition NL : N := 0x0A.
Definition SP : N := 0x20.

(** [sub in s] *)
Fixpoint contains (sub s : str) : bool :=
  starts_with sub s
  || match s with
     | [] => false
     | _ :: r => contains sub r
     end.

End Py.

(* ===================================================================== *)
(** * The [re] module: patterns and backtracking matching *)
(* ===================================================================== *)

Module Re.

Import Py.
Local Open Scope N_scope.

(** ** Abstract syntax of patterns *)

Inductive cls_item : Type :=
| CChar (c : N)
| CRange (lo hi : N)
| CDigit (neg : bool)     (* \d  \D *)
| CSpace (neg : bool)     (* \s  \S *)
| CWord (neg : bool).     (* \w  \W *)

Inductive regex : Type :=
| Empty
| Lit (c : N)
| Dot
| Class (neg : bool) (items : list cls_item)
| Cat (r1 r2 : regex)
| Or (r1 r2 : regex)
| Repeat (r : regex) (lo : nat) (hi : option nat) (greedy : bool)
| Group (n : nat) (r : regex)          (* ( ... ), numbered from 1 *)
| Ahead (neg : bool) (r : regex)       (* (?= ... )  (?! ... ) *)
| Bol                                  (* ^ *)
| Eol                                  (* $ *)
| WordB (neg : bool).                  (* \b  \B *)

Record flags : Type := { IGNORECASE : bool; DOTALL : bool }.

Definition no_flags : flags := {| IGNORECASE := false; DOTALL := false |}.
Definition I_flag : flags := {| IGNORECASE := true; DOTALL := false |}.
Definition IS_flags : flags := {| IGNORECASE := true; DOTALL := true |}.

(** ** Matching state

    [pos] is the index of the next character, [prev] the character
    before it, [rest] the text from [pos] on; [caps] records the closed
    groups, the most recently closed first. *)

Record mstate : Type := {
  pos : nat;
  prev : option N;
  rest : str;
  caps : list (nat * (nat * nat))
}.

Definition start_state (p : nat) (pv : option N) (s : str) : mstate :=
  {| pos := p; prev := pv; rest := s; caps := [] |}.

Definition advance (st : mstate) (c : N) (r : str) : mstate :=
  {| pos := S (pos st); prev := Some c; rest := r; caps := caps st |}.

Definition set_cap (n a b : nat) (st : mstate) : mstate :=
  {| pos := pos st; prev := prev st; rest := rest st;
     caps := (n, (a, b)) :: caps st |}.

Definition with_caps (cs : list (nat * (nat * nat))) (st : mstate) : mstate :=
  {| pos := pos st; prev := prev st; rest := rest st; caps := cs |}.

(** ** Single characters *)

Definition lit_matches (fl : flags) (c x : N) : bool :=
  if IGNORECASE fl then lower_char x =? lower_char c else x =? c.

Definition range_matches (fl : flags) (lo hi x : N) : bool :=
  in_range lo hi x
  || (IGNORECASE fl
      && (in_range lo hi (lower_char x) || in_range lo hi (upper_char x))).

Definition item_matches (fl : flags) (it : cls_item) (x : N) : bool :=
  match it with
  | CChar c => lit_matches fl c x
  | CRange lo hi => range_matches fl lo hi x
  | CDigit neg => xorb neg (is_decimal x)
  | CSpace neg => xorb neg (is_space x)
  | CWord neg => xorb neg (is_word x)
  end.

Definition class_matches (fl : flags) (neg : bool) (items : list cls_item)
    (x : N) : bool :=
  xorb neg (List.existsb (fun it => item_matches fl it x) items).

Definition dot_matches (fl : flags) (x : N) : bool :=
  DOTALL fl || negb (x =? NL).

Definition word_before (st : mstate) : bool :=
  match prev st with Some c => is_word c | None => false end.

Definition word_after (st : mstate) : bool :=
  match rest st with c :: _ => is_word c | [] => false end.

Definition at_boundary (st : mstate) : bool :=
  xorb (word_before st) (word_after st).

(** [$] without MULTILINE: at the end, or before a final newline. *)
Definition at_eol (st : mstate) : bool :=
  match rest st with
  | [] => true
  | [c] => c =? NL
  | _ => false
  end.

Definition step_char (p : N -> bool) (st : mstate)
    (k : mstate -> option mstate) : option mstate :=
  match rest st with
  | x :: r => if p x then k (advance st x r) else None
  | [] => None
  end.

Definition below (i : nat) (hi : option nat) : bool :=
  match hi with Some h => (i <? h)%nat | None => true end.

(** ** The matcher

    [run fl r st k] tries the alternatives of [r] at [st] in the order
    of [re]'s backtracking search and hands each end state to the
    continuation [k] until [k] accepts one. *)

Definition orelse (a : option mstate) (b : unit -> option mstate)
    : option mstate :=
  match a with
  | Some res => Some res
  | None => b tt
  end.

(** The iterations of a repetition of [body], the [i]-th next. Greedy:
    another iteration is tried before leaving; lazy: the other way
    round. Beyond the lower bound an iteration that consumes nothing is
    not taken, so that no more than [lo + length (rest st)] iterations
    occur and the [fuel] given by [run] is never used up. *)
Fixpoint rep_loop (body : mstate -> (mstate -> option mstate) -> option mstate)
    (lo : nat) (hi : option nat) (greedy : bool)
    (k : mstate -> option mstate) (fuel i : nat) (st0 : mstate)
    {struct fuel} : option mstate :=
  match fuel with
  | O => None
  | S f =>
      let again (_ : unit) :=
        if below i hi then
          body st0 (fun st1 =>
            if (i <? lo)%nat || (pos st0 <? pos st1)%nat
            then rep_loop body lo hi greedy k f (S i) st1 else None)
        else None in
      let leave (_ : unit) :=
        if (lo <=? i)%nat then k st0 else None in
      if greedy then orelse (again tt) leave else orelse (leave tt) again
  end.

Fixpoint run (fl : flags) (r : regex) (st : mstate)
    (k : mstate -> option mstate) {struct r} : option mstate :=
  match r with
  | Empty => k st
  | Lit c => step_char (lit_matches fl c) st k
  | Dot => step_char (dot_matches fl) st k
  | Class neg items => step_char (class_matches fl neg items) st k
  | Cat r1 r2 => run fl r1 st (fun st1 => run fl r2 st1 k)
  | Or r1 r2 => orelse (run fl r1 st k) (fun _ => run fl r2 st k)
  | Repeat r1 lo hi greedy =>
      rep_loop (run fl r1) lo hi greedy k
        (lo + S (List.length (rest st)))%nat O st
  | Group n r1 =>
      run fl r1 st (fun st1 => k (set_cap n (pos st) (pos st1) st1))
  | Ahead neg r1 =>
      match run fl r1 st Some with
      | Some _ => if neg then None else k st
      | None => if neg then k st else None
      end
  | Bol => if (pos st =? 0)%nat then k st else None
  | Eol => if at_eol st then k st else None
  | WordB neg => if xorb neg (at_boundary st) then k st else None
  end.

(** ** Match objects *)

Record rmatch : Type := {
  m_start : nat;
  m_final : mstate
}.

Definition m_end (m : rmatch) : nat := pos (m_final m).

Fixpoint lookup_cap (n : nat) (cs : list (nat * (nat * nat)))
    : option (nat * nat) :=
  match cs with
  | [] => None
  | (g, span) :: cs' => if (g =? n)%nat then Some span else lookup_cap n cs'
  end.

(** [m.group(0)] *)
Definition group0 (text : str) (m : rmatch) : str :=
  slice text (m_start m) (m_end m).

(** [m.group(n)] for [n >= 1]; [None] is Python's [None]. *)
Definition group (text : str) (m : rmatch) (n : nat) : option str :=
  match lookup_cap n (caps (m_final m)) with
  | Some (a, b) => Some (slice text a b)
  | None => None
  end.

(** [m.lastindex] *)
Definition lastindex (m : rmatch) : option nat :=
  match caps (m_final m) with
  | [] => None
  | (g, _) :: _ => Some g
  end.

(** One attempt at the position of [st]; with [must_advance] an empty
    match is refused. *)
Definition match_here (fl : flags) (r : regex) (must_advance : bool)
    (st : mstate) : option rmatch :=
  match run fl r st (fun st1 =>
          if must_advance && (pos st1 =? pos st)%nat then None else Some st1)
  with
  | Some st1 => Some {| m_start := pos st; m_final := st1 |}
  | None => None
  end.

(** Leftmost match at or after position [p]. *)
Fixpoint scan (fl : flags) (r : regex) (must_advance : bool)
    (p : nat) (pv : option N) (s : str) {struct s} : option rmatch :=
  match match_here fl r must_advance (start_state p pv s) with
  | Some m => Some m
  | None =>
      match s with
      | [] => None
      | c :: s' => scan fl r false (S p) (Some c) s'
      end
  end.

(** [re.match(r, text)] *)
Definition re_match (fl : flags) (r : regex) (text : str) : option rmatch :=
  match_here fl r false (start_state 0 None text).

(** [re.search(r, text)] *)
Definition re_search (fl : flags) (r : regex) (text : str) : option rmatch :=
  scan fl r false 0 None text.

(** Successive non-overlapping matches; after an empty match the next
    one at the same position has to be non-empty. *)
Fixpoint finditer_from (fuel : nat) (fl : flags) (r : regex)
    (must_advance : bool) (p : nat) (pv : option N) (s : str)
    : list rmatch :=
  match fuel with
  | O => []
  | S f =>
      match scan fl r must_advance p pv s with
      | None => []
      | Some m =>
          let st := m_final m in
          m :: finditer_from f fl r (m_end m =? m_start m)%nat
                 (pos st) (prev st) (rest st)
      end
  end.

(** [re.finditer(r, text)] *)
Definition finditer (fl : flags) (r : regex) (text : str) : list rmatch :=
  finditer_from (2 * List.length text + 2) fl r false 0 None text.

(** Number of groups of a pattern. *)
Fixpoint ngroups (r : regex) : nat :=
  match r with
  | Cat r1 r2 | Or r1 r2 => Nat.max (ngroups r1) (ngroups r2)
  | Repeat r1 _ _ _ | Ahead _ r1 => ngroups r1
  | Group n r1 => Nat.max n (ngroups r1)
  | _ => O
  end.

(** [m.groups()] *)
Definition groups (text : str) (n : nat) (m : rmatch) : list (option str) :=
  List.map (fun g => group text m g) (List.seq 1 n).

(** The pieces of [text] between the matches [ms]; [last] is the end of
    the previous match. *)
Fixpoint split_pieces (text : str) (n : nat) (last : nat) (ms : list rmatch)
    : list (option str) :=
  match ms with
  | [] => [Some (List.skipn last text)]
  | m :: ms' =>
      Some (slice text last (m_start m))
        :: groups text n m ++ split_pieces text n (m_end m) ms'
  end.

Definition limit {A} (maxsplit : nat) (l : list A) : list A :=
  match maxsplit with O => l | _ => List.firstn maxsplit l end.

(** [re.split(r, text, maxsplit)]; an unmatched group contributes
    [None]. *)
Definition split (fl : flags) (r : regex) (text : str) (maxsplit : nat)
    : list (option str) :=
  split_pieces text (ngroups r) 0 (limit maxsplit (finditer fl r text)).

(** [re.split] for a pattern without groups. *)
Definition split_plain (fl : flags) (r : regex) (text : str) (maxsplit : nat)
    : list str :=
  omap id (split_pieces text 0 0 (limit maxsplit (finditer fl r text))).

(** [re.sub(r, '', text)] *)
Definition sub_empty (fl : flags) (r : regex) (text : str) : str :=
  List.concat (split_plain fl r text 0).

(** [re.findall(r, text)] for a pattern with exactly one group. *)
Definition findall1 (fl : flags) (r : regex) (text : str) : list str :=
  List.map (fun m => default [] (group text m 1)) (finditer fl r text).

End Re.

(* ===================================================================== *)
(** * The [re] module: concrete syntax *)
(* ===================================================================== *)

Module ReSyntax.

Import Py Re.
Local Open Scope N_scope.

Definition ch (a : ascii) : N := N_of_ascii a.

Definition is_ascii_alnum (c : N) : bool :=
  in_range 0x30 0x39 c || in_range 0x41 0x5A c || in_range 0x61 0x7A c.

Definition hex_value (c : N) : option N :=
  if in_range 0x30 0x39 c then Some (c - 0x30)
  else if in_range 0x41 0x46 c then Some (c - 0x41 + 10)
  else if in_range 0x61 0x66 c then Some (c - 0x61 + 10)
  else None.

Fixpoint read_hex (n : nat) (acc : N) (s : str) : option (N * str) :=
  match n with
  | O => Some (acc, s)
  | S n' =>
      match s with
      | c :: s' =>
          match hex_value c with
          | Some v => read_hex n' (16 * acc + v) s'
          | None => None
          end
      | [] => None
      end
  end.

Fixpoint read_digits (acc : nat) (s : str) : nat * str :=
  match s with
  | c :: s' =>
      if in_range 0x30 0x39 c
      then read_digits (10 * acc + N.to_nat (c - 0x30)) s'
      else (acc, s)
  | [] => (acc, s)
  end.

Definition starts_digit (s : str) : bool :=
  match s with c :: _ => in_range 0x30 0x39 c | [] => false end.

(** An escape denotes a character or a class shorthand. *)
Inductive esc : Type :=
| EChar (c : N)
| EItem (it : cls_item)
| EWordB (neg : bool).

(** The escape after a backslash; [in_class] tells whether it stands
    inside brackets. *)
Definition read_escape (in_class : bool) (s : str) : option (esc * str) :=
  match s with
  | [] => None
  | c :: s' =>
      if c =? ch "d" then Some (EItem (CDigit false), s')
      else if c =? ch "D" then Some (EItem (CDigit true), s')
      else if c =? ch "s" then Some (EItem (CSpace false), s')
      else if c =? ch "S" then Some (EItem (CSpace true), s')
      else if c =? ch "w" then Some (EItem (CWord false), s')
      else if c =? ch "W" then Some (EItem (CWord true), s')
      else if c =? ch "b" then
        Some (if in_class then EChar 0x08 else EWordB false, s')
      else if c =? ch "B" then
        if in_class then None else Some (EWordB true, s')
      else if c =? ch "n" then Some (EChar 0x0A, s')
      else if c =? ch "t" then Some (EChar 0x09, s')
      else if c =? ch "r" then Some (EChar 0x0D, s')
      else if c =? ch "f" then Some (EChar 0x0C, s')
      else if c =? ch "v" then Some (EChar 0x0B, s')
      else if c =? ch "a" then Some (EChar 0x07, s')
      else if c =? ch "u" then
        match read_hex 4 0 s' with
        | Some (v, s2) => Some (EChar v, s2)
        | None => None
        end
      else if c =? ch "x" then
        match read_hex 2 0 s' with
        | Some (v, s2) => Some (EChar v, s2)
        | None => None
        end
      else if is_ascii_alnum c then None
      else Some (EChar c, s')
  end.

(** One member of a bracket expression, before ranges are formed. *)
Definition read_class_atom (s : str) : option (esc * str) :=
  match s with
  | [] => None
  | c :: s' =>
      if c =? ch "\" then
        match read_escape true s' with
        | Some (EWordB _, _) => None
        | other => other
        end
      else Some (EChar c, s')
  end.

(** The members of a bracket expression up to the closing bracket;
    [first] holds at the first member, where a closing bracket is a
    literal. *)
Fixpoint read_class (fuel : nat) (first : bool) (s : str)
    : option (list cls_item * str) :=
  match fuel with
  | O => None
  | S f =>
      match s with
      | [] => None
      | c :: s' =>
          if (c =? ch "]") && negb first then Some ([], s')
          else
            match read_class_atom s with
            | None => None
            | Some (a, s1) =>
                let plain (it : cls_item) :=
                  match read_class f false s1 with
                  | Some (its, s2) => Some (it :: its, s2)
                  | None => None
                  end in
                let is_range :=
                  match s1 with
                  | d :: e :: _ => (d =? ch "-") && negb (e =? ch "]")
                  | _ => false
                  end in
                if is_range then
                  match a, read_class_atom (List.tl s1) with
                  | EChar lo, Some (EChar hi, s2) =>
                      if lo <=? hi then
                        match read_class f false s2 with
                        | Some (its, s3) => Some (CRange lo hi :: its, s3)
                        | None => None
                        end
                      else None
                  | _, _ => None
                  end
                else
                  match a with
                  | EChar x => plain (CChar x)
                  | EItem it => plain it
                  | EWordB _ => None
                  end
            end
      end
  end.

(** A quantifier at the head of [s]: bounds and the text after it. *)
Definition read_quant (s : str) : option (nat * option nat * str) :=
  match s with
  | [] => None
  | c :: s' =>
      if c =? ch "*" then Some (O, None, s')
      else if c =? ch "+" then Some (1%nat, None, s')
      else if c =? ch "?" then Some (O, Some 1%nat, s')
      else if c =? ch "{" then
        let '(lo, s1) := read_digits O s' in
        match s1 with
        | d :: s2 =>
            if (d =? ch "}") && starts_digit s' then Some (lo, Some lo, s2)
            else if d =? ch "," then
              let '(hi, s3) := read_digits O s2 in
              match s3 with
              | e :: s4 =>
                  if e =? ch "}" then
                    if starts_digit s2
                    then if (lo <=? hi)%nat then Some (lo, Some hi, s4)
                         else None
                    else Some (lo, None, s4)
                  else None
              | [] => None
              end
            else None
        | [] => None
        end
      else None
  end.

Definition repeatable (r : regex) : bool :=
  match r with
  | Bol | Eol | WordB _ | Empty => false
  | _ => true
  end.

(** An item followed by its quantifier, if any; a second quantifier on
    the same item is refused. *)
Definition quantified (a : regex) (s : str) : option (regex * str) :=
  match read_quant s with
  | None => Some (a, s)
  | Some (lo, hi, s1) =>
      let '(greedy, s2) :=
        match s1 with
        | c :: s' => if c =? ch "?" then (false, s') else (true, s1)
        | [] => (true, s1)
        end in
      match read_quant s2 with
      | Some _ => None
      | None => if repeatable a then Some (Repeat a lo hi greedy, s2) else None
      end
  end.

Definition cat (a r : regex) : regex :=
  match r with
  | Empty => a
  | _ => Cat a r
  end.

Definition expect_close (s : str) : option str :=
  match s with
  | c :: s' => if c =? ch ")" then Some s' else None
  | [] => None
  end.

(** Recursive descent; [g] counts the groups opened so far. *)
Fixpoint parse_alt (fuel g : nat) (s : str) {struct fuel}
    : option (regex * nat * str) :=
  match fuel with
  | O => None
  | S f =>
      match parse_seq f g s with
      | Some (r1, g1, s1) =>
          match s1 with
          | c :: s2 =>
              if c =? ch "|" then
                match parse_alt f g1 s2 with
                | Some (r2, g2, s3) => Some (Or r1 r2, g2, s3)
                | None => None
                end
              else Some (r1, g1, s1)
          | [] => Some (r1, g1, s1)
          end
      | None => None
      end
  end
with parse_seq (fuel g : nat) (s : str) {struct fuel}
    : option (regex * nat * str) :=
  match fuel with
  | O => None
  | S f =>
      match s with
      | [] => Some (Empty, g, s)
      | c :: _ =>
          if (c =? ch "|") || (c =? ch ")") then Some (Empty, g, s)
          else
            match parse_atom f g s with
            | Some (a, g1, s1) =>
                match quantified a s1 with
                | Some (a', s2) =>
                    match parse_seq f g1 s2 with
                    | Some (r, g2, s3) => Some (cat a' r, g2, s3)
                    | None => None
                    end
                | None => None
                end
            | None => None
            end
      end
  end
with parse_atom (fuel g : nat) (s : str) {struct fuel}
    : option (regex * nat * str) :=
  match fuel with
  | O => None
  | S f =>
      let inner (wrap : regex -> regex) (g0 : nat) (body : str) :=
        match parse_alt f g0 body with
        | Some (r, g1, s1) =>
            match expect_close s1 with
            | Some s2 => Some (wrap r, g1, s2)
            | None => None
            end
        | None => None
        end in
      match s with
      | [] => None
      | c :: s1 =>
          if c =? ch "(" then
            match s1 with
            | q :: s2 =>
                if q =? ch "?" then
                  match s2 with
                  | k :: s3 =>
                      if k =? ch ":" then inner (fun r => r) g s3
                      else if k =? ch "=" then inner (Ahead false) g s3
                      else if k =? ch "!" then inner (Ahead true) g s3
                      else None
                  | [] => None
                  end
                else inner (Group (S g)) (S g) s1
            | [] => None
            end
          else if c =? ch "[" then
            let '(neg, body) :=
              match s1 with
              | d :: s2 => if d =? ch "^" then (true, s2) else (false, s1)
              | [] => (false, s1)
              end in
            match read_class (S (List.length body)) true body with
            | Some (items, s3) => Some (Class neg items, g, s3)
            | None => None
            end
          else if c =? ch "\" then
            match read_escape false s1 with
            | Some (EChar x, s2) => Some (Lit x, g, s2)
            | Some (EItem it, s2) => Some (Class false [it], g, s2)
            | Some (EWordB neg, s2) => Some (WordB neg, g, s2)
            | None => None
            end
          else if c =? ch "." then Some (Dot, g, s1)
          else if c =? ch "^" then Some (Bol, g, s1)
          else if c =? ch "$" then Some (Eol, g, s1)
          else if (c =? ch "*") || (c =? ch "+") || (c =? ch "?") then None
          else Some (Lit c, g, s1)
      end
  end.

(** [parse p] is the pattern written [p], or [None] where [re.compile]
    raises [re.error] (or the syntax is outside the part covered
    here: back-references, named groups, inline flags, possessive
    quantifiers). *)
Definition parse (p : str) : option regex :=
  match parse_alt (4 * List.length p + 4) O p with
  | Some (r, _, []) => Some r
  | _ => None
  end.

(** The pattern that matches nothing. *)
Definition nothing : regex := Class false [].

(** A pattern literal of the program. Every literal below parses
    (lemma [pattern_literals_parse]). *)
Definition rx (p : str) : regex := default nothing (parse p).

(** [re.escape] *)
Definition special (c : N) : bool :=
  mem_char c (u "()[]{}?*+-|^$\.&~# ")
  || in_range 0x09 0x0D c.

Definition escape (s : str) : str :=
  List.concat (List.map (fun c => if special c then [ch "\"; c] else [c]) s).

End ReSyntax.

(* ===================================================================== *)
(** * Shared helpers *)
(* ===================================================================== *)

Definition Qleb (x y : Q) : bool := Qle_bool x y.
Definition Qltb (x y : Q) : bool := negb (Qle_bool y x).
Definition Qeqb (x y : Q) : bool := Qeq_bool x y.

(** [round(x, 1)]: nearest tenth, ties to the even tenth. *)
Definition round1 (x : Q) : Q :=
  let y := (x * 10)%Q in
  let f := Qfloor y in
  let n := match (y - inject_Z f ?= 1 # 2)%Q with
           | Lt => f
           | Gt => (f + 1)%Z
           | Eq => if Z.even f then f else (f + 1)%Z
           end in
  (inject_Z n / 10)%Q.

(** A [for] loop whose body may raise. *)
Fixpoint for_each {A S} (body : S -> A -> option S) (l : list A) (s : S)
    : option S :=
  match l with
  | [] => Some s
  | x :: l' => s' ← body s x; for_each body l' s'
  end.

(** [len(s)] *)
Definition len {A} (l : list A) : nat := List.length l.

(* ===================================================================== *)
(** * pymupdf_parser.py: the parsed document *)
(* ===================================================================== *)

Module pymupdf_parser.

Import Py Re ReSyntax.

Record TextBlock : Type := {
  text : str;
  font_size : Q;
  font_name : str;
  is_bold : bool;
  page_num : Z;
  bbox : Q * Q * Q * Q          (* x0, y0, x1, y1 *)
}.

Record ParsedPage : Type := {
  pp_page_num : Z;
  width : Q;
  height : Q;
  blocks : list TextBlock;
  raw_text : str
}.

Record ParsedDocument : Type := {
  pages : list ParsedPage;
  page_count : Z;
  metadata : list (str * str)
}.

Definition bbox0 (b : TextBlock) : Q := let '(x0, _, _, _) := bbox b in x0.
Definition bbox1 (b : TextBlock) : Q := let '(_, y0, _, _) := bbox b in y0.
Definition bbox2 (b : TextBlock) : Q := let '(_, _, x1, _) := bbox b in x1.
Definition bbox3 (b : TextBlock) : Q := let '(_, _, _, y1) := bbox b in y1.

(** ** Table extraction

    What [fitz] delivers for a file: per page its text and the tables
    [page.find_tables] locates there. [extract] is the result of
    [table.extract()], a matrix of optional cell texts, or [None] where
    the call raises. *)

Record FitzTable : Type := {
  extract : option (list (list (option str)));
  table_bbox : Q * Q * Q * Q
}.

Record FitzPage : Type := {
  page_text : str;
  page_tables : list FitzTable
}.

Record Table : Type := {
  page : Z;
  headers : list str;
  rows : list (list str);
  caption : str
}.

Definition _find_table_caption (page_text : str)
    (table_bbox : Q * Q * Q * Q) (table_index : nat) : str :=
  let patterns := [
    u "(Table\s+\d+[.:]\s*.{5,200}?)(?:\n|$)";
    u "(表\s*\d+[.:：]\s*.{5,200}?)(?:\n|$)";
    u "(TABLE\s+\d+[.:]\s*.{5,200}?)(?:\n|$)" ] in
  let captions :=
    List.concat
      (List.map (fun pattern => findall1 I_flag (rx pattern) page_text)
         patterns) in
  match List.nth_error captions table_index, captions with
  | Some c, _ => strip c
  | None, c :: _ => strip c
  | None, [] => []
  end.

Definition _clean_caption (caption : str) : str :=
  match caption with
  | [] => []
  | _ =>
      let patterns := [
        u "^Table\s+\d+[.:]?\s*";
        u "^TABLE\s+\d+[.:]?\s*";
        u "^Tab\.?\s+\d+[.:]?\s*";
        u "^表\s*\d+[.:：]?\s*" ] in
      let cleaned :=
        List.fold_left
          (fun cleaned pattern => sub_empty I_flag (rx pattern) cleaned)
          patterns caption in
      strip cleaned
  end.

(** [str(h or "").strip()] *)
Definition cell_text (h : option str) : str := strip (default [] h).

(** Truth value of a cell. *)
Definition cell_true (h : option str) : bool :=
  match h with
  | Some (_ :: _) => true
  | _ => false
  end.

Definition non_blank (s : str) : bool :=
  match s with [] => false | _ => true end.

Definition placeholder (c : str) : bool :=
  str_eqb c (u "—") || str_eqb c (u "-") || str_eqb c [].

(** [[str(row[i] or "").strip() for i in non_empty_indices]]; [None]
    is the [IndexError] of a short row. *)
Fixpoint pick_columns (row : list (option str)) (indices : list nat)
    : option (list str) :=
  match indices with
  | [] => Some []
  | i :: indices' =>
      c ← List.nth_error row i;
      cs ← pick_columns row indices';
      Some (cell_text c :: cs)
  end.

Definition row_step (non_empty_indices : list nat) (rows : list (list str))
    (row : list (option str)) : option (list (list str)) :=
  (* Skip completely empty rows *)
  if negb (List.existsb cell_true row) then Some rows
  else
    (* Extract only non-empty columns *)
    clean_row ← pick_columns row non_empty_indices;
    (* Skip rows that are all empty or separators *)
    if List.existsb (fun c => non_blank c && negb (placeholder c)) clean_row
    then Some (rows ++ [clean_row])
    else Some rows.

Fixpoint indices_where {A} (p : A -> bool) (i : nat) (l : list A) : list nat :=
  match l with
  | [] => []
  | x :: l' => if p x then i :: indices_where p (S i) l'
               else indices_where p (S i) l'
  end.

(** The body of the [try] block for table [ti] of page [page_num]:
    [Some (Some t)] appends [t], [Some None] is [continue], [None] an
    exception. *)
Definition table_record (page_num : nat) (page_text : str) (ti : nat)
    (table : FitzTable) : option (option Table) :=
  extracted ← extract table;
  if (len extracted <? 2)%nat then Some None
  else
    (* Clean and normalize headers *)
    let raw_headers := List.map cell_text (List.hd [] extracted) in
    (* Filter out empty columns *)
    let non_empty_indices := indices_where non_blank O raw_headers in
    match non_empty_indices with
    | [] => Some None
    | _ =>
        let headers :=
          List.map (fun i => List.nth i raw_headers []) non_empty_indices in
        (* Process rows, keeping only non-empty columns *)
        rows ← for_each (row_step non_empty_indices) (List.tl extracted) [];
        match rows with
        | [] => Some None
        | _ =>
            let caption :=
              _find_table_caption page_text (table_bbox table) ti in
            (* Clean up caption - remove "Table X" prefix if present *)
            let caption := _clean_caption caption in
            Some (Some {| page := Z.of_nat page_num + 1;
                          headers := headers;
                          rows := rows;
                          caption := caption |})
        end
    end.

(** The tables of one page; an exception drops the table it occurs
    in. *)
Fixpoint page_tables_from (page_num : nat) (page_text : str) (ti : nat)
    (tables : list FitzTable) : list Table :=
  match tables with
  | [] => []
  | table :: tables' =>
      match table_record page_num page_text ti table with
      | Some (Some t) => t :: page_tables_from page_num page_text (S ti) tables'
      | _ => page_tables_from page_num page_text (S ti) tables'
      end
  end.

Fixpoint tables_from (page_num : nat) (doc : list FitzPage) : list Table :=
  match doc with
  | [] => []
  | p :: doc' =>
      page_tables_from page_num (page_text p) O (page_tables p)
        ++ tables_from (S page_num) doc'
  end.

(** [extract_tables_from_pdf(file_path)], from the document [fitz.open]
    returns for the file. *)
Definition extract_tables_from_pdf (doc : list FitzPage) : list Table :=
  tables_from O doc.

(** ** Text extraction

    What [fitz] delivers for [parse_pdf]: of each page its rectangle,
    its plain text and the blocks of its [get_text("dict")]
    dictionary. A key that the code reads with [.get] is an [option]:
    [None] where the dictionary lacks the key. *)

Record FitzSpan : Type := {
  span_text : option str;
  span_size : option Q;
  span_font : option str;
  span_bbox : option (Q * Q * Q * Q)
}.

Record FitzLine : Type := {
  line_spans : option (list FitzSpan)
}.

Record FitzBlock : Type := {
  block_type : option Z;
  block_lines : option (list FitzLine)
}.

Record FitzTextPage : Type := {
  rect_width : Q;
  rect_height : Q;
  plain_text : str;                      (* page.get_text("text") *)
  dict_blocks : option (list FitzBlock)  (* page.get_text("dict")["blocks"] *)
}.

Record FitzDocument : Type := {
  fitz_pages : list FitzTextPage;
  fitz_metadata : option (list (str * str))
}.

(** The body of the loop over the spans of a line: the block appended
    for [span], none where its text is blank. *)
Definition span_block (page_num : nat) (span : FitzSpan) : list TextBlock :=
  let text := strip (default [] (span_text span)) in
  match text with
  | [] => []
  | _ =>
      let font := default [] (span_font span) in
      [ {| text := text;
           font_size := default 12%Q (span_size span);
           font_name := font;
           is_bold := contains (u "Bold") font || contains (u "bold") font;
           page_num := Z.of_nat page_num;
           bbox := default (0, 0, 0, 0)%Q (span_bbox span) |} ]
  end.

(** Extract text blocks with font info. *)
Definition page_blocks (page_num : nat) (page : FitzTextPage)
    : list TextBlock :=
  List.flat_map
    (fun block =>
       match block_type block with
       | Some 0%Z =>
           List.flat_map
             (fun line =>
                List.flat_map (span_block page_num)
                  (default [] (line_spans line)))
             (default [] (block_lines block))
       | _ => []                          (* Skip image blocks *)
       end)
    (default [] (dict_blocks page)).

Definition parsed_page (page_num : nat) (page : FitzTextPage) : ParsedPage :=
  {| pp_page_num := Z.of_nat page_num;
     width := rect_width page;
     height := rect_height page;
     blocks := page_blocks page_num page;
     raw_text := plain_text page |}.

Fixpoint pages_from (page_num : nat) (doc : list FitzTextPage)
    : list ParsedPage :=
  match doc with
  | [] => []
  | page :: doc' => parsed_page page_num page :: pages_from (S page_num) doc'
  end.

(** [parse_pdf(file_path)], from the document [fitz.open] returns for
    the file. *)
Definition parse_pdf (doc : FitzDocument) : ParsedDocument :=
  {| pages := pages_from O (fitz_pages doc);
     page_count := Z.of_nat (len (fitz_pages doc));
     metadata := default [] (fitz_metadata doc) |}.

End pymupdf_parser.

(* ===================================================================== *)
(** * layout_analyzer.py *)
(* ===================================================================== *)

Module layout_analyzer.

Import Py Re ReSyntax pymupdf_parser.

(** A section dictionary. The transient key [_collecting] of the source
    is not a field: [analyze_layout] holds a dictionary carrying it in
    [current_section] and nowhere else, so that
    [current_section and current_section.get("_collecting")] is
    [current_section is not None]. *)
Record Section : Type := {
  section_type : str;
  heading : str;
  content : str;
  page_start : Z;
  page_end : Z
}.

Definition with_content (s : Section) (c : str) (pe : Z) : Section :=
  {| section_type := section_type s; heading := heading s; content := c;
     page_start := page_start s; page_end := pe |}.

Definition SECTION_PATTERNS : list (str * list str) := [
  (u "abstract", [
     u "^abstract\s*$";
     u "^摘\s*要\s*$";
     u "^summary\s*$" ]);
  (u "introduction", [
     u "^(?:[\d.]+\s*)?introduction\s*$";
     u "^(?:[\d.]+\s*)?引\s*言\s*$";
     u "^(?:[\d.]+\s*)?绪\s*论\s*$";
     u "^(?:[\d.]+\s*)?overview\s*$" ]);
  (u "related_work", [
     u "^(?:[\d.]+\s*)?related\s+work[s]?\s*$";
     u "^(?:[\d.]+\s*)?background\s*$";
     u "^(?:[\d.]+\s*)?background\s+and\s+related\s+work\s*$";
     u "^(?:[\d.]+\s*)?literature\s+review\s*$";
     u "^(?:[\d.]+\s*)?previous\s+work\s*$";
     u "^(?:[\d.]+\s*)?prior\s+work\s*$";
     u "^(?:[\d.]+\s*)?相关工作\s*$";
     u "^(?:[\d.]+\s*)?研究背景\s*$" ]);
  (u "methods", [
     u "^(?:[\d.]+\s*)?method(?:s|ology)?\s*$";
     u "^(?:[\d.]+\s*)?approach\s*$";
     u "^(?:[\d.]+\s*)?(?:proposed\s+)?(?:method|framework|model|system|architecture)\s*$";
     u "^(?:[\d.]+\s*)?(?:our\s+)?(?:method|approach|framework|model)\s*$";
     u "^(?:[\d.]+\s*)?technical\s+approach\s*$";
     u "^(?:[\d.]+\s*)?problem\s+(?:formulation|definition|setup)\s*$";
     u "^(?:[\d.]+\s*)?方法\s*$";
     u "^(?:[\d.]+\s*)?模型\s*$" ]);
  (u "experiments", [
     u "^(?:[\d.]+\s*)?experiments?\s*$";
     u "^(?:[\d.]+\s*)?experimental\s+(?:setup|results?|settings?|evaluation)\s*$";
     u "^(?:[\d.]+\s*)?evaluation\s*$";
     u "^(?:[\d.]+\s*)?empirical\s+(?:study|evaluation|results?)\s*$";
     u "^(?:[\d.]+\s*)?实验\s*$";
     u "^(?:[\d.]+\s*)?实验设置\s*$" ]);
  (u "results", [
     u "^(?:[\d.]+\s*)?results?\s*$";
     u "^(?:[\d.]+\s*)?results?\s+and\s+(?:discussion|analysis)\s*$";
     u "^(?:[\d.]+\s*)?main\s+results?\s*$";
     u "^(?:[\d.]+\s*)?findings?\s*$";
     u "^(?:[\d.]+\s*)?结果\s*$";
     u "^(?:[\d.]+\s*)?实验结果\s*$" ]);
  (u "discussion", [
     u "^(?:[\d.]+\s*)?discussion\s*$";
     u "^(?:[\d.]+\s*)?analysis\s*$";
     u "^(?:[\d.]+\s*)?discussion\s+and\s+(?:analysis|future\s+work)\s*$";
     u "^(?:[\d.]+\s*)?ablation\s+stud(?:y|ies)\s*$";
     u "^(?:[\d.]+\s*)?讨论\s*$";
     u "^(?:[\d.]+\s*)?分析\s*$" ]);
  (u "conclusion", [
     u "^(?:[\d.]+\s*)?conclusions?\s*$";
     u "^(?:[\d.]+\s*)?(?:conclusion|summary)\s+and\s+future\s+work\s*$";
     u "^(?:[\d.]+\s*)?concluding\s+remarks?\s*$";
     u "^(?:[\d.]+\s*)?future\s+work\s*$";
     u "^(?:[\d.]+\s*)?结论\s*$";
     u "^(?:[\d.]+\s*)?总结\s*$" ]);
  (u "acknowledgments", [
     u "^acknowledgm?ents?\s*$";
     u "^致\s*谢\s*$" ]);
  (u "appendix", [
     u "^(?:[\d.]+\s*)?appendix\s*(?:[a-z])?\s*$";
     u "^(?:[\d.]+\s*)?supplementary\s+(?:material|information)\s*$";
     u "^附\s*录\s*$" ]);
  (u "references", [
     u "^references?\s*$";
     u "^bibliography\s*$";
     u "^参考文献\s*$" ])
].

(** The [Counter] of [find_heading_font_size]: keys in insertion
    order. *)
Fixpoint counter_add (k : Q) (n : nat) (c : list (Q * nat)) : list (Q * nat) :=
  match c with
  | [] => [(k, n)]
  | (k', n') :: c' =>
      if Qeqb k' k then (k', (n' + n)%nat) :: c'
      else (k', n') :: counter_add k n c'
  end.

(** [c.most_common(1)[0][0]]: the first key of greatest count. *)
Fixpoint most_common1 (best : Q * nat) (c : list (Q * nat)) : Q :=
  match c with
  | [] => fst best
  | kn :: c' =>
      if (snd best <? snd kn)%nat then most_common1 kn c'
      else most_common1 best c'
  end.

(** [min(l)] of a non-empty list, [max(l, default=d)]. *)
Fixpoint min_from (m : Q) (l : list Q) : Q :=
  match l with
  | [] => m
  | x :: l' => if Qltb x m then min_from x l' else min_from m l'
  end.

Fixpoint max_from (m : Q) (l : list Q) : Q :=
  match l with
  | [] => m
  | x :: l' => if Qltb m x then max_from x l' else max_from m l'
  end.

Definition max_default (l : list Q) (d : Q) : Q :=
  match l with
  | [] => d
  | x :: l' => max_from x l'
  end.

Definition all_blocks_of (doc : ParsedDocument) : list TextBlock :=
  List.concat (List.map blocks (pages doc)).

Definition find_heading_font_size (doc : ParsedDocument) : Q * Q :=
  let font_sizes :=
    List.fold_left
      (fun c block =>
         if (3 <? len (strip (text block)))%nat
         then counter_add (round1 (font_size block)) (len (text block)) c
         else c)
      (all_blocks_of doc) [] in
  match font_sizes with
  | [] => (12, 14)%Q
  | first :: others =>
      let body_size := most_common1 first others in
      let heading_candidates :=
        List.filter
          (fun size => Qltb body_size size && Qleb size (body_size + 6))
          (List.map fst font_sizes) in
      let heading_size :=
        match heading_candidates with
        | [] => (body_size + (3 # 2))%Q
        | c :: cs => min_from c cs
        end in
      (body_size, heading_size)
  end.

Definition matches_any (patterns : list str) (clean : str) : bool :=
  List.existsb (fun pattern => bool_decide (is_Some (re_match I_flag (rx pattern) clean)))
    patterns.

Fixpoint first_section_type (table : list (str * list str)) (clean : str)
    : str :=
  match table with
  | [] => u "other"
  | (section_type, patterns) :: table' =>
      if matches_any patterns clean then section_type
      else first_section_type table' clean
  end.

Definition classify_section (heading_text : str) : str :=
  let clean := lower (strip heading_text) in
  let clean := sub_empty no_flags (rx (u "^[\d.]+\s*")) clean in
  let clean := sub_empty I_flag (rx (u "^[ivxlcdm]+[.\s]+")) clean in
  let clean := sub_empty I_flag (rx (u "^[a-z][.\s]+")) clean in
  let clean := strip clean in
  first_section_type SECTION_PATTERNS clean.

Definition _is_numbered_heading (text : str) : bool :=
  let text := strip text in
  if bool_decide (is_Some (re_match no_flags (rx (u "^\d+(\.\d+)*\.?\s+\S")) text))
     && (len text <? 150)%nat then true
  else if bool_decide (is_Some (re_match no_flags (rx (u "^[IVXLCDM]+\.\s+\S")) text))
     && (len text <? 150)%nat then true
  else false.

Definition same_line (b prev : TextBlock) : bool :=
  Qltb (Qabs (bbox1 b - bbox1 prev)) 3
  && Qltb (Qabs (font_size b - font_size prev)) (1 # 2)
  && Bool.eqb (is_bold b) (is_bold prev)
  && (page_num b =? page_num prev)%Z.

Definition merge_step (merged : list TextBlock) (b : TextBlock)
    : list TextBlock :=
  match List.last (List.map Some merged) None with
  | Some prev =>
      if same_line b prev then
        List.removelast merged ++ [
          {| text := text prev ++ [SP] ++ text b;
             font_size := font_size prev;
             font_name := font_name prev;
             is_bold := is_bold prev;
             page_num := page_num prev;
             bbox := (bbox0 prev, bbox1 prev, bbox2 b, bbox3 b) |} ]
      else merged ++ [b]
  | None => merged ++ [b]
  end.

Definition _merge_adjacent_blocks (blocks : list TextBlock)
    : list TextBlock :=
  match blocks with
  | [] => blocks
  | b0 :: others => List.fold_left merge_step others [b0]
  end.

(** The quotient of the two counts is taken exactly; the float quotient
    of the source compares with [0.3] the same way for every text of
    fewer than [2^50] characters. *)
Definition detect_language (text : str) : str :=
  let chinese_chars := len (finditer no_flags (rx (u "[\u4e00-\u9fff]")) text) in
  let total_chars := len (strip text) in
  if (total_chars =? 0)%nat then u "en"
  else if Qltb (3 # 10) (inject_Z (Z.of_nat chinese_chars)
                          / inject_Z (Z.of_nat total_chars))
  then u "zh"
  else u "en".

Definition is_other (section_type : str) : bool :=
  str_eqb section_type (u "other").

Definition new_section (section_type text : str) (page : Z) : Section :=
  {| section_type := section_type; heading := text; content := [];
     page_start := page; page_end := page |}.

(** The four heading checks of the loop body: [(is_heading,
    section_type)] for a block whose stripped text is [text]. *)
Definition heading_checks (body_size heading_size : Q) (block : TextBlock)
    (text : str) : bool * str :=
  (* Check 1: font-based heading detection (larger or bold) *)
  let '(is_heading, section_type) :=
    if Qleb heading_size (font_size block) && (len text <? 200)%nat then
      if is_bold block || Qltb (body_size + (1 # 2)) (font_size block)
      then (true, classify_section text)
      else (false, u "other")
    else (false, u "other") in
  (* Check 2: numbered heading pattern (even at body font size) *)
  let '(is_heading, section_type) :=
    if negb is_heading && _is_numbered_heading text then
      let candidate_type := classify_section text in
      if negb (is_other candidate_type) then (true, candidate_type)
      else (is_heading, section_type)
    else (is_heading, section_type) in
  (* Check 3: bold text at body size that matches known section names *)
  let '(is_heading, section_type) :=
    if negb is_heading && is_bold block && (len text <? 100)%nat then
      let candidate_type := classify_section text in
      if negb (is_other candidate_type) then (true, candidate_type)
      else (is_heading, section_type)
    else (is_heading, section_type) in
  (* Check 4: ALL-CAPS text that matches known section names *)
  if negb is_heading && isupper text && (len text <? 100)%nat then
    let candidate_type := classify_section text in
    if negb (is_other candidate_type) then (true, candidate_type)
    else (is_heading, section_type)
  else (is_heading, section_type).

(** The state of the block loop of [analyze_layout]. *)
Record layout_state : Type := {
  sections : list Section;
  current_section : option Section
}.

(** [sections.append(current_section)] when its content is not blank. *)
Definition save_section (sections : list Section) (cur : option Section)
    : list Section :=
  match cur with
  | Some s =>
      match strip (content s) with
      | [] => sections
      | _ => sections ++ [s]
      end
  | None => sections
  end.

(** One iteration of [for block in all_blocks]. *)
Definition layout_step (body_size heading_size : Q) (st : layout_state)
    (block : TextBlock) : layout_state :=
  let text := strip (text block) in
  match text with
  | [] => st
  | _ =>
      let '(is_heading, section_type) :=
        heading_checks body_size heading_size block text in
      if is_heading && negb (is_other section_type) then
        {| sections := save_section (sections st) (current_section st);
           current_section :=
             Some (new_section section_type text (page_num block)) |}
      else if is_heading && is_other section_type
              && Qltb heading_size (font_size block) then
        match current_section st with
        | Some cur =>
            {| sections := sections st;
               current_section :=
                 Some (with_content cur
                         (content cur ++ [NL] ++ u "### " ++ text ++ [NL])
                         (page_num block)) |}
        | None =>
            {| sections := sections st;
               current_section :=
                 Some (new_section (u "other") text (page_num block)) |}
        end
      else
        match current_section st with
        | Some cur =>
            {| sections := sections st;
               current_section :=
                 Some (with_content cur (content cur ++ text ++ [SP])
                         (page_num block)) |}
        | None => st
        end
  end.

(** The state of the line loop of [_extract_sections_from_text]. *)
Definition text_step (st : layout_state) (line : str) : layout_state :=
  let stripped := strip line in
  match stripped with
  | [] =>
      match current_section st with
      | Some cur =>
          {| sections := sections st;
             current_section :=
               Some (with_content cur (content cur ++ [NL]) (page_end cur)) |}
      | None => st
      end
  | _ =>
      let section_type := classify_section stripped in
      let section_type :=
        if is_other section_type
           && bool_decide (is_Some
                (re_match no_flags (rx (u "^\d+(\.\d+)*\.?\s+\S")) stripped))
        then
          let after_num :=
            sub_empty no_flags (rx (u "^\d+(\.\d+)*\.?\s+")) stripped in
          classify_section after_num
        else section_type in
      let is_heading :=
        negb (is_other section_type) && (len stripped <? 100)%nat in
      if is_heading then
        {| sections := save_section (sections st) (current_section st);
           current_section := Some (new_section section_type stripped 0) |}
      else
        match current_section st with
        | Some cur =>
            {| sections := sections st;
               current_section :=
                 Some (with_content cur (content cur ++ stripped ++ [SP])
                         (page_end cur)) |}
        | None => st
        end
  end.

Definition _extract_sections_from_text (full_text language : str)
    : list Section :=
  let lines := split_char NL full_text in
  let st := List.fold_left text_step lines
              {| sections := []; current_section := None |} in
  save_section (sections st) (current_section st).

Definition has_type (ty : str) (s : Section) : bool :=
  str_eqb (section_type s) ty.

Definition title_section (first_page : ParsedPage) (body_size heading_size : Q)
    : list Section :=
  let max_font :=
    max_default (List.map font_size (blocks first_page)) body_size in
  if Qltb heading_size max_font then
    let title_blocks :=
      List.filter (fun b => Qltb (Qabs (font_size b - max_font)) 1)
        (blocks first_page) in
    let title_text := join [SP] (List.map text (List.firstn 5 title_blocks)) in
    [ {| section_type := u "title";
         heading := strip title_text;
         content := strip title_text;
         page_start := 0;
         page_end := 0 |} ]
  else [].

Definition abstract_pattern : str :=
  u "(?:abstract|摘\s*要)[:\s—\-]*(.+?)(?=\n\s*(?:[\d.]+\s*)?(?:introduction|引言|keywords|关键词|1\s))".

(** [sections.insert(insert_pos, s)] with [insert_pos] 1 behind a
    leading title and 0 otherwise. *)
Definition insert_abstract (sections : list Section) (s : Section)
    : list Section :=
  match sections with
  | s0 :: others =>
      if has_type (u "title") s0 then s0 :: s :: others else s :: sections
  | [] => [s]
  end.

(** The stages of [analyze_layout] after the block loop. *)

(** If very few sections detected, try text-based fallback. *)
Definition text_fallback (sections : list Section) (full_text language : str)
    : list Section :=
  let named_sections :=
    List.filter (fun s => negb (has_type (u "title") s)
                          && negb (has_type (u "other") s)) sections in
  if (len named_sections <? 2)%nat then
    let text_sections := _extract_sections_from_text full_text language in
    if (len named_sections <? len text_sections)%nat then
      (* Keep title, replace the rest *)
      let title_sections := List.filter (has_type (u "title")) sections in
      title_sections ++ text_sections
    else sections
  else sections.

(** Try to extract abstract if not found. [None] is the exception of
    [abstract_match.group(1).strip()] on a group that did not take
    part. *)
Definition recover_abstract (sections : list Section) (full_text : str)
    : option (list Section) :=
  let has_abstract := List.existsb (has_type (u "abstract")) sections in
  if negb has_abstract then
    match re_search IS_flags (rx abstract_pattern) full_text with
    | Some abstract_match =>
        g1 ← group full_text abstract_match 1;
        let abstract_text := strip g1 in
        if (50 <? len abstract_text)%nat then
          Some (insert_abstract sections
                  {| section_type := u "abstract";
                     heading := u "Abstract";
                     content := abstract_text;
                     page_start := 0;
                     page_end := 0 |})
        else Some sections
    | None => Some sections
    end
  else Some sections.

(** If still no sections at all, create a single full-text section. *)
Definition full_text_section (sections : list Section) (full_text : str)
    (page_count : Z) : list Section :=
  if (len sections <=? 1)%nat then
    sections ++ [ {| section_type := u "other";
                     heading := u "Full Text";
                     content := full_text;
                     page_start := 0;
                     page_end := page_count - 1 |} ]
  else sections.

(** The sections the block loop detects, the last one saved. *)
Definition font_sections (doc : ParsedDocument) (first_page : ParsedPage)
    (body_size heading_size : Q) : list Section :=
  (* First pass: find title (largest font on first page) *)
  let sections := title_section first_page body_size heading_size in
  (* Second pass: merge blocks per page, then detect sections *)
  let all_blocks :=
    List.concat
      (List.map (fun page => _merge_adjacent_blocks (blocks page))
         (pages doc)) in
  let st := List.fold_left (layout_step body_size heading_size) all_blocks
              {| sections := sections; current_section := None |} in
  (* Save last section *)
  save_section (layout_analyzer.sections st) (current_section st).

(** [analyze_layout(doc)]; [None] stands for an exception. *)
Definition analyze_layout (doc : ParsedDocument)
    : option (list Section * str) :=
  match pages doc with
  | [] => Some ([], u "en")
  | first_page :: _ =>
      let '(body_size, heading_size) := find_heading_font_size doc in
      let full_text := join [NL] (List.map raw_text (pages doc)) in
      let language := detect_language full_text in
      let sections := font_sections doc first_page body_size heading_size in
      let sections := text_fallback sections full_text language in
      sections ← recover_abstract sections full_text;
      let sections := full_text_section sections full_text (page_count doc) in
      Some (sections, language)
  end.

End layout_analyzer.

(* ===================================================================== *)
(** * reference_parser.py *)
(* ===================================================================== *)

Module reference_parser.

Import Py Re ReSyntax.

Record Reference : Type := {
  raw_text : str;
  title : option str;
  authors : list str;
  year : option N;
  venue : option str;
  doi : option str;
  order : N
}.

(** The double quote, written three times in the bracket expression of
    the title pattern. *)
Definition DQ : N := 0x22.

Definition title_pattern : str :=
  u "[" ++ [DQ; DQ; DQ] ++ u "](.+?)[" ++ [DQ; DQ; DQ] ++ u "]".

Definition _parse_single_reference (text : str) (order : N)
    : option Reference :=
  (* Extract year *)
  let year_match := re_search no_flags (rx (u "\b(19|20)\d{2}\b")) text in
  year ← match year_match with
         | Some m => y ← int (group0 text m); Some (Some y)
         | None => Some None
         end;
  (* Extract DOI *)
  let doi_match := re_search no_flags (rx (u "(10\.\d{4,}/[^\s]+)")) text in
  doi ← match doi_match with
        | Some m => g ← group text m 1; Some (Some (rstrip_chars (u ".") g))
        | None => Some None
        end;
  (* Try to extract title (usually in quotes or after authors) *)
  let title_match := re_search no_flags (rx title_pattern) text in
  title ← match title_match with
          | Some m => g ← group text m 1; Some (Some g)
          | None =>
              (* Try: Authors. Title. Venue, Year. *)
              let parts := split_plain no_flags (rx (u "\.\s+")) text 3 in
              match parts with
              | _ :: p1 :: _ =>
                  Some (if (10 <? len p1)%nat then Some (strip p1) else None)
              | _ => Some None
              end
          end;
  (* Extract authors (before the year or title) *)
  let author_text :=
    match year_match with
    | Some m => rstrip_chars (u ",.(") (strip (List.firstn (m_start m) text))
    | None => List.firstn 50 text
    end in
  (* Split authors by "and", ",", "&" *)
  let authors :=
    match author_text with
    | [] => []
    | _ =>
        let authors :=
          split_plain no_flags (rx (u "\s+and\s+|,\s*|\s*&\s*")) author_text 0 in
        List.firstn 10
          (List.map strip
             (List.filter (fun a => (1 <? len (strip a))%nat) authors))
    end in
  Some {| raw_text := text; title := title; authors := authors; year := year;
          venue := None; doi := doi; order := order |}.

(** The state of the block loop of [parse_references]. *)
Record ref_state : Type := {
  references : list Reference;
  current_ref : str;
  ref_num : N
}.

(** [references.append(_parse_single_reference(current_ref.strip(),
    ref_num))] when [current_ref] is not blank. *)
Definition flush (st : ref_state) : option (list Reference) :=
  match strip (current_ref st) with
  | [] => Some (references st)
  | t => r ← _parse_single_reference t (ref_num st);
         Some (references st ++ [r])
  end.

Definition ref_step (st : ref_state) (block : option str) : option ref_state :=
  match block with
  | None => Some st
  | Some block =>
      if isdigit (strip block) then
        refs ← flush st;
        n ← int (strip block);
        Some {| references := refs; current_ref := []; ref_num := n |}
      else
        Some {| references := references st;
                current_ref := current_ref st ++ block;
                ref_num := ref_num st |}
  end.

Definition line_step (acc : list Reference * N) (line : str)
    : option (list Reference * N) :=
  let '(refs, i) := acc in
  let line := strip line in
  if (20 <? len line)%nat then
    r ← _parse_single_reference line (i + 1)%N;
    Some (refs ++ [r], (i + 1)%N)
  else Some (refs, (i + 1)%N).

(** [parse_references(text)]; [None] stands for an exception. *)
Definition parse_references (text : str) : option (list Reference) :=
  (* Split by common reference patterns *)
  let ref_blocks :=
    split no_flags (rx (u "\n\s*(?:\[(\d+)\]|(\d+)\.\s)")) text 0 in
  (* Reconstruct blocks *)
  st ← for_each ref_step ref_blocks
         {| references := []; current_ref := []; ref_num := 0 |};
  references ← flush st;
  (* If no structured refs found, try line-by-line *)
  match references with
  | [] =>
      let lines := split_char NL (strip text) in
      acc ← for_each line_step lines ([], 0%N);
      Some (fst acc)
  | _ => Some references
  end.

End reference_parser.

(* ===================================================================== *)
(** * relation_extractor.py *)
(* ===================================================================== *)

Module relation_extractor.

Import Py Re ReSyntax.

(** An entity dictionary as the caller passes it. *)
Record Entity : Type := {
  text : str;
  entity_type : str
}.

Record Relationship : Type := {
  source : str;
  target : str;
  relation_type : str;
  description : str;
  confidence : Q
}.

(** Patterns that indicate specific relationship types between
    entities. *)
Definition RELATION_INDICATORS : list (str * list str) := [
  (u "uses", [
     u "{src}\s+(?:uses?|utilizes?|employs?|leverages?|applies)\s+{tgt}";
     u "{tgt}\s+(?:is\s+)?(?:used|utilized|employed|applied)\s+(?:by|in|for)\s+{src}";
     u "(?:using|with|via|through)\s+{tgt}" ]);
  (u "evaluates_on", [
     u "{src}\s+(?:on|evaluated?\s+on|tested?\s+on|benchmarked?\s+on)\s+{tgt}";
     u "(?:evaluate|test|benchmark)\s+{src}\s+on\s+{tgt}";
     u "(?:results?\s+on|performance\s+on)\s+{tgt}" ]);
  (u "improves", [
     u "{src}\s+(?:improves?|outperforms?|surpass(?:es)?|exceeds?|beats?)\s+{tgt}";
     u "{src}\s+(?:achieves?\s+(?:better|higher|superior)\s+(?:\w+\s+)?(?:than|over))\s+{tgt}" ]);
  (u "comparative", [
     u "{src}\s+(?:compared?\s+(?:to|with)|vs\.?|versus)\s+{tgt}";
     u "(?:comparison\s+(?:between|of))\s+{src}\s+and\s+{tgt}" ]);
  (u "part_of", [
     u "{src}\s+(?:component|module|layer|part)\s+of\s+{tgt}";
     u "{tgt}\s+(?:consists?\s+of|includes?|contains?)\s+{src}" ])
].

(** Type-based relationship heuristics. *)
Definition TYPE_RELATIONS : gmap (str * str) str :=
  list_to_map [
    ((u "method", u "dataset"), u "evaluates_on");
    ((u "method", u "metric"), u "evaluates_on");
    ((u "method", u "tool"), u "uses");
    ((u "method", u "theory"), u "uses");
    ((u "method", u "baseline"), u "comparative");
    ((u "innovation", u "method"), u "improves");
    ((u "innovation", u "baseline"), u "improves");
    ((u "research_problem", u "method"), u "causal");
    ((u "research_problem", u "innovation"), u "causal")
  ].

(** [re.finditer(pattern, text)] and [re.search(pattern, text)] for a
    pattern built at run time: [None] where it does not compile. *)
Definition finditer_dyn (pattern text : str) : option (list rmatch) :=
  r ← parse pattern; Some (finditer no_flags r text).

Definition search_dyn (pattern text : str) : option (option rmatch) :=
  r ← parse pattern; Some (re_search no_flags r text).

Definition abs_diff (a b : nat) : nat := ((a - b) + (b - a))%nat.

Definition _entities_co_occur (e1_text e2_text context : str) (window : nat)
    : option bool :=
  let text_lower := lower context in
  let e1_lower := lower e1_text in
  let e2_lower := lower e2_text in
  (* Find all positions of e1 *)
  ms1 ← finditer_dyn (escape e1_lower) text_lower;
  ms2 ← finditer_dyn (escape e2_lower) text_lower;
  let pos1 := List.map m_start ms1 in
  let pos2 := List.map m_start ms2 in
  (* Check if any pair is within the window *)
  Some (List.existsb
          (fun p1 => List.existsb (fun p2 => (abs_diff p1 p2 <? window)%nat) pos2)
          pos1).

(** The first relation type one of whose patterns is found; the
    patterns are tried in the order of the table. *)
Fixpoint first_pattern (src_esc tgt_esc text_lower : str)
    (patterns : list str) : option bool :=
  match patterns with
  | [] => Some false
  | pattern_template :: patterns' =>
      let pattern :=
        replace (u "{tgt}") tgt_esc
          (replace (u "{src}") src_esc pattern_template) in
      found ← search_dyn pattern text_lower;
      match found with
      | Some _ => Some true
      | None => first_pattern src_esc tgt_esc text_lower patterns'
      end
  end.

Fixpoint first_relation (src_esc tgt_esc text_lower : str)
    (table : list (str * list str)) : option (option str) :=
  match table with
  | [] => Some None
  | (rel_type, patterns) :: table' =>
      found ← first_pattern src_esc tgt_esc text_lower patterns;
      if found : bool then Some (Some rel_type)
      else first_relation src_esc tgt_esc text_lower table'
  end.

Definition _check_pattern_relation (src_text tgt_text context : str)
    : option (option str) :=
  let text_lower := lower context in
  let src_esc := escape (lower src_text) in
  let tgt_esc := escape (lower tgt_text) in
  first_relation src_esc tgt_esc text_lower RELATION_INDICATORS.

Definition relationship (src_text tgt_text rel_type : str) (conf : Q)
    : Relationship :=
  {| source := src_text; target := tgt_text; relation_type := rel_type;
     description := src_text ++ [SP] ++ rel_type ++ [SP] ++ tgt_text;
     confidence := conf |}.

(** The state of the pair loop of [extract_relationships]. *)
Record rel_state : Type := {
  relationships : list Relationship;
  seen_pairs : gset (str * str)
}.

Definition record (st : rel_state) (pair_key : str * str) (r : Relationship)
    : rel_state :=
  {| relationships := relationships st ++ [r];
     seen_pairs := {[ pair_key ]} ∪ seen_pairs st |}.

(** The body of the inner loop for a pair [i < j]. *)
Definition pair_step (context : str) (e1 e2 : Entity) (st : rel_state)
    : option rel_state :=
  let src_text := text e1 in
  let tgt_text := text e2 in
  let pair_key := (lower src_text, lower tgt_text) in
  if bool_decide (pair_key ∈ seen_pairs st) then Some st
  else
    (* Try pattern-based detection first *)
    rel_type ← _check_pattern_relation src_text tgt_text context;
    found ← match rel_type with
            | Some t => Some (Some (src_text, tgt_text, t))
            | None =>
                rel_type ← _check_pattern_relation tgt_text src_text context;
                match rel_type with
                | Some t => Some (Some (tgt_text, src_text, t))
                | None => Some None
                end
            end;
    match found with
    | Some (s, t, rel_type) =>
        Some (record st pair_key (relationship s t rel_type (7 # 10)))
    | None =>
        (* Fall back to co-occurrence + type heuristics *)
        co ← _entities_co_occur src_text tgt_text context 250;
        if co : bool then
          let type_pair := (entity_type e1, entity_type e2) in
          match TYPE_RELATIONS !! type_pair with
          | Some rel_type =>
              Some (record st pair_key
                      (relationship src_text tgt_text rel_type (1 # 2)))
          | None =>
              let rev_pair := (snd type_pair, fst type_pair) in
              match TYPE_RELATIONS !! rev_pair with
              | Some rel_type =>
                  Some (record st pair_key
                          (relationship tgt_text src_text rel_type (1 # 2)))
              | None => Some st
              end
          end
        else Some st
    end.

(** The pairs [(e1, e2)] of positions [i < j], in the order the two
    nested loops visit them. *)
Fixpoint pairs_in_order (l : list Entity) : list (Entity * Entity) :=
  match l with
  | [] => []
  | e1 :: l' => List.map (fun e2 => (e1, e2)) l' ++ pairs_in_order l'
  end.

(** [extract_relationships(entities, context)]; [None] stands for an
    exception. *)
Definition extract_relationships (entities : list Entity) (context : str)
    : option (list Relationship) :=
  if (len entities <? 2)%nat then Some []
  else
    let limited := List.firstn 40 entities in
    st ← for_each (fun st '(e1, e2) => pair_step context e1 e2 st)
           (pairs_in_order limited)
           {| relationships := []; seen_pairs := ∅ |};
    Some (relationships st).

End relation_extractor.

(* ===================================================================== *)
(** * entity_recognizer.py *)
(* ===================================================================== *)

Module entity_recognizer.

Import Py Re ReSyntax.

Record Entity : Type := {
  text : str;
  entity_type : str;
  confidence : Q
}.

(** Keyword patterns for different entity types. *)
Definition DATASET_PATTERNS : list str := [
  u "\b(ImageNet|CIFAR[-\s]?\d+|MNIST|COCO|VOC\s?\d+|SQuAD|GLUE|SuperGLUE|WikiText|Penn\s?Treebank)\b";
  u "\b(WMT[-\s]?\d+|SNLI|MultiNLI|SST[-\s]?\d+|MRPC|QQP|QNLI|RTE|WNLI)\b";
  u "\b(MS[-\s]?COCO|Visual\s?Genome|Flickr\d+k?|LVIS|ADE\d+K?|Cityscapes)\b";
  u "\b(LibriSpeech|Common\s?Voice|AudioSet|VoxCeleb\d?)\b";
  u "\b(WebText|BookCorpus|C4|The\s?Pile|RedPajama|LAION[-\s]?\d+[BMK]?)\b"
].

Definition DATASET_GENERIC : regex :=
  rx (u "\b([A-Z][\w-]*(?:\s+[A-Z][\w-]*)*)\s+(?:dataset|benchmark|corpus|corpora)\b").

Definition METRIC_PATTERNS : list str := [
  u "\b(accuracy|precision|recall|F1[-\s]?score|F[-\s]?measure|AUC[-\s]?ROC|mAP|IoU)\b";
  u "\b(BLEU[-\s]?\d*|ROUGE[-\s]?[LN12]*|METEOR|CIDEr|perplexity|PPL)\b";
  u "\b(top[-\s]?\d+\s+accuracy|mean\s+average\s+precision|average\s+precision)\b";
  u "\b(FID|IS|inception\s+score|Frechet\s+inception\s+distance)\b";
  u "\b(MSE|RMSE|MAE|PSNR|SSIM)\b";
  u "\b(WER|CER|word\s+error\s+rate|character\s+error\s+rate)\b";
  u "\b(EM|exact\s+match)\b"
].

Definition METHOD_PATTERNS : list str := [
  u "\b(Transformer|BERT|GPT[-\s]?\d*|ResNet[-\s]?\d*|VGG[-\s]?\d*|LSTM|GRU|CNN|RNN)\b";
  u "\b(ViT|Vision\s+Transformer|DETR|YOLO(?:v\d)?|Faster\s+R[-\s]?CNN|Mask\s+R[-\s]?CNN)\b";
  u "\b(U[-\s]?Net|GAN|VAE|Diffusion\s+Model|Stable\s+Diffusion|DALL[-\s]?E)\b";
  u "\b(T5|BART|XLNet|RoBERTa|ALBERT|DeBERTa|ELECTRA|LLaMA|Mistral|Qwen)\b";
  u "\b(attention\s+mechanism|self[-\s]?attention|cross[-\s]?attention|multi[-\s]?head\s+attention)\b";
  u "\b(dropout|batch\s+normalization|layer\s+normalization|residual\s+connection)\b";
  u "\b(fine[-\s]?tuning|pre[-\s]?training|transfer\s+learning|few[-\s]?shot|zero[-\s]?shot)\b";
  u "\b(reinforcement\s+learning|supervised\s+learning|unsupervised\s+learning|self[-\s]?supervised)\b";
  u "\b(contrastive\s+learning|knowledge\s+distillation|data\s+augmentation)\b";
  u "\b(gradient\s+descent|Adam|SGD|AdamW)\b"
].

Definition TOOL_PATTERNS : list str := [
  u "\b(PyTorch|TensorFlow|JAX|Keras|Hugging\s?Face|scikit[-\s]?learn|spaCy|NLTK)\b";
  u "\b(NumPy|SciPy|Pandas|OpenCV|CUDA|cuDNN)\b";
  u "\b(NVIDIA\s+[A-Z]\d+|TPU|A100|V100|H100)\b"
].

Definition THEORY_PATTERNS : list str := [
  u "\b(Bayes(?:ian)?\s+(?:theorem|inference|optimization|network))\b";
  u "\b(Markov\s+(?:chain|decision\s+process|random\s+field))\b";
  u "\b(KL[-\s]?divergence|mutual\s+information|information\s+entropy)\b";
  u "\b(optimal\s+transport|Wasserstein\s+distance|variational\s+inference)\b"
].

(** The entities found so far and the keys in [seen]; the set is
    shared by all the passes of one call. *)
Abbreviation acc := (list Entity * gset str)%type.

Definition emit (a : acc) (key : str) (e : Entity) : acc :=
  (fst a ++ [e], {[ key ]} ∪ snd a).

Definition match_step (text entity_type : str) (a : acc) (m : rmatch)
    : option acc :=
  matched ← match lastindex m with
            | Some (S _) => group text m 1
            | _ => Some (group0 text m)
            end;
  let key := strip (lower matched) in
  if bool_decide (key ∉ snd a) && (1 <? len key)%nat then
    Some (emit a key {| text := strip matched;
                        entity_type := entity_type;
                        confidence := 8 # 10 |})
  else Some a.

(** Match regex patterns and return unique entities. *)
Definition _match_patterns (text : str) (patterns : list str)
    (entity_type : str) (a : acc) : option acc :=
  for_each
    (fun a pattern =>
       for_each (match_step text entity_type)
         (finditer I_flag (rx pattern) text) a)
    patterns a.

Definition problem_patterns : list str := [
  u "(?:we\s+(?:address|tackle|study|investigate|focus\s+on|propose\s+a\s+solution\s+(?:to|for)))\s+(?:the\s+)?(?:problem\s+of\s+)?(.{10,80}?)(?:\.|,|\band\b)";
  u "(?:the\s+(?:problem|task|challenge)\s+of)\s+(.{10,80}?)(?:\.|,)";
  u "(?:this\s+(?:paper|work|study)\s+(?:addresses|tackles|focuses\s+on|investigates))\s+(.{10,80}?)(?:\.|,)"
].

Definition problem_step (text : str) (a : acc) (m : rmatch) : option acc :=
  g ← group text m 1;
  let matched := strip g in
  let key := lower matched in
  if bool_decide (key ∉ snd a) && (10 <? len matched)%nat
     && (len matched <? 200)%nat then
    Some (emit a key {| text := matched;
                        entity_type := u "research_problem";
                        confidence := 6 # 10 |})
  else Some a.

(** Extract research problems from text using heuristic patterns. *)
Definition _extract_research_problems (text : str) (a : acc) : option acc :=
  for_each
    (fun a pattern =>
       for_each (problem_step text) (finditer I_flag (rx pattern) text) a)
    problem_patterns a.

Definition baseline_patterns : list str := [
  u "(?:compared?\s+(?:with|to|against)|baseline[s]?(?:\s+(?:include|are))?)[:\s]+(.{5,200}?)(?:\.|$)";
  u "(?:outperform[s]?|surpass(?:es)?|exceed[s]?)\s+(.{5,80}?)(?:\s+(?:by|on|in|with)\b|\.|,)"
].

Definition part_step (a : acc) (part : str) : option acc :=
  let part := rstrip_chars (u ".") (strip part) in
  let key := lower part in
  if bool_decide (key ∉ snd a) && (2 <? len part)%nat && (len part <? 80)%nat
  then
    c ← List.head part;                                   (* part[0] *)
    if negb (is_lower c) then
      Some (emit a key {| text := part;
                          entity_type := u "baseline";
                          confidence := 6 # 10 |})
    else Some a
  else Some a.

Definition baseline_step (text : str) (a : acc) (m : rmatch) : option acc :=
  g ← group text m 1;
  let raw := strip g in
  (* Split by comma/and to get individual baselines *)
  let parts := split_plain no_flags (rx (u ",\s*|\s+and\s+")) raw 0 in
  for_each part_step parts a.

(** Extract baseline methods mentioned in comparisons. *)
Definition _extract_baselines (text : str) (a : acc) : option acc :=
  for_each
    (fun a pattern =>
       for_each (baseline_step text) (finditer I_flag (rx pattern) text) a)
    baseline_patterns a.

Definition generic_step (text : str) (a : acc) (m : rmatch) : option acc :=
  g ← group text m 1;
  let name := strip g in
  let key := lower name in
  if bool_decide (key ∉ snd a) && (2 <? len name)%nat then
    Some (emit a key {| text := name;
                        entity_type := u "dataset";
                        confidence := 65 # 100 |})
  else Some a.

Definition one_of (s : str) (l : list str) : bool :=
  List.existsb (str_eqb s) l.

(** [extract_entities(section_type, content)]; [None] stands for an
    exception. *)
Definition extract_entities (section_type content : str)
    : option (list Entity) :=
  if (len (strip content) <? 30)%nat then Some []
  else
    let text := List.firstn 12000 content in
    let a : acc := ([], ∅) in
    (* Extract known entity types via patterns *)
    a ← _match_patterns text DATASET_PATTERNS (u "dataset") a;
    a ← _match_patterns text METRIC_PATTERNS (u "metric") a;
    a ← _match_patterns text METHOD_PATTERNS (u "method") a;
    a ← _match_patterns text TOOL_PATTERNS (u "tool") a;
    a ← _match_patterns text THEORY_PATTERNS (u "theory") a;
    (* Generic dataset mentions (e.g. "XYZ dataset") *)
    a ← for_each (generic_step text) (finditer I_flag DATASET_GENERIC text) a;
    (* Research problems (from intro/abstract sections) *)
    a ← (if one_of section_type [u "abstract"; u "introduction"; u "other"]
         then _extract_research_problems text a else Some a);
    (* Baselines (from experiments/results sections) *)
    a ← (if one_of section_type
              [u "experiments"; u "results"; u "discussion"; u "other"]
         then _extract_baselines text a else Some a);
    Some (fst a).

End entity_recognizer.

(* ===================================================================== *)
(** * Facts about matching: the groups of a match *)
(* ===================================================================== *)

Module ReFacts.

Import Py Re ReSyntax.

(** [always_sets g r]: every match of [r] closes group [g]. *)
Fixpoint always_sets (g : nat) (r : regex) : bool :=
  match r with
  | Group n r1 => (n =? g)%nat || always_sets g r1
  | Cat r1 r2 => always_sets g r1 || always_sets g r2
  | Or r1 r2 => always_sets g r1 && always_sets g r2
  | Repeat r1 lo _ _ => (0 <? lo)%nat && always_sets g r1
  | _ => false
  end.

(** [grows n g must st st1]: the groups of [st1] are those of [st] and,
    before them, newly closed ones numbered at most [n], among them
    group [g] when [must] holds. *)
Definition grows (n g : nat) (must : bool) (st st1 : mstate) : Prop :=
  exists new,
    caps st1 = new ++ caps st
    /\ Forall (fun c => (fst c <= n)%nat) new
    /\ (must = true -> is_Some (lookup_cap g new)).

(** [hands n g must st k res]: [k] returned [res] on a state grown
    from [st]. *)
Definition hands (n g : nat) (must : bool) (st : mstate)
    (k : mstate -> option mstate) (res : mstate) : Prop :=
  exists st1, k st1 = Some res /\ grows n g must st st1.

Lemma lookup_cap_app g new old :
  is_Some (lookup_cap g new) \/ is_Some (lookup_cap g old) ->
  is_Some (lookup_cap g (new ++ old)).
Proof.
  induction new as [|[h span] new IH]; simpl.
  - intros [[x Hx]|H]; [discriminate | exact H].
  - destruct (h =? g)%nat; [eauto | exact IH].
Qed.

Lemma grows_refl n g st : grows n g false st st.
Proof. exists []. split; [reflexivity|]. split; [constructor | discriminate]. Qed.

Lemma grows_trans n1 n2 g m1 m2 st st1 st2 :
  grows n1 g m1 st st1 -> grows n2 g m2 st1 st2 ->
  grows (Nat.max n1 n2) g (m1 || m2) st st2.
Proof.
  intros (new1 & E1 & F1 & M1) (new2 & E2 & F2 & M2).
  exists (new2 ++ new1). split; [rewrite E2, E1; apply List.app_assoc|].
  split.
  - apply Forall_app. split; eapply Forall_impl; eauto; simpl; lia.
  - intros H. apply lookup_cap_app.
    destruct m1; [right; auto | left; auto].
Qed.

Lemma grows_weaken n n' g m m' st st1 :
  (n <= n')%nat -> (m' = true -> m = true) ->
  grows n g m st st1 -> grows n' g m' st st1.
Proof.
  intros Hn Hm (new & E & F & M). exists new. split; [exact E|].
  split; [eapply Forall_impl; eauto; simpl; lia | auto].
Qed.

Lemma grows_advance n g st c r : grows n g false st (advance st c r).
Proof. exists []. split; [reflexivity|]. split; [constructor | discriminate]. Qed.

Lemma grows_set_cap n g a b st : grows n g (n =? g)%nat st (set_cap n a b st).
Proof.
  exists [(n, (a, b))]. split; [reflexivity|]. split.
  - constructor; [simpl; lia | constructor].
  - intros H. simpl. rewrite H. eauto.
Qed.

Lemma hands_step_char p n g st k res :
  step_char p st k = Some res -> hands n g false st k res.
Proof.
  unfold step_char. destruct (rest st) as [|x r]; [discriminate|].
  destruct (p x); [|discriminate].
  intros H. eexists. split; [exact H | apply grows_advance].
Qed.

Lemma hands_here n g st k res : k st = Some res -> hands n g false st k res.
Proof. intros H. exists st. split; [exact H | apply grows_refl]. Qed.

(** Repetition: what holds of one iteration holds of the loop; group
    [g] is closed when the first iteration is compulsory. *)
Lemma rep_loop_hands body n g must lo hi greedy k :
  (forall st k' res, body st k' = Some res -> hands n g must st k' res) ->
  forall fuel i st0 res,
    rep_loop body lo hi greedy k fuel i st0 = Some res ->
    hands n g (must && (0 <? lo)%nat && (i =? 0)%nat) st0 k res.
Proof.
  intros Hbody. induction fuel as [|f IH]; intros i st0 res; [discriminate|].
  simpl.
  assert (Hagain :
    (if below i hi then
       body st0 (fun st1 =>
         if (i <? lo)%nat || (pos st0 <? pos st1)%nat
         then rep_loop body lo hi greedy k f (S i) st1 else None)
     else None) = Some res ->
    hands n g (must && (0 <? lo)%nat && (i =? 0)%nat) st0 k res).
  { destruct (below i hi); [|discriminate]. intros H.
    apply Hbody in H. destruct H as (st1 & H & G1).
    destruct ((i <? lo)%nat || (pos st0 <? pos st1)%nat); [|discriminate].
    apply IH in H. destruct H as (st2 & H & G2).
    exists st2. split; [exact H|].
    eapply grows_weaken; [| |eapply grows_trans; [exact G1 | exact G2]].
    - lia.
    - intros E. apply andb_true_iff in E as [E _].
      apply andb_true_iff in E as [E _]. rewrite E. reflexivity. }
  assert (Hleave :
    (if (lo <=? i)%nat then k st0 else None) = Some res ->
    hands n g (must && (0 <? lo)%nat && (i =? 0)%nat) st0 k res).
  { destruct (lo <=? i)%nat eqn:E; [|discriminate]. intros H.
    exists st0. split; [exact H|].
    eapply grows_weaken; [reflexivity| |apply grows_refl].
    intros M. apply andb_true_iff in M as [M1 M2].
    apply andb_true_iff in M1 as [_ M1].
    apply Nat.leb_le in E. apply Nat.ltb_lt in M1. apply Nat.eqb_eq in M2.
    lia. }
  destruct greedy; unfold orelse.
  - destruct (if below i hi then _ else None) eqn:E.
    + intros H. inversion H; subst. auto.
    + auto.
  - destruct (if (lo <=? i)%nat then _ else None) eqn:E.
    + intros H. inversion H; subst. auto.
    + auto.
Qed.

(** The groups a successful run hands to its continuation. *)
Lemma run_hands fl g r :
  forall st k res,
    run fl r st k = Some res ->
    hands (ngroups r) g (always_sets g r) st k res.
Proof.
  induction r as [ |c| |neg items|r1 IH1 r2 IH2|r1 IH1 r2 IH2
                  |r1 IH1 lo hi greedy|n r1 IH1|neg r1 IH1| | |neg];
    intros st k res; simpl.
  - apply hands_here.
  - apply hands_step_char.
  - apply hands_step_char.
  - apply hands_step_char.
  - intros H. apply IH1 in H. destruct H as (st1 & H & G1).
    apply IH2 in H. destruct H as (st2 & H & G2).
    exists st2. split; [exact H|]. eapply grows_trans; eauto.
  - unfold orelse. destruct (run fl r1 st k) eqn:E.
    + intros H. inversion H; subst. apply IH1 in E.
      destruct E as (st1 & H1 & G1). exists st1. split; [exact H1|].
      eapply grows_weaken; [| |exact G1]; [lia|].
      intros M. apply andb_true_iff in M. tauto.
    + intros H. apply IH2 in H.
      destruct H as (st1 & H1 & G1). exists st1. split; [exact H1|].
      eapply grows_weaken; [| |exact G1]; [lia|].
      intros M. apply andb_true_iff in M. tauto.
  - intros H.
    apply (rep_loop_hands _ (ngroups r1) g (always_sets g r1)) in H;
      [|exact IH1].
    destruct H as (st1 & H1 & G1). exists st1. split; [exact H1|].
    eapply grows_weaken; [reflexivity| |exact G1].
    intros M. apply andb_true_iff in M as [M1 M2]. rewrite M1, M2. reflexivity.
  - intros H. apply IH1 in H. destruct H as (st1 & H & G1).
    eexists. split; [exact H|].
    eapply grows_weaken;
      [| |eapply grows_trans; [exact G1 | apply (grows_set_cap n g)]].
    + lia.
    + intros M. apply orb_true_iff in M. apply orb_true_iff. tauto.
  - destruct (run fl r1 st Some); destruct neg; try discriminate;
      apply hands_here.
  - destruct (pos st =? 0)%nat; [apply hands_here | discriminate].
  - destruct (at_eol st); [apply hands_here | discriminate].
  - destruct (xorb neg (at_boundary st)); [apply hands_here | discriminate].
Qed.

(** [well_grouped r g m]: the groups of the match [m] are numbered at
    most [ngroups r], and group [g] is among them when [r] always
    closes it. *)
Definition well_grouped (r : regex) (g : nat) (m : rmatch) : Prop :=
  Forall (fun c => (fst c <= ngroups r)%nat) (caps (m_final m))
  /\ (always_sets g r = true -> is_Some (lookup_cap g (caps (m_final m)))).

Lemma match_here_grouped fl r g adv p pv s m :
  match_here fl r adv (start_state p pv s) = Some m -> well_grouped r g m.
Proof.
  unfold match_here.
  destruct (run fl r _ _) as [st1|] eqn:E; [|discriminate].
  intros H. inversion H; subst; clear H.
  apply (run_hands fl g) in E. destruct E as (st2 & H & new & E & F & M).
  destruct (adv && _); [discriminate|]. inversion H; subst; clear H.
  simpl in E. rewrite List.app_nil_r in E. unfold well_grouped. simpl.
  rewrite E. auto.
Qed.

Lemma scan_grouped fl r g s :
  forall adv p pv m,
    scan fl r adv p pv s = Some m -> well_grouped r g m.
Proof.
  induction s as [|c s IH]; intros adv p pv m; simpl;
    destruct (match_here fl r adv (start_state p pv _)) eqn:E;
    intros H; try discriminate.
  - inversion H; subst. eapply match_here_grouped; eauto.
  - inversion H; subst. eapply match_here_grouped; eauto.
  - eapply IH; eauto.
Qed.

Lemma finditer_from_grouped fl r g fuel :
  forall adv p pv s,
    Forall (well_grouped r g) (finditer_from fuel fl r adv p pv s).
Proof.
  induction fuel as [|f IH]; intros adv p pv s; simpl; [constructor|].
  destruct (scan fl r adv p pv s) eqn:E; [|constructor].
  constructor; [eapply scan_grouped; eauto | apply IH].
Qed.

Lemma finditer_grouped fl r g text :
  Forall (well_grouped r g) (finditer fl r text).
Proof. apply finditer_from_grouped. Qed.

Lemma search_grouped fl r g text m :
  re_search fl r text = Some m -> well_grouped r g m.
Proof. apply scan_grouped. Qed.

(** [m.group(g)] is not [None] when the pattern always closes [g]. *)
Lemma group_is_Some r g text m :
  well_grouped r g m -> always_sets g r = true -> is_Some (group text m g).
Proof.
  intros [_ H] A. unfold group. destruct (H A) as [[a b] E]. rewrite E. eauto.
Qed.

End ReFacts.

(* ===================================================================== *)
(** * Facts about matching: the fuel is never used up *)
(* ===================================================================== *)

Module ReFuel.

Import Py Re.

(** [further st st1]: [st1] lies at or after [st] in the same text. *)
Definition further (st st1 : mstate) : Prop :=
  (pos st <= pos st1)%nat
  /\ (pos st1 + List.length (rest st1) = pos st + List.length (rest st))%nat.

Lemma further_refl st : further st st.
Proof. split; lia. Qed.

Lemma further_trans st st1 st2 :
  further st st1 -> further st1 st2 -> further st st2.
Proof. intros [H1 H2] [H3 H4]. split; lia. Qed.

Lemma further_advance st x r : rest st = x :: r -> further st (advance st x r).
Proof. intros E. split; cbn [pos rest advance]; [lia|]. rewrite E. cbn. lia. Qed.

Lemma further_set_cap st n a b : further st (set_cap n a b st).
Proof. split; cbn [pos rest set_cap]; lia. Qed.

(** [agree st k1 k2]: the continuations [k1] and [k2] cannot be told
    apart from [st] on. *)
Definition agree (st : mstate) (k1 k2 : mstate -> option mstate) : Prop :=
  forall st1, further st st1 -> k1 st1 = k2 st1.

Lemma agree_further st st1 k1 k2 :
  agree st k1 k2 -> further st st1 -> agree st1 k1 k2.
Proof. intros H F st2 F2. apply H. eapply further_trans; eauto. Qed.

Lemma step_char_agree p st k1 k2 :
  agree st k1 k2 -> step_char p st k1 = step_char p st k2.
Proof.
  intros H. unfold step_char. destruct (rest st) as [|x r] eqn:E; [reflexivity|].
  destruct (p x); [|reflexivity]. apply H. apply further_advance. exact E.
Qed.

Section Repetition.

Variable body : mstate -> (mstate -> option mstate) -> option mstate.
Hypothesis body_agree :
  forall st k1 k2, agree st k1 k2 -> body st k1 = body st k2.
Variables (lo : nat) (hi : option nat) (greedy : bool).

Lemma rep_loop_agree k1 k2 fuel :
  forall i st0,
    agree st0 k1 k2 ->
    rep_loop body lo hi greedy k1 fuel i st0
    = rep_loop body lo hi greedy k2 fuel i st0.
Proof using body_agree.
  induction fuel as [|f IH]; intros i st0 H; [reflexivity|].
  cbn [rep_loop].
  rewrite (H st0 (further_refl st0)).
  rewrite (body_agree st0
             (fun st1 => if (i <? lo)%nat || (pos st0 <? pos st1)%nat
                         then rep_loop body lo hi greedy k1 f (S i) st1
                         else None)
             (fun st1 => if (i <? lo)%nat || (pos st0 <? pos st1)%nat
                         then rep_loop body lo hi greedy k2 f (S i) st1
                         else None)); [reflexivity|].
  intros st1 F. destruct (_ || _); [|reflexivity].
  apply IH. eapply agree_further; eauto.
Qed.

(** Any fuel above [lo - i + length (rest st0)] gives the same
    result. *)
Lemma rep_loop_fuel k f1 :
  forall f2 i st0,
    (lo - i + List.length (rest st0) < f1)%nat ->
    (lo - i + List.length (rest st0) < f2)%nat ->
    rep_loop body lo hi greedy k f1 i st0
    = rep_loop body lo hi greedy k f2 i st0.
Proof using body_agree.
  induction f1 as [|f1 IH]; intros f2 i st0 H1 H2; [lia|].
  destruct f2 as [|f2]; [lia|].
  cbn [rep_loop].
  rewrite (body_agree st0
             (fun st1 => if (i <? lo)%nat || (pos st0 <? pos st1)%nat
                         then rep_loop body lo hi greedy k f1 (S i) st1
                         else None)
             (fun st1 => if (i <? lo)%nat || (pos st0 <? pos st1)%nat
                         then rep_loop body lo hi greedy k f2 (S i) st1
                         else None)); [reflexivity|].
  intros st1 [F1 F2]. destruct (_ || _) eqn:E; [|reflexivity].
  apply orb_true_iff in E.
  apply IH.
  - destruct E as [E|E]; [apply Nat.ltb_lt in E | apply Nat.ltb_lt in E]; lia.
  - destruct E as [E|E]; [apply Nat.ltb_lt in E | apply Nat.ltb_lt in E]; lia.
Qed.

End Repetition.

(** A run depends on its continuation only through the states at or
    after its start. *)
Lemma run_agree fl r :
  forall st k1 k2, agree st k1 k2 -> run fl r st k1 = run fl r st k2.
Proof.
  induction r as [ |c| |neg items|r1 IH1 r2 IH2|r1 IH1 r2 IH2
                  |r1 IH1 lo hi greedy|n r1 IH1|neg r1 IH1| | |neg];
    intros st k1 k2 H; cbn [run];
    try (apply step_char_agree; exact H);
    try (rewrite (H st (further_refl st)); reflexivity).
  - apply IH1. intros st1 F. apply IH2. eapply agree_further; eauto.
  - rewrite (IH1 st k1 k2 H), (IH2 st k1 k2 H). reflexivity.
  - apply rep_loop_agree; assumption.
  - apply IH1. intros st1 F. apply H.
    eapply further_trans; [exact F | apply further_set_cap].
Qed.

(** The repetitions of [run] are those of [rep_loop] with any greater
    fuel: the fuel is never used up. *)
Lemma repeat_fuel_enough fl r lo hi greedy st k extra :
  run fl (Repeat r lo hi greedy) st k
  = rep_loop (run fl r) lo hi greedy k
      (lo + S (List.length (rest st)) + extra) O st.
Proof.
  cbn [run]. apply rep_loop_fuel; [apply run_agree | lia | lia].
Qed.

(** ** Successive matches *)

Lemma rep_loop_further body lo hi greedy k :
  (forall st k' res, body st k' = Some res ->
     exists st1, k' st1 = Some res /\ further st st1) ->
  forall fuel i st0 res,
    rep_loop body lo hi greedy k fuel i st0 = Some res ->
    exists st1, k st1 = Some res /\ further st0 st1.
Proof.
  intros Hbody. induction fuel as [|f IH]; intros i st0 res; [discriminate|].
  cbn [rep_loop].
  assert (Hagain :
    (if below i hi then
       body st0 (fun st1 =>
         if (i <? lo)%nat || (pos st0 <? pos st1)%nat
         then rep_loop body lo hi greedy k f (S i) st1 else None)
     else None) = Some res ->
    exists st1, k st1 = Some res /\ further st0 st1).
  { destruct (below i hi); [|discriminate]. intros H.
    apply Hbody in H as (st1 & H & F1).
    destruct (_ || _); [|discriminate].
    apply IH in H as (st2 & H & F2).
    exists st2. split; [exact H | eapply further_trans; eauto]. }
  assert (Hleave :
    (if (lo <=? i)%nat then k st0 else None) = Some res ->
    exists st1, k st1 = Some res /\ further st0 st1).
  { destruct (lo <=? i)%nat; [|discriminate]. intros H.
    exists st0. split; [exact H | apply further_refl]. }
  destruct greedy; unfold orelse.
  - destruct (if below i hi then _ else None) eqn:E.
    + intros [= <-]. auto.
    + auto.
  - destruct (if (lo <=? i)%nat then _ else None) eqn:E.
    + intros [= <-]. auto.
    + auto.
Qed.

(** A successful run hands its continuation a state at or after its
    start. *)
Lemma run_further fl r :
  forall st k res,
    run fl r st k = Some res ->
    exists st1, k st1 = Some res /\ further st st1.
Proof.
  assert (Here : forall st (k : mstate -> option mstate) res,
            k st = Some res -> exists st1, k st1 = Some res /\ further st st1)
    by (intros st k res H; exists st; split; [exact H | apply further_refl]).
  assert (Hchar : forall p st k res,
            step_char p st k = Some res ->
            exists st1, k st1 = Some res /\ further st st1).
  { intros p st k res. unfold step_char.
    destruct (rest st) as [|x s] eqn:E; [discriminate|].
    destruct (p x); [|discriminate]. intros H.
    eexists. split; [exact H | apply further_advance; exact E]. }
  induction r as [ |c| |neg items|r1 IH1 r2 IH2|r1 IH1 r2 IH2
                  |r1 IH1 lo hi greedy|n r1 IH1|neg r1 IH1| | |neg];
    intros st k res; cbn [run]; try (apply Hchar); try (apply Here).
  - intros H. apply IH1 in H as (st1 & H & F1).
    apply IH2 in H as (st2 & H & F2).
    exists st2. split; [exact H | eapply further_trans; eauto].
  - unfold orelse. destruct (run fl r1 st k) eqn:E.
    + intros [= <-]. apply IH1. exact E.
    + apply IH2.
  - apply rep_loop_further. exact IH1.
  - intros H. apply IH1 in H as (st1 & H & F1).
    eexists. split; [exact H|].
    eapply further_trans; [exact F1 | apply further_set_cap].
  - destruct (run fl r1 st Some); destruct neg; try discriminate; apply Here.
  - destruct (pos st =? 0)%nat; [apply Here | discriminate].
  - destruct (at_eol st); [apply Here | discriminate].
  - destruct (xorb neg (at_boundary st)); [apply Here | discriminate].
Qed.

Lemma match_here_further fl r adv st m :
  match_here fl r adv st = Some m ->
  m_start m = pos st
  /\ further st (m_final m)
  /\ (adv = true -> m_end m <> pos st).
Proof.
  unfold match_here.
  destruct (run fl r st _) as [st1|] eqn:E; [|discriminate].
  intros [= <-]. cbn [m_start m_final]. unfold m_end. cbn [m_final].
  apply run_further in E as (st2 & H & F).
  destruct (adv && (pos st2 =? pos st)%nat) eqn:A; [discriminate|].
  injection H as <-. split; [reflexivity|]. split; [exact F|].
  intros ->. cbn [andb] in A. apply Nat.eqb_neq in A. exact A.
Qed.

(** Where a scan from position [p] over [s] finds its match. *)
Lemma scan_further fl r s :
  forall adv p pv m,
    scan fl r adv p pv s = Some m ->
    (p <= m_start m <= m_end m)%nat
    /\ (m_end m + List.length (rest (m_final m)) = p + List.length s)%nat
    /\ (adv = true -> m_start m = p -> m_end m <> p).
Proof.
  induction s as [|c s IH]; intros adv p pv m; cbn [scan];
    destruct (match_here fl r adv (start_state p pv _)) as [m0|] eqn:E;
    try discriminate.
  - intros [= <-]. apply match_here_further in E as (E1 & [E2 E3] & E4).
    unfold m_end in *. cbn [pos rest start_state] in *.
    repeat split; try lia. intros A _. apply E4. exact A.
  - intros [= <-]. apply match_here_further in E as (E1 & [E2 E3] & E4).
    unfold m_end in *. cbn [pos rest start_state] in *.
    repeat split; try lia. intros A _. apply E4. exact A.
  - intros H. apply IH in H as ([H1 H2] & H3 & _).
    cbn [List.length]. repeat split; lia.
Qed.

(** Any fuel above twice the length of the text still to scan (plus
    one unless an empty match has just been found) gives the same
    matches. *)
Lemma finditer_from_fuel fl r f1 :
  forall f2 adv p pv s,
    (2 * List.length s + (if adv : bool then 0 else 1) < f1)%nat ->
    (2 * List.length s + (if adv : bool then 0 else 1) < f2)%nat ->
    finditer_from f1 fl r adv p pv s = finditer_from f2 fl r adv p pv s.
Proof.
  induction f1 as [|f1 IH]; intros f2 adv p pv s H1 H2; [lia|].
  destruct f2 as [|f2]; [lia|].
  cbn [finditer_from].
  destruct (scan fl r adv p pv s) as [m|] eqn:E; [|reflexivity].
  f_equal. apply scan_further in E as ([E1 E2] & E3 & E4).
  unfold m_end in *.
  destruct (pos (m_final m) =? m_start m)%nat eqn:A.
  - apply Nat.eqb_eq in A.
    destruct adv.
    + assert (m_start m <> p) by (intros Hp; apply (E4 eq_refl Hp); lia).
      apply IH; lia.
    + apply IH; lia.
  - apply Nat.eqb_neq in A. apply IH; destruct adv; lia.
Qed.

(** The matches of [finditer] are those of [finditer_from] with any
    greater fuel: the fuel is never used up. *)
Lemma finditer_fuel_enough fl r text extra :
  finditer fl r text
  = finditer_from (2 * List.length text + 2 + extra) fl r false O None text.
Proof. unfold finditer. apply finditer_from_fuel; lia. Qed.

End ReFuel.

(* ===================================================================== *)
(** * The pattern literals *)
(* ===================================================================== *)

Module PatternFacts.

Import Py Re ReSyntax.

(** The pattern literals of the five modules, tables first. *)
Definition pattern_literals : list str :=
  List.concat (List.map snd layout_analyzer.SECTION_PATTERNS)
  ++ [ u "^[\d.]+\s*"; u "^[ivxlcdm]+[.\s]+"; u "^[a-z][.\s]+";
       u "^\d+(\.\d+)*\.?\s+\S"; u "^[IVXLCDM]+\.\s+\S";
       u "^\d+(\.\d+)*\.?\s+"; u "[\u4e00-\u9fff]";
       layout_analyzer.abstract_pattern ]
  ++ [ u "\n\s*(?:\[(\d+)\]|(\d+)\.\s)"; u "\b(19|20)\d{2}\b";
       u "(10\.\d{4,}/[^\s]+)"; reference_parser.title_pattern;
       u "\.\s+"; u "\s+and\s+|,\s*|\s*&\s*" ]
  ++ [ u "(Table\s+\d+[.:]\s*.{5,200}?)(?:\n|$)";
       u "(表\s*\d+[.:：]\s*.{5,200}?)(?:\n|$)";
       u "(TABLE\s+\d+[.:]\s*.{5,200}?)(?:\n|$)";
       u "^Table\s+\d+[.:]?\s*"; u "^TABLE\s+\d+[.:]?\s*";
       u "^Tab\.?\s+\d+[.:]?\s*"; u "^表\s*\d+[.:：]?\s*" ]
  ++ entity_recognizer.DATASET_PATTERNS
  ++ entity_recognizer.METRIC_PATTERNS
  ++ entity_recognizer.METHOD_PATTERNS
  ++ entity_recognizer.TOOL_PATTERNS
  ++ entity_recognizer.THEORY_PATTERNS
  ++ entity_recognizer.problem_patterns
  ++ entity_recognizer.baseline_patterns
  ++ [ u "\b([A-Z][\w-]*(?:\s+[A-Z][\w-]*)*)\s+(?:dataset|benchmark|corpus|corpora)\b";
       u ",\s*|\s+and\s+" ].

Definition parses (p : str) : bool :=
  match parse p with Some _ => true | None => false end.

(** Every pattern literal compiles: [rx] never falls back on the
    pattern that matches nothing. *)
Lemma pattern_literals_parse :
  List.forallb parses pattern_literals = true.
Proof. vm_compute. reflexivity. Qed.

(** The relation templates compile once the texts of two entities are
    put in; here for the entities of the example. *)
Lemma relation_templates_parse :
  List.forallb
    (fun template =>
       parses (replace (u "{tgt}") (escape (u "glue"))
                 (replace (u "{src}") (escape (u "bert")) template)))
    (List.concat (List.map snd relation_extractor.RELATION_INDICATORS))
  = true.
Proof. vm_compute. reflexivity. Qed.

End PatternFacts.

(* ===================================================================== *)
(** * Facts about strings *)
(* ===================================================================== *)

Module PyFacts.

Import Py.

(** Number of characters of [s] satisfying [p]. *)
Definition count_if (p : N -> bool) (s : str) : nat :=
  List.length (List.filter p s).

Lemma lstrip_by_length p s : (List.length (lstrip_by p s) <= List.length s)%nat.
Proof. induction s as [|c s IH]; simpl; [lia|]. destruct (p c); simpl; lia. Qed.

Lemma rstrip_by_length p s : (List.length (rstrip_by p s) <= List.length s)%nat.
Proof.
  unfold rstrip_by. rewrite List.length_rev.
  etransitivity; [apply lstrip_by_length|]. rewrite List.length_rev. lia.
Qed.

Lemma strip_length s : (List.length (strip s) <= List.length s)%nat.
Proof.
  unfold strip. etransitivity; [apply rstrip_by_length | apply lstrip_by_length].
Qed.

(** Stripping removes none of the characters [q] that are not
    stripped. *)
Lemma filter_lstrip_by p q s :
  (forall c, p c = true -> q c = false) ->
  List.filter q (lstrip_by p s) = List.filter q s.
Proof.
  intros H. induction s as [|c s IH]; simpl; [reflexivity|].
  destruct (p c) eqn:E; [|reflexivity]. rewrite (H c E). exact IH.
Qed.

Lemma filter_rev {A} (q : A -> bool) (l : list A) :
  List.filter q (List.rev l) = List.rev (List.filter q l).
Proof.
  induction l as [|x l IH]; simpl; [reflexivity|].
  rewrite List.filter_app, IH. simpl.
  destruct (q x); simpl; [reflexivity | apply List.app_nil_r].
Qed.

Lemma filter_rstrip_by p q s :
  (forall c, p c = true -> q c = false) ->
  List.filter q (rstrip_by p s) = List.filter q s.
Proof.
  intros H. unfold rstrip_by.
  rewrite filter_rev, (filter_lstrip_by p q _ H), filter_rev.
  apply List.rev_involutive.
Qed.

Lemma count_if_strip q s :
  (forall c, is_space c = true -> q c = false) ->
  count_if q (strip s) = count_if q s.
Proof.
  intros H. unfold count_if, strip.
  rewrite (filter_rstrip_by _ _ _ H), (filter_lstrip_by _ _ _ H). reflexivity.
Qed.

Lemma count_if_le q s : (count_if q s <= List.length s)%nat.
Proof. apply List.filter_length_le. Qed.

Lemma space_not_cjk c : is_space c = true -> is_cjk c = false.
Proof.
  unfold is_space, is_cjk, in_range. intros H.
  apply andb_false_iff. left. apply N.leb_gt.
  repeat (apply orb_true_iff in H as [H|H]);
    repeat match goal with
    | H : (_ && _) = true |- _ => apply andb_true_iff in H as [? ?]
    | H : (_ <=? _)%N = true |- _ => apply N.leb_le in H
    | H : (_ =? _)%N = true |- _ => apply N.eqb_eq in H
    end; lia.
Qed.

End PyFacts.

(* ===================================================================== *)
(** * Language detection *)
(* ===================================================================== *)

Module LanguageFacts.

Import Py Re ReSyntax PyFacts layout_analyzer.

(** The pattern of [detect_language] as parsed. *)
Lemma cjk_pattern :
  rx (u "[\u4e00-\u9fff]") = Class false [CRange 0x4E00 0x9FFF].
Proof. vm_compute. reflexivity. Qed.

Lemma cjk_class_matches c :
  class_matches no_flags false [CRange 0x4E00 0x9FFF] c = is_cjk c.
Proof.
  unfold class_matches, item_matches, range_matches, is_cjk. simpl.
  destruct (in_range _ _ c); reflexivity.
Qed.

Lemma match_here_class fl neg items adv p pv s :
  match_here fl (Class neg items) adv (start_state p pv s) =
    match s with
    | x :: r =>
        if class_matches fl neg items x
        then Some {| m_start := p;
                     m_final := advance (start_state p pv s) x r |}
        else None
    | [] => None
    end.
Proof.
  unfold match_here. cbn [run]. unfold step_char. cbn [rest start_state].
  destruct s as [|x r]; [reflexivity|].
  destruct (class_matches fl neg items x); [|reflexivity].
  cbn [pos advance start_state].
  replace (S p =? p)%nat with false by (symmetry; apply Nat.eqb_neq; lia).
  rewrite andb_false_r. reflexivity.
Qed.

(** Scanning for one character of a class: the first such character,
    if any. *)
Lemma scan_class fl neg items s :
  forall adv p pv,
    match scan fl (Class neg items) adv p pv s with
    | None => List.filter (class_matches fl neg items) s = []
    | Some m =>
        exists pre x,
          s = pre ++ x :: rest (m_final m)
          /\ List.filter (class_matches fl neg items) pre = []
          /\ class_matches fl neg items x = true
    end.
Proof.
  induction s as [|c s IH]; intros adv p pv.
  - cbn [scan]. rewrite match_here_class. reflexivity.
  - cbn [scan]. rewrite match_here_class.
    destruct (class_matches fl neg items c) eqn:E.
    + exists [], c. cbn. auto.
    + specialize (IH false (S p) (Some c)).
      destruct (scan fl (Class neg items) false (S p) (Some c) s) as [m|].
      * destruct IH as (pre & x & E1 & E2 & E3).
        exists (c :: pre), x. cbn [List.filter]. rewrite E. repeat split; auto.
        rewrite E1 at 1. reflexivity.
      * cbn [List.filter]. rewrite E. exact IH.
Qed.

Lemma finditer_from_class fl neg items fuel :
  forall adv p pv s,
    (List.length s < fuel)%nat ->
    List.length (finditer_from fuel fl (Class neg items) adv p pv s)
    = count_if (class_matches fl neg items) s.
Proof.
  induction fuel as [|f IH]; intros adv p pv s Hf; [lia|].
  simpl. pose proof (scan_class fl neg items s adv p pv) as H.
  destruct (scan fl (Class neg items) adv p pv s) as [m|].
  - destruct H as (pre & x & E1 & E2 & E3).
    cbn [List.length]. rewrite IH.
    + unfold count_if.
      replace (List.filter (class_matches fl neg items) s)
        with (List.filter (class_matches fl neg items)
                (pre ++ x :: rest (m_final m))) by (rewrite <- E1; reflexivity).
      rewrite List.filter_app, E2. cbn [List.filter app]. rewrite E3.
      reflexivity.
    + rewrite E1 in Hf. rewrite List.length_app in Hf. simpl in Hf. lia.
  - unfold count_if. rewrite H. reflexivity.
Qed.

(** [len(re.findall(r"[\u4e00-\u9fff]", text))] is the number of CJK
    characters of [text]. *)
Lemma findall_cjk text :
  len (finditer no_flags (rx (u "[\u4e00-\u9fff]")) text) = count_if is_cjk text.
Proof.
  rewrite cjk_pattern. unfold finditer, len.
  rewrite finditer_from_class by lia.
  unfold count_if. f_equal. apply List.filter_ext. apply cjk_class_matches.
Qed.

Lemma Qltb_lt x y : Qltb x y = true <-> (x < y)%Q.
Proof.
  unfold Qltb. rewrite negb_true_iff. split.
  - intros H. apply Qnot_le_lt. intros L. apply Qle_bool_iff in L. congruence.
  - intros H. destruct (Qle_bool y x) eqn:E; [|reflexivity].
    apply Qle_bool_iff in E. exfalso. eapply Qlt_not_le; eauto.
Qed.

Lemma ratio_above c t :
  (0 < t)%nat ->
  Qltb (3 # 10) (inject_Z (Z.of_nat c) / inject_Z (Z.of_nat t)) = true
  <-> (3 * t < 10 * c)%nat.
Proof.
  intros Ht. rewrite Qltb_lt.
  destruct t as [|t']; [lia|].
  assert (E : Z.of_nat (S t') = Z.pos (Pos.of_succ_nat t')) by reflexivity.
  rewrite E. unfold Qlt, Qdiv, Qmult, Qinv, inject_Z. cbn [Qnum Qden].
  rewrite Pos.mul_1_l, Z.mul_1_r.
  pose proof (SuccNat2Pos.id_succ t'). lia.
Qed.

Lemma zh_not_en : u "zh" <> u "en".
Proof. vm_compute. discriminate. Qed.

(** What [detect_language] computes, in terms of the two counts. *)
Lemma detect_language_unfold text :
  detect_language text =
    if bool_decide (3 * len (strip text) < 10 * count_if is_cjk text)%nat
    then u "zh" else u "en".
Proof.
  unfold detect_language. rewrite findall_cjk.
  assert (Hc : (count_if is_cjk text <= len (strip text))%nat).
  { rewrite <- (count_if_strip is_cjk text space_not_cjk). apply count_if_le. }
  destruct (len (strip text) =? 0)%nat eqn:E.
  - apply Nat.eqb_eq in E. rewrite bool_decide_eq_false_2 by lia. reflexivity.
  - apply Nat.eqb_neq in E.
    destruct (Qltb _ _) eqn:R.
    + apply ratio_above in R; [|lia]. rewrite bool_decide_eq_true_2 by lia.
      reflexivity.
    + rewrite bool_decide_eq_false_2; [reflexivity|].
      intros L. apply ratio_above in L; [|lia]. congruence.
Qed.

End LanguageFacts.

(* ===================================================================== *)
(** * Layout analysis: the section list *)
(* ===================================================================== *)

Module LayoutFacts.

Import Py Re ReSyntax ReFacts PyFacts LanguageFacts pymupdf_parser layout_analyzer.

Lemma abstract_pattern_sets_group :
  always_sets 1 (rx abstract_pattern) = true.
Proof. vm_compute. reflexivity. Qed.

Lemma insert_abstract_length sections s :
  len (insert_abstract sections s) = S (len sections).
Proof.
  unfold insert_abstract. destruct sections as [|s0 others]; [reflexivity|].
  destruct (has_type (u "title") s0); reflexivity.
Qed.

(** Abstract recovery does not raise, and drops no section. *)
Lemma recover_abstract_total sections full_text :
  exists sections',
    recover_abstract sections full_text = Some sections'
    /\ (len sections <= len sections')%nat.
Proof.
  unfold recover_abstract.
  destruct (negb _); [|eauto].
  destruct (re_search IS_flags (rx abstract_pattern) full_text) as [m|] eqn:E;
    [|eauto].
  apply (search_grouped _ _ 1) in E.
  destruct (group_is_Some _ _ full_text _ E abstract_pattern_sets_group)
    as [g1 Hg].
  rewrite Hg. cbn [mbind option_bind].
  destruct (50 <? len (strip g1))%nat; [|eauto].
  eexists. split; [reflexivity|]. rewrite insert_abstract_length. lia.
Qed.

Lemma full_text_section_nonempty sections full_text page_count :
  full_text_section sections full_text page_count <> [].
Proof.
  unfold full_text_section.
  destruct (len sections <=? 1)%nat eqn:E.
  - destruct sections; discriminate.
  - apply Nat.leb_gt in E. destruct sections; [simpl in E; lia | discriminate].
Qed.

End LayoutFacts.

Import Py Re ReSyntax ReFacts PyFacts LanguageFacts LayoutFacts.

(** C1 (amended). For every parsed document with at least one page,
    [analyze_layout] returns, without raising, a section list that is
    not empty. *)
Theorem analyze_layout_nonempty (doc : pymupdf_parser.ParsedDocument) :
  pymupdf_parser.pages doc <> [] ->
  exists sections language,
    layout_analyzer.analyze_layout doc = Some (sections, language)
    /\ sections <> [].
Proof.
  intros Hp. unfold layout_analyzer.analyze_layout.
  destruct (pymupdf_parser.pages doc) as [|first_page others] eqn:E;
    [contradiction|].
  destruct (layout_analyzer.find_heading_font_size doc)
    as [body_size heading_size].
  cbv zeta.
  match goal with
  | |- context [layout_analyzer.recover_abstract ?s ?t] =>
      destruct (recover_abstract_total s t) as (s' & Hs & _); rewrite Hs
  end.
  cbn [mbind option_bind].
  eexists _, _. split; [reflexivity|]. apply full_text_section_nonempty.
Qed.

(** A document of one page without text blocks. *)
Definition one_page_doc : pymupdf_parser.ParsedDocument :=
  {| pymupdf_parser.pages :=
       [ {| pymupdf_parser.pp_page_num := 0;
            pymupdf_parser.width := 612;
            pymupdf_parser.height := 792;
            pymupdf_parser.blocks := [];
            pymupdf_parser.raw_text := u "Hello" |} ];
     pymupdf_parser.page_count := 1;
     pymupdf_parser.metadata := [] |}.

Lemma analyze_layout_nonempty_witness :
  pymupdf_parser.pages one_page_doc <> []
  /\ exists sections language,
       layout_analyzer.analyze_layout one_page_doc = Some (sections, language)
       /\ sections <> [].
Proof.
  split; [discriminate|].
  apply (analyze_layout_nonempty one_page_doc). discriminate.
Defined.

(** The document without pages. *)
Definition zero_page_doc : pymupdf_parser.ParsedDocument :=
  {| pymupdf_parser.pages := [];
     pymupdf_parser.page_count := 0;
     pymupdf_parser.metadata := [] |}.

(** C1 (as stated) fails on the document without pages: the guard at
    the head of [analyze_layout] returns the empty list. *)
Lemma analyze_layout_zero_pages :
  layout_analyzer.analyze_layout zero_page_doc = Some ([], u "en")
  /\ ~ (exists sections language,
          layout_analyzer.analyze_layout zero_page_doc
          = Some (sections, language)
          /\ sections <> []).
Proof.
  split; [reflexivity|].
  intros (sections & language & H & Hne).
  cbv [layout_analyzer.analyze_layout zero_page_doc pymupdf_parser.pages] in H.
  inversion H; subst. apply Hne. reflexivity.
Qed.

(** C2 (amended). [detect_language] answers "zh" exactly when the
    number of CJK characters exceeds three tenths of the length of the
    text stripped of leading and trailing white space (white space
    inside the text counts), and "en" otherwise; a text more than 30%
    of whose characters are CJK yields "zh", the empty text "en". *)
Theorem detect_language_ratio (text : str) :
  (layout_analyzer.detect_language text = u "zh"
   <-> (3 * len (strip text) < 10 * count_if is_cjk text)%nat)
  /\ (layout_analyzer.detect_language text <> u "zh"
      -> layout_analyzer.detect_language text = u "en")
  /\ ((3 * len text < 10 * count_if is_cjk text)%nat
      -> layout_analyzer.detect_language text = u "zh")
  /\ layout_analyzer.detect_language [] = u "en".
Proof.
  rewrite detect_language_unfold.
  split; [split|]; [| |split; [|split]].
  - intros H. destruct (bool_decide _) eqn:E.
    + apply bool_decide_eq_true in E. exact E.
    + exfalso. apply zh_not_en. symmetry. exact H.
  - intros H. rewrite bool_decide_eq_true_2 by exact H. reflexivity.
  - intros H. destruct (bool_decide _); [contradiction | reflexivity].
  - intros H. rewrite bool_decide_eq_true_2; [reflexivity|].
    pose proof (strip_length text). unfold len in *. lia.
  - reflexivity.
Qed.

Lemma detect_language_ratio_witness :
  (3 * len (u "中文 ab") < 10 * count_if is_cjk (u "中文 ab"))%nat
  /\ layout_analyzer.detect_language (u "中文 ab") = u "zh".
Proof.
  split; [vm_compute; lia|].
  apply (proj1 (proj2 (proj2 (detect_language_ratio (u "中文 ab"))))).
  vm_compute; lia.
Defined.

(** C2 (as stated) fails where white space stands inside the text: one
    CJK character among two characters that are not white space is
    more than 30% of them, and the answer is "en". *)
Lemma detect_language_interior_space :
  let text := u "中  a" in
  (3 * count_if (fun c => negb (is_space c)) text
   < 10 * count_if is_cjk text)%nat
  /\ layout_analyzer.detect_language text = u "en"
  /\ layout_analyzer.detect_language text <> u "zh".
Proof.
  cbv zeta. split; [vm_compute; lia|].
  split; [vm_compute; reflexivity | vm_compute; discriminate].
Qed.

(* ===================================================================== *)
(** * Layout analysis: headings of unknown type *)
(* ===================================================================== *)

Module HeadingFacts.

Import Py LanguageFacts pymupdf_parser layout_analyzer.

Lemma Qleb_of_lt x y : (x < y)%Q -> Qleb x y = true.
Proof. intros H. apply Qle_bool_iff. apply Qlt_le_weak. exact H. Qed.

Lemma is_other_other : is_other (u "other") = true.
Proof. reflexivity. Qed.

(** Signal (a) alone decides the heading checks: the later checks are
    skipped once [is_heading] holds. *)
Lemma heading_checks_font body_size heading_size block text :
  Qleb heading_size (font_size block) = true ->
  (len text < 200)%nat ->
  is_bold block || Qltb (body_size + (1 # 2)) (font_size block) = true ->
  heading_checks body_size heading_size block text
  = (true, classify_section text).
Proof.
  intros H1 H2 H3. unfold heading_checks.
  apply Nat.ltb_lt in H2. rewrite H1, H2, H3. reflexivity.
Qed.

End HeadingFacts.

Import HeadingFacts.

(** C3 (amended). A merged fragment with non-blank text of fewer than
    200 characters, of font size strictly greater than [heading_size],
    bold or of font size above [body_size + 0.5], and classified
    [other]: when a section is open, the fragment is appended to its
    content as a line [### <heading>], its last page becomes the page
    of the fragment, and no section is started or saved; when none is
    open, a section of type [other] headed by the fragment is opened. *)
Theorem subsection_marker_appended
    (body_size heading_size : Q) (st : layout_analyzer.layout_state)
    (block : pymupdf_parser.TextBlock) :
  let text := strip (pymupdf_parser.text block) in
  text <> [] ->
  (len text < 200)%nat ->
  (heading_size < pymupdf_parser.font_size block)%Q ->
  (pymupdf_parser.is_bold block = true
   \/ (body_size + (1 # 2) < pymupdf_parser.font_size block)%Q) ->
  layout_analyzer.classify_section text = u "other" ->
  layout_analyzer.layout_step body_size heading_size st block =
    {| layout_analyzer.sections := layout_analyzer.sections st;
       layout_analyzer.current_section :=
         match layout_analyzer.current_section st with
         | Some cur =>
             Some (layout_analyzer.with_content cur
                     (layout_analyzer.content cur
                      ++ [NL] ++ u "### " ++ text ++ [NL])
                     (pymupdf_parser.page_num block))
         | None =>
             Some (layout_analyzer.new_section (u "other") text
                     (pymupdf_parser.page_num block))
         end |}.
Proof.
  intros text Hne Hlen Hsize Hsig Hcls.
  unfold layout_analyzer.layout_step. fold text.
  destruct text as [|c text'] eqn:Et; [contradiction|]. rewrite <- Et in *.
  rewrite heading_checks_font.
  - rewrite Hcls, is_other_other.
    assert (Hs : Qltb heading_size (pymupdf_parser.font_size block) = true)
      by (apply Qltb_lt; exact Hsize).
    rewrite Hs. cbn [negb andb].
    destruct (layout_analyzer.current_section st); reflexivity.
  - apply Qleb_of_lt. exact Hsize.
  - exact Hlen.
  - destruct Hsig as [Hb|Hq]; [rewrite Hb; reflexivity|].
    apply Qltb_lt in Hq. rewrite Hq. apply orb_true_r.
Qed.

(** A bold fragment [Our Novel Idea] of 14 points on page 2, in a
    document of body size 10 and heading size 12, met while a methods
    section is open. *)
Definition marker_block : pymupdf_parser.TextBlock :=
  {| pymupdf_parser.text := u "Our Novel Idea";
     pymupdf_parser.font_size := 14;
     pymupdf_parser.font_name := u "Times-Bold";
     pymupdf_parser.is_bold := true;
     pymupdf_parser.page_num := 2;
     pymupdf_parser.bbox := (72, 100, 200, 114)%Q |}.

Definition methods_open : layout_analyzer.layout_state :=
  {| layout_analyzer.sections := [];
     layout_analyzer.current_section :=
       Some {| layout_analyzer.section_type := u "methods";
               layout_analyzer.heading := u "3 Methods";
               layout_analyzer.content := u "We train a model. ";
               layout_analyzer.page_start := 1;
               layout_analyzer.page_end := 1 |} |}.

Lemma subsection_marker_appended_witness :
  layout_analyzer.current_section
    (layout_analyzer.layout_step 10 12 methods_open marker_block)
  = Some {| layout_analyzer.section_type := u "methods";
            layout_analyzer.heading := u "3 Methods";
            layout_analyzer.content :=
              u "We train a model. " ++ [NL] ++ u "### Our Novel Idea" ++ [NL];
            layout_analyzer.page_start := 1;
            layout_analyzer.page_end := 2 |}.
Proof.
  rewrite (subsection_marker_appended 10 12 methods_open marker_block).
  - vm_compute. reflexivity.
  - vm_compute. discriminate.
  - vm_compute. lia.
  - vm_compute. reflexivity.
  - left. reflexivity.
  - vm_compute. reflexivity.
Defined.

(** The same fragment at exactly the heading size. *)
Definition heading_size_block : pymupdf_parser.TextBlock :=
  {| pymupdf_parser.text := u "Our Novel Idea";
     pymupdf_parser.font_size := 12;
     pymupdf_parser.font_name := u "Times-Bold";
     pymupdf_parser.is_bold := true;
     pymupdf_parser.page_num := 2;
     pymupdf_parser.bbox := (72, 100, 200, 112)%Q |}.

(** C3 (as stated) fails for a fragment at exactly [heading_size]: it
    fires signal (a), being bold, and is classified [other], yet with a
    section open it is appended as plain text followed by a space, not
    as a [###] line. *)
Lemma heading_size_marker_plain :
  let text := strip (pymupdf_parser.text heading_size_block) in
  Qleb 12 (pymupdf_parser.font_size heading_size_block) = true
  /\ pymupdf_parser.is_bold heading_size_block = true
  /\ layout_analyzer.classify_section text = u "other"
  /\ layout_analyzer.heading_checks 10 12 heading_size_block text
     = (true, u "other")
  /\ layout_analyzer.current_section
       (layout_analyzer.layout_step 10 12 methods_open heading_size_block)
     = Some {| layout_analyzer.section_type := u "methods";
               layout_analyzer.heading := u "3 Methods";
               layout_analyzer.content :=
                 u "We train a model. " ++ u "Our Novel Idea" ++ [SP];
               layout_analyzer.page_start := 1;
               layout_analyzer.page_end := 2 |}
  /\ layout_analyzer.current_section
       (layout_analyzer.layout_step 10 12 methods_open heading_size_block)
     <> Some {| layout_analyzer.section_type := u "methods";
                layout_analyzer.heading := u "3 Methods";
                layout_analyzer.content :=
                  u "We train a model. "
                  ++ [NL] ++ u "### Our Novel Idea" ++ [NL];
                layout_analyzer.page_start := 1;
                layout_analyzer.page_end := 2 |}.
Proof.
  cbv zeta. repeat split; try (vm_compute; reflexivity).
  vm_compute. discriminate.
Qed.

(* ===================================================================== *)
(** * Page numbers of tables and of sections *)
(* ===================================================================== *)

Module PageFacts.

Import Py pymupdf_parser layout_analyzer.

(** ** Tables *)

Lemma table_record_page page_num page_text ti table t :
  table_record page_num page_text ti table = Some (Some t) ->
  page t = (Z.of_nat page_num + 1)%Z.
Proof.
  unfold table_record.
  destruct (extract table) as [extracted|]; [|discriminate].
  cbn [mbind option_bind].
  destruct (len extracted <? 2)%nat; [discriminate|].
  destruct (indices_where _ _ _) as [|i0 is0]; [discriminate|].
  destruct (for_each _ _ _) as [rows|]; [|discriminate].
  cbn [mbind option_bind].
  destruct rows; [discriminate|].
  intros [= <-]. reflexivity.
Qed.

Lemma page_tables_from_page page_num page_text tables :
  forall ti t,
    t ∈ page_tables_from page_num page_text ti tables ->
    page t = (Z.of_nat page_num + 1)%Z.
Proof.
  induction tables as [|table tables IH]; intros ti t Ht.
  - inversion Ht.
  - cbn [page_tables_from] in Ht.
    destruct (table_record page_num page_text ti table) as [[t'|]|] eqn:E;
      try (eapply IH; exact Ht).
    apply elem_of_cons in Ht as [->|Ht]; [|eapply IH; exact Ht].
    eapply table_record_page. exact E.
Qed.

Lemma tables_from_page doc :
  forall n t,
    t ∈ tables_from n doc ->
    exists i p,
      doc !! i = Some p
      /\ t ∈ page_tables_from (n + i) (page_text p) O (page_tables p).
Proof.
  induction doc as [|p doc IH]; intros n t Ht.
  - inversion Ht.
  - cbn [tables_from] in Ht. apply elem_of_app in Ht as [Ht|Ht].
    + exists O, p. split; [reflexivity|]. rewrite Nat.add_0_r. exact Ht.
    + apply IH in Ht as (i & q & Hq & Ht).
      exists (S i), q. split; [exact Hq|].
      replace (n + S i)%nat with (S n + i)%nat by lia. exact Ht.
Qed.

(** ** Sections *)

(** A document as [parse_pdf] builds it: every block carries the index
    of its page, and [page_count] is the number of pages. *)
Definition page_numbered (doc : ParsedDocument) : Prop :=
  page_count doc = Z.of_nat (List.length (pages doc))
  /\ forall i pg b,
       pages doc !! i = Some pg -> b ∈ blocks pg ->
       page_num b = Z.of_nat i.

(** Page indices counted from 0 in a document of [n] pages. *)
Definition zero_based (n : Z) (s : Section) : Prop :=
  (0 <= page_start s <= n - 1 /\ 0 <= page_end s <= n - 1)%Z.

Definition block_in (n : Z) (b : TextBlock) : Prop :=
  (0 <= page_num b <= n - 1)%Z.

Lemma last_Some {A} (l : list A) x :
  List.last (List.map Some l) None = Some x ->
  l = List.removelast l ++ [x].
Proof.
  induction l as [|y l IH]; [discriminate|].
  destruct l as [|z l']; cbn [List.map List.last List.removelast].
  - intros H. inversion H. reflexivity.
  - intros H. cbn [app]. f_equal. apply IH. exact H.
Qed.

Lemma merge_step_in n merged b :
  Forall (block_in n) merged -> block_in n b ->
  Forall (block_in n) (merge_step merged b).
Proof.
  intros Hm Hb. unfold merge_step.
  destruct (List.last (List.map Some merged) None) as [prev|] eqn:E;
    [|apply Forall_app; split; [exact Hm | apply Forall_singleton; exact Hb]].
  apply last_Some in E. pose proof Hm as Hall. rewrite E in Hm.
  apply Forall_app in Hm as [Hr Hp]. apply Forall_cons in Hp as [Hp _].
  destruct (same_line b prev).
  - apply Forall_app. split; [exact Hr|]. apply Forall_singleton. exact Hp.
  - apply Forall_app. split; [exact Hall | apply Forall_singleton; exact Hb].
Qed.

Lemma fold_merge_step_in n blocks :
  forall merged,
    Forall (block_in n) merged -> Forall (block_in n) blocks ->
    Forall (block_in n) (List.fold_left merge_step blocks merged).
Proof.
  induction blocks as [|b blocks IH]; intros merged Hm Hb; [exact Hm|].
  apply Forall_cons in Hb as [Hb Hbs]. cbn [List.fold_left].
  apply IH; [apply merge_step_in; assumption | exact Hbs].
Qed.

Lemma _merge_adjacent_blocks_in n blocks :
  Forall (block_in n) blocks ->
  Forall (block_in n) (_merge_adjacent_blocks blocks).
Proof.
  intros H. unfold _merge_adjacent_blocks.
  destruct blocks as [|b0 others]; [exact H|].
  apply Forall_cons in H as [H0 Ho].
  apply fold_merge_step_in; [apply Forall_singleton; exact H0 | exact Ho].
Qed.

(** The invariant of the two loops. *)
Definition state_ok (P : Section -> Prop) (st : layout_state) : Prop :=
  Forall P (sections st) /\ from_option P True (current_section st).

Lemma save_section_ok P sections cur :
  Forall P sections -> from_option P True cur ->
  Forall P (save_section sections cur).
Proof.
  intros Hs Hc. unfold save_section. destruct cur as [c|]; [|exact Hs].
  destruct (strip (content c)); [exact Hs|].
  apply Forall_app. split; [exact Hs|]. apply Forall_singleton. exact Hc.
Qed.

Lemma layout_step_ok n body_size heading_size st block :
  state_ok (zero_based n) st -> block_in n block ->
  state_ok (zero_based n) (layout_step body_size heading_size st block).
Proof.
  intros [Hs Hc] Hb. unfold layout_step.
  destruct (strip (text block)) as [|c0 t0]; [split; assumption|].
  destruct (heading_checks _ _ _ _) as [is_heading section_type].
  assert (Hnew : forall ty txt, zero_based n (new_section ty txt (page_num block)))
    by (intros; split; exact Hb).
  assert (Hwith : forall cur c, zero_based n cur ->
            zero_based n (with_content cur c (page_num block)))
    by (intros cur c [H1 _]; split; [exact H1 | exact Hb]).
  destruct (is_heading && negb (is_other section_type)).
  { split; cbn [sections current_section from_option];
      [apply save_section_ok; assumption | apply Hnew]. }
  destruct (is_heading && is_other section_type && Qltb _ _).
  { destruct (current_section st) as [cur|];
      split; cbn [sections current_section from_option]; auto. }
  destruct (current_section st) as [cur|] eqn:E.
  - split; cbn [sections current_section from_option]; auto.
  - split; [assumption|]. rewrite E. exact I.
Qed.

Lemma fold_layout_step_ok n body_size heading_size blocks :
  forall st,
    state_ok (zero_based n) st -> Forall (block_in n) blocks ->
    state_ok (zero_based n)
      (List.fold_left (layout_step body_size heading_size) blocks st).
Proof.
  induction blocks as [|b blocks IH]; intros st Hst Hb; [exact Hst|].
  apply Forall_cons in Hb as [Hb Hbs]. cbn [List.fold_left].
  apply IH; [apply layout_step_ok; assumption | exact Hbs].
Qed.

(** The sections of the text fallback lie on page 0. *)
Definition on_page_0 (s : Section) : Prop :=
  page_start s = 0%Z /\ page_end s = 0%Z.

(** The line loop, its heading test abstracted. *)
Lemma text_step_shape st line :
  text_step st line = st
  \/ (exists cur c,
        current_section st = Some cur
        /\ text_step st line
           = {| sections := sections st;
                current_section := Some (with_content cur c (page_end cur)) |})
  \/ (exists ty txt,
        text_step st line
        = {| sections := save_section (sections st) (current_section st);
             current_section := Some (new_section ty txt 0) |}).
Proof.
  unfold text_step.
  destruct (strip line) as [|c0 t0].
  { destruct (current_section st) as [cur|]; [|left; reflexivity].
    right. left. eexists _, _. split; reflexivity. }
  cbv zeta.
  match goal with
  | |- context [if negb (is_other ?ty) && ?b then _ else _] =>
      generalize ty; intros section_type; destruct (negb (is_other section_type) && b)
  end.
  { right. right. eexists _, _. reflexivity. }
  destruct (current_section st) as [cur|]; [|left; reflexivity].
  right. left. eexists _, _. split; reflexivity.
Qed.

Lemma text_step_ok st line :
  state_ok on_page_0 st -> state_ok on_page_0 (text_step st line).
Proof.
  intros [Hs Hc].
  destruct (text_step_shape st line)
    as [E|[(cur & c & Ec & E)|(ty & txt & E)]]; rewrite E.
  - split; assumption.
  - rewrite Ec in Hc. split; [exact Hs|]. exact Hc.
  - split; cbn [sections current_section from_option];
      [apply save_section_ok; assumption | split; reflexivity].
Qed.

Lemma _extract_sections_from_text_ok full_text language :
  Forall on_page_0 (_extract_sections_from_text full_text language).
Proof.
  unfold _extract_sections_from_text.
  assert (H : forall lines st,
            state_ok on_page_0 st ->
            state_ok on_page_0 (List.fold_left text_step lines st)).
  { induction lines as [|l lines IH]; intros st Hst; [exact Hst|].
    cbn [List.fold_left]. apply IH. apply text_step_ok. exact Hst. }
  destruct (H (split_char NL full_text)
              {| sections := []; current_section := None |}) as [Hs Hc].
  { split; [constructor | exact I]. }
  apply save_section_ok; assumption.
Qed.

Lemma on_page_0_zero_based n s : (1 <= n)%Z -> on_page_0 s -> zero_based n s.
Proof. intros Hn [H1 H2]. unfold zero_based. rewrite H1, H2. lia. Qed.

Lemma Forall_filter_keep {A} (P : A -> Prop) f l :
  Forall P l -> Forall P (List.filter f l).
Proof.
  intros H. apply List.Forall_forall. intros x Hx.
  apply List.filter_In in Hx as [Hx _].
  revert x Hx. apply List.Forall_forall. apply Forall_forall.
  intros x Hx. eapply Forall_forall in H; eauto.
Qed.

Lemma text_fallback_ok n sections full_text language :
  (1 <= n)%Z -> Forall (zero_based n) sections ->
  Forall (zero_based n) (text_fallback sections full_text language).
Proof.
  intros Hn Hs. unfold text_fallback.
  destruct (_ <? 2)%nat; [|exact Hs].
  destruct (_ <? _)%nat; [|exact Hs].
  apply Forall_app. split; [apply Forall_filter_keep; exact Hs|].
  eapply Forall_impl; [apply _extract_sections_from_text_ok|].
  intros s. apply on_page_0_zero_based. exact Hn.
Qed.

Lemma recover_abstract_ok n sections full_text sections' :
  (1 <= n)%Z -> Forall (zero_based n) sections ->
  recover_abstract sections full_text = Some sections' ->
  Forall (zero_based n) sections'.
Proof.
  intros Hn Hs. unfold recover_abstract.
  destruct (negb _); [|intros [= <-]; exact Hs].
  destruct (Re.re_search _ _ _) as [m|]; [|intros [= <-]; exact Hs].
  destruct (Re.group full_text m 1) as [g1|]; [|discriminate].
  cbn [mbind option_bind].
  destruct (50 <? _)%nat; intros [= <-]; [|exact Hs].
  assert (Ha : forall c, zero_based n
            {| section_type := u "abstract"; heading := u "Abstract";
               content := c; page_start := 0; page_end := 0 |})
    by (intros c; unfold zero_based; cbn; lia).
  unfold insert_abstract. destruct sections as [|s0 others].
  - apply Forall_singleton. apply Ha.
  - apply Forall_cons in Hs as [H0 Ho].
    destruct (has_type _ s0); repeat (apply Forall_cons; split; auto).
Qed.

Lemma full_text_section_ok n sections full_text :
  (1 <= n)%Z -> Forall (zero_based n) sections ->
  Forall (zero_based n) (full_text_section sections full_text n).
Proof.
  intros Hn Hs. unfold full_text_section.
  destruct (_ <=? 1)%nat; [|exact Hs].
  apply Forall_app. split; [exact Hs|]. apply Forall_singleton.
  unfold zero_based. cbn. lia.
Qed.

Lemma title_section_ok n first_page body_size heading_size :
  (1 <= n)%Z ->
  Forall (zero_based n) (title_section first_page body_size heading_size).
Proof.
  intros Hn. unfold title_section. destruct (Qltb _ _); [|constructor].
  apply Forall_singleton. unfold zero_based. cbn. lia.
Qed.

Lemma page_numbered_blocks doc :
  page_numbered doc ->
  Forall (fun pg => Forall (block_in (page_count doc)) (blocks pg)) (pages doc).
Proof.
  intros [Hc Hb]. apply Forall_forall. intros pg Hpg.
  apply list_elem_of_lookup in Hpg as [i Hi].
  apply Forall_forall. intros b Hbk.
  unfold block_in. rewrite (Hb i pg b Hi Hbk), Hc.
  apply lookup_lt_Some in Hi. lia.
Qed.

Lemma font_sections_ok doc first_page body_size heading_size :
  page_numbered doc -> (1 <= page_count doc)%Z ->
  Forall (zero_based (page_count doc))
    (font_sections doc first_page body_size heading_size).
Proof.
  intros Hd Hn. unfold font_sections.
  match goal with
  | |- context [List.fold_left ?f ?bs ?st0] =>
      assert (H : state_ok (zero_based (page_count doc))
                    (List.fold_left f bs st0))
  end.
  { apply fold_layout_step_ok.
    - split; cbn [sections current_section];
        [apply title_section_ok; exact Hn | exact I].
    - apply page_numbered_blocks in Hd.
      induction Hd as [|pg pgs Hpg _ IH]; [constructor|].
      cbn [List.map List.concat]. apply Forall_app. split; [|exact IH].
      apply _merge_adjacent_blocks_in. exact Hpg. }
  destruct H as [Hs Hc]. apply save_section_ok; assumption.
Qed.

(** In a document numbered as [parse_pdf] numbers it, every section of
    [analyze_layout] lies on pages [0 .. page_count - 1]. *)
Lemma analyze_layout_zero_based doc sections language :
  page_numbered doc ->
  analyze_layout doc = Some (sections, language) ->
  Forall (zero_based (page_count doc)) sections.
Proof.
  intros Hd. unfold analyze_layout.
  destruct (pages doc) as [|first_page others] eqn:E.
  { intros [= <- _]. constructor. }
  assert (Hn : (1 <= page_count doc)%Z).
  { destruct Hd as [Hc _]. rewrite Hc, E. cbn [List.length]. lia. }
  destruct (find_heading_font_size doc) as [body_size heading_size].
  cbv zeta.
  match goal with
  | |- context [recover_abstract ?s ?t] =>
      destruct (recover_abstract s t) as [s'|] eqn:R; [|discriminate];
      apply (recover_abstract_ok (page_count doc)) in R
  end.
  - cbn [mbind option_bind]. intros [= <- _].
    apply full_text_section_ok; assumption.
  - exact Hn.
  - apply text_fallback_ok; [exact Hn|].
    apply font_sections_ok; assumption.
Qed.

End PageFacts.


(** A file of one page holding one table below its caption. *)
Definition one_table_pdf : list pymupdf_parser.FitzPage :=
  [ {| pymupdf_parser.page_text :=
         u "Results" ++ [NL] ++ u "Table 1: Accuracy on GLUE" ++ [NL];
       pymupdf_parser.page_tables :=
         [ {| pymupdf_parser.extract :=
                Some [ [Some (u "Model"); Some (u "Accuracy")];
                       [Some (u "BERT"); Some (u "0.91")] ];
              pymupdf_parser.table_bbox := (72, 200, 300, 260)%Q |} ] |} ].

(** A parsed document of one page: a title line, a bold heading and
    one line of body text. *)
Definition short_paper : pymupdf_parser.ParsedDocument :=
  let block (t : str) (size : Q) (bold : bool) (y : Q) :=
    {| pymupdf_parser.text := t;
       pymupdf_parser.font_size := size;
       pymupdf_parser.font_name := u "Times";
       pymupdf_parser.is_bold := bold;
       pymupdf_parser.page_num := 0;
       pymupdf_parser.bbox := (72, y, 500, y + size)%Q |} in
  {| pymupdf_parser.pages :=
       [ {| pymupdf_parser.pp_page_num := 0;
            pymupdf_parser.width := 612;
            pymupdf_parser.height := 792;
            pymupdf_parser.blocks :=
              [ block (u "A Study of Pretraining") 18%Q true 72%Q;
                block (u "Abstract") 12%Q true 120%Q;
                block (u "We study pretraining of language models.") 10%Q
                  false 140%Q ];
            pymupdf_parser.raw_text :=
              u "A Study of Pretraining" ++ [NL] ++ u "Abstract" ++ [NL]
              ++ u "We study pretraining of language models." ++ [NL] |} ];
     pymupdf_parser.page_count := 1;
     pymupdf_parser.metadata := [] |}.


(* ===================================================================== *)
(** * Reference parsing: text without markers *)
(* ===================================================================== *)

Module ReferenceFacts.

Import Py Re ReSyntax reference_parser.



Lemma bind_Some {A B} (f : A -> option B) x : Some x ≫= f = f x.
Proof. reflexivity. Qed.




End ReferenceFacts.


(** The reference of the example. *)
Definition smith_doe : str :=
  u "[1] Smith, J. and Doe, A. Deep Learning. NeurIPS, 2019.".



(** Two references, one per line, without [[n]] or [n.] markers. *)
Definition two_unmarked_lines : str :=
  u "Smith J. Deep learning methods. 2019" ++ [NL]
  ++ u "Doe A. Another paper title here. 2020".

(** C4: the code at the failing input. No marker occurs and both lines
    are longer than 20 characters, yet one reference is returned, for
    the whole text: the text found between the (absent) markers counts
    as a structured reference, so the line-by-line fallback is not
    entered. *)
Theorem parse_references_unmarked_lines :
  Re.finditer Re.no_flags
    (ReSyntax.rx (u "\n\s*(?:\[(\d+)\]|(\d+)\.\s)")) two_unmarked_lines = []
  /\ List.map (fun line => (20 <? len (strip line))%nat)
       (split_char NL (strip two_unmarked_lines)) = [true; true]
  /\ reference_parser.parse_references two_unmarked_lines =
       Some [ {| reference_parser.raw_text := two_unmarked_lines;
                 reference_parser.title := Some (u "Deep learning methods");
                 reference_parser.authors :=
                   [ u "Smith J. Deep learning methods" ];
                 reference_parser.year := Some 2019%N;
                 reference_parser.venue := None;
                 reference_parser.doi := None;
                 reference_parser.order := 0%N |} ].
Proof. repeat split; vm_compute; reflexivity. Qed.

(* ===================================================================== *)
(** * Relationship extraction: the ends of a relationship *)
(* ===================================================================== *)

Module RelationFacts.

Import Py relation_extractor.

(** [r] runs between [e1] and [e2], in one direction or the other. *)
Definition joins (e1 e2 : Entity) (r : Relationship) : Prop :=
  (source r = text e1 /\ target r = text e2)
  \/ (source r = text e2 /\ target r = text e1).

Lemma record_relationships st key r :
  relationships (record st key r) = relationships st ++ [r].
Proof. reflexivity. Qed.

(** One pair: an exception, no change, or one relationship more,
    between the two entities of the pair. *)
Lemma pair_step_shape context e1 e2 st :
  pair_step context e1 e2 st = None
  \/ pair_step context e1 e2 st = Some st
  \/ exists r,
       pair_step context e1 e2 st
       = Some (record st (lower (text e1), lower (text e2)) r)
       /\ joins e1 e2 r.
Proof.
  unfold pair_step.
  destruct (bool_decide _); [right; left; reflexivity|].
  destruct (_check_pattern_relation (text e1) (text e2) context)
    as [[t|]|]; [| |left; reflexivity].
  { right. right. eexists. split; [reflexivity|]. left. split; reflexivity. }
  destruct (_check_pattern_relation (text e2) (text e1) context)
    as [[t|]|]; [| |left; reflexivity].
  { right. right. eexists. split; [reflexivity|]. right. split; reflexivity. }
  destruct (_entities_co_occur (text e1) (text e2) context 250)
    as [[|]|]; [| |left; reflexivity]; [|right; left; reflexivity].
  cbn [mbind option_bind fst snd].
  destruct (TYPE_RELATIONS !! (entity_type e1, entity_type e2)) as [t|].
  { right. right. eexists. split; [reflexivity|]. left. split; reflexivity. }
  destruct (TYPE_RELATIONS !! (entity_type e2, entity_type e1)) as [t|].
  { right. right. eexists. split; [reflexivity|]. right. split; reflexivity. }
  right. left. reflexivity.
Qed.

Lemma pair_step_adds context e1 e2 st st' :
  pair_step context e1 e2 st = Some st' ->
  relationships st' = relationships st
  \/ exists r, relationships st' = relationships st ++ [r] /\ joins e1 e2 r.
Proof.
  destruct (pair_step_shape context e1 e2 st) as [E|[E|(r & E & Hj)]];
    rewrite E; [discriminate| |]; intros [= <-].
  - left. reflexivity.
  - right. exists r. split; [apply record_relationships | exact Hj].
Qed.

Lemma pairs_in_order_elem l e1 e2 :
  (e1, e2) ∈ pairs_in_order l -> e1 ∈ l /\ e2 ∈ l.
Proof.
  induction l as [|e l IH]; cbn [pairs_in_order]; [intros H; inversion H|].
  intros H. apply elem_of_app in H as [H|H].
  - apply list_elem_of_fmap in H as (x & [= -> ->] & Hx).
    split; [left | right; exact Hx].
  - apply IH in H as [H1 H2]. split; right; assumption.
Qed.

Lemma pair_loop_ends context (l : list Entity) pairs :
  (forall e1 e2, (e1, e2) ∈ pairs -> e1 ∈ l /\ e2 ∈ l) ->
  forall st st',
    for_each (fun st '(e1, e2) => pair_step context e1 e2 st) pairs st
    = Some st' ->
    forall r, r ∈ relationships st' ->
      r ∈ relationships st
      \/ exists e1 e2, e1 ∈ l /\ e2 ∈ l /\ joins e1 e2 r.
Proof.
  induction pairs as [|[e1 e2] pairs IH]; intros Hl st st'.
  - intros [= <-] r Hr. left. exact Hr.
  - cbn [for_each].
    destruct (pair_step context e1 e2 st) as [st1|] eqn:E; [|discriminate].
    cbn [mbind option_bind]. intros H r Hr.
    destruct (IH (fun a b Hab => Hl a b (list_elem_of_further _ _ _ Hab))
                st1 st' H r Hr) as [Hr1|Hr1]; [|right; exact Hr1].
    apply pair_step_adds in E as [E|(r' & E & Hj)]; rewrite E in Hr1.
    + left. exact Hr1.
    + apply elem_of_app in Hr1 as [Hr1|Hr1]; [left; exact Hr1|].
      apply list_elem_of_singleton in Hr1. subst r'.
      right. exists e1, e2.
      destruct (Hl e1 e2) as [H1 H2]; [left|]. auto.
Qed.

(** The source and the target of every relationship are texts of
    entities of the input. *)
Lemma extract_relationships_ends entities context rels r :
  extract_relationships entities context = Some rels ->
  r ∈ rels ->
  exists e1 e2,
    e1 ∈ entities /\ e2 ∈ entities
    /\ source r = text e1 /\ target r = text e2.
Proof.
  unfold extract_relationships.
  destruct (len entities <? 2)%nat; [intros [= <-] H; inversion H|].
  destruct (for_each _ _ _) as [st|] eqn:E; [|discriminate].
  cbn [mbind option_bind]. intros [= <-] Hr.
  eapply (pair_loop_ends context (List.firstn 40 entities)) in E;
    [| apply pairs_in_order_elem | exact Hr].
  destruct E as [E|(e1 & e2 & H1 & H2 & Hj)]; [inversion E|].
  assert (Hsub : forall e, e ∈ List.firstn 40 entities -> e ∈ entities).
  { intros e He. rewrite <- (take_drop 40 entities).
    apply elem_of_app. left. exact He. }
  destruct Hj as [[Hs Ht]|[Hs Ht]].
  - exists e1, e2. auto.
  - exists e2, e1. auto.
Qed.

End RelationFacts.

(* ===================================================================== *)
(** * Relationship extraction: one relationship per pair of texts *)
(* ===================================================================== *)

Module PairFacts.

Import Py relation_extractor RelationFacts.

(** The pairs of positions [i < j] of any list, in loop order. *)
Fixpoint ordered_pairs {A} (l : list A) : list (A * A) :=
  match l with
  | [] => []
  | x :: l' => List.map (fun y => (x, y)) l' ++ ordered_pairs l'
  end.

Lemma ordered_pairs_elem {A} (l : list A) a b :
  (a, b) ∈ ordered_pairs l -> a ∈ l /\ b ∈ l.
Proof.
  induction l as [|x l IH]; cbn [ordered_pairs]; [intros H; inversion H|].
  intros H. apply elem_of_app in H as [H|H].
  - apply list_elem_of_fmap in H as (y & [= -> ->] & Hy).
    split; [left | right; exact Hy].
  - apply IH in H as [H1 H2]. split; right; assumption.
Qed.

Lemma ordered_pairs_NoDup {A} (l : list A) :
  NoDup l -> NoDup (ordered_pairs l).
Proof.
  induction 1 as [|x l Hx Hl IH]; cbn [ordered_pairs]; [constructor|].
  apply NoDup_app. split; [|split; [|exact IH]].
  - assert (Hinj : Inj (=) (=) (fun y : A => (x, y)))
      by (intros y1 y2 [= ->]; reflexivity).
    exact (NoDup_fmap_2 _ l Hl).
  - intros [a b] H1 H2.
    apply list_elem_of_fmap in H1 as (y & [= -> ->] & _).
    apply ordered_pairs_elem in H2 as [H2 _]. contradiction.
Qed.

(** In a list without repetition no pair occurs in both
    orientations. *)
Lemma ordered_pairs_asym {A} (l : list A) a b :
  NoDup l -> (a, b) ∈ ordered_pairs l -> (b, a) ∉ ordered_pairs l.
Proof.
  induction 1 as [|x l Hx Hl IH]; cbn [ordered_pairs]; [intros H; inversion H|].
  intros H H'.
  apply elem_of_app in H as [H|H]; apply elem_of_app in H' as [H'|H'].
  - apply list_elem_of_fmap in H as (y & [= -> ->] & Hy).
    apply list_elem_of_fmap in H' as (z & [= -> _] & _). contradiction.
  - apply list_elem_of_fmap in H as (y & [= -> ->] & Hy).
    apply ordered_pairs_elem in H' as [_ H']. contradiction.
  - apply list_elem_of_fmap in H' as (y & [= -> ->] & Hy).
    apply ordered_pairs_elem in H as [_ H]. contradiction.
  - exact (IH H H').
Qed.

Lemma pairs_in_order_keys (key : Entity -> str) l :
  List.map (fun p => (key (fst p), key (snd p))) (pairs_in_order l)
  = ordered_pairs (List.map key l).
Proof.
  induction l as [|e l IH]; [reflexivity|].
  cbn [pairs_in_order ordered_pairs List.map].
  rewrite List.map_app, IH, !List.map_map. reflexivity.
Qed.

(** The key of an entity, and the two keys of a relationship. *)
Definition key (e : Entity) : str := lower (text e).

Definition ends (r : Relationship) : str * str :=
  (lower (source r), lower (target r)).

Definition swap (p : str * str) : str * str := (snd p, fst p).

(** [r] is about the pair of keys [t], in either direction. *)
Definition about (r : Relationship) (t : str * str) : Prop :=
  ends r = t \/ ends r = swap t.

Lemma joins_about e1 e2 r : joins e1 e2 r -> about r (key e1, key e2).
Proof.
  unfold joins, about, ends, swap, key. cbn [fst snd].
  intros [[-> ->]|[-> ->]]; auto.
Qed.

(** The relationships the loop adds are about a subsequence of the
    pairs it visits. *)
Lemma pair_loop_tags context pairs :
  forall st st',
    for_each (fun st '(e1, e2) => pair_step context e1 e2 st) pairs st
    = Some st' ->
    exists added tags,
      relationships st' = relationships st ++ added
      /\ Forall2 about added tags
      /\ tags `sublist_of`
           List.map (fun p => (key (fst p), key (snd p))) pairs.
Proof.
  induction pairs as [|[e1 e2] pairs IH]; intros st st'.
  - intros [= <-]. exists [], []. rewrite List.app_nil_r.
    split; [reflexivity|]. split; [constructor | reflexivity].
  - cbn [for_each].
    destruct (pair_step context e1 e2 st) as [st1|] eqn:E; [|discriminate].
    cbn [mbind option_bind]. intros H.
    apply IH in H as (added & tags & H & Ha & Hs).
    apply pair_step_adds in E as [E|(r & E & Hj)]; rewrite E in H.
    + exists added, tags. split; [exact H|]. split; [exact Ha|].
      cbn [List.map]. apply sublist_cons. exact Hs.
    + exists (r :: added), ((key e1, key e2) :: tags).
      split; [rewrite H, <- List.app_assoc; reflexivity|].
      split; [constructor; [apply joins_about; exact Hj | exact Ha]|].
      cbn [List.map fst snd]. apply sublist_skip. exact Hs.
Qed.

(** Among entities (the first 40) with pairwise distinct lower-case
    texts, no two relationships are about the same unordered pair of
    texts. *)
Lemma extract_relationships_one_per_pair entities context rels i j r1 r2 :
  NoDup (List.map key (List.firstn 40 entities)) ->
  extract_relationships entities context = Some rels ->
  i <> j -> rels !! i = Some r1 -> rels !! j = Some r2 ->
  ends r1 <> ends r2 /\ ends r1 <> swap (ends r2).
Proof.
  intros Hk. unfold extract_relationships.
  destruct (len entities <? 2)%nat; [intros [= <-] _ H; inversion H|].
  destruct (for_each _ _ _) as [st|] eqn:E; [|discriminate].
  cbn [mbind option_bind]. intros [= <-] Hij H1 H2.
  apply pair_loop_tags in E as (added & tags & Er & Ha & Hs).
  cbn [relationships app] in Er. rewrite Er in H1, H2.
  rewrite pairs_in_order_keys in Hs.
  set (P := ordered_pairs (List.map key (List.firstn 40 entities))) in *.
  assert (HP : NoDup P) by (apply ordered_pairs_NoDup; exact Hk).
  assert (HT : NoDup tags) by (eapply sublist_NoDup; eauto).
  destruct (Forall2_lookup_l _ _ _ _ _ Ha H1) as (t1 & Ht1 & A1).
  destruct (Forall2_lookup_l _ _ _ _ _ Ha H2) as (t2 & Ht2 & A2).
  assert (Hne : t1 <> t2).
  { intros ->. apply Hij. eapply NoDup_lookup; eauto. }
  assert (Hin1 : t1 ∈ P).
  { eapply elem_of_sublist; [|exact Hs]. eapply list_elem_of_lookup_2; eauto. }
  assert (Hin2 : t2 ∈ P).
  { eapply elem_of_sublist; [|exact Hs]. eapply list_elem_of_lookup_2; eauto. }
  assert (Hsw : forall t t', t ∈ P -> t' ∈ P -> t <> swap t').
  { intros [a b] [c d] Ht Ht' [= -> ->].
    exact (ordered_pairs_asym _ _ _ Hk Ht' Ht). }
  assert (Hss : forall t, swap (swap t) = t) by (intros [a b]; reflexivity).
  assert (Hinj : forall t t', swap t = swap t' -> t = t')
    by (intros [a b] [c d] [= -> ->]; reflexivity).
  destruct A1 as [A1|A1], A2 as [A2|A2]; rewrite A1, A2; split.
  - exact Hne.
  - apply Hsw; assumption.
  - apply Hsw; assumption.
  - rewrite Hss. exact Hne.
  - intros H. apply (Hsw t2 t1); auto.
  - intros H. apply Hne. apply Hinj. exact H.
  - intros H. apply Hne. apply Hinj. exact H.
  - rewrite Hss. intros H. apply (Hsw t2 t1); auto.
Qed.

End PairFacts.


Definition BERT : relation_extractor.Entity :=
  {| relation_extractor.text := u "BERT";
     relation_extractor.entity_type := u "method" |}.

Definition GLUE : relation_extractor.Entity :=
  {| relation_extractor.text := u "GLUE";
     relation_extractor.entity_type := u "dataset" |}.

Definition evaluate_context : str := u "We evaluate BERT on GLUE".

Definition bert_on_glue : relation_extractor.Relationship :=
  {| relation_extractor.source := u "BERT";
     relation_extractor.target := u "GLUE";
     relation_extractor.relation_type := u "evaluates_on";
     relation_extractor.description := u "BERT evaluates_on GLUE";
     relation_extractor.confidence := 7 # 10 |}.

(** The body of the pair loop when only the reversed orientation
    matches a lexical pattern. *)
Lemma pair_step_reversed context e1 e2 st rel_type :
  (lower (relation_extractor.text e1), lower (relation_extractor.text e2))
    ∉ relation_extractor.seen_pairs st ->
  relation_extractor._check_pattern_relation
    (relation_extractor.text e1) (relation_extractor.text e2) context
  = Some None ->
  relation_extractor._check_pattern_relation
    (relation_extractor.text e2) (relation_extractor.text e1) context
  = Some (Some rel_type) ->
  relation_extractor.pair_step context e1 e2 st
  = Some (relation_extractor.record st
            (lower (relation_extractor.text e1),
             lower (relation_extractor.text e2))
            (relation_extractor.relationship
               (relation_extractor.text e2) (relation_extractor.text e1)
               rel_type (7 # 10))).
Proof.
  intros Hs H1 H2. unfold relation_extractor.pair_step.
  rewrite bool_decide_eq_false_2 by exact Hs.
  rewrite H1, H2. reflexivity.
Qed.

(** C7. On the method BERT, the dataset GLUE and the context [We
    evaluate BERT on GLUE], [extract_relationships] returns exactly the
    relationship from BERT to GLUE of type [evaluates_on] and
    confidence 0.7. For any two entities, when no lexical pattern
    matches in the order given and one matches in the reversed order,
    the single relationship recorded runs from the second entity to the
    first, at confidence 0.7. *)
Theorem extract_relationships_bert_glue :
  relation_extractor.extract_relationships [BERT; GLUE] evaluate_context
  = Some [bert_on_glue]
  /\ forall (e1 e2 : relation_extractor.Entity) (context rel_type : str),
       relation_extractor._check_pattern_relation
         (relation_extractor.text e1) (relation_extractor.text e2) context
       = Some None ->
       relation_extractor._check_pattern_relation
         (relation_extractor.text e2) (relation_extractor.text e1) context
       = Some (Some rel_type) ->
       relation_extractor.extract_relationships [e1; e2] context
       = Some [ relation_extractor.relationship
                  (relation_extractor.text e2) (relation_extractor.text e1)
                  rel_type (7 # 10) ].
Proof.
  split; [vm_compute; reflexivity|].
  intros e1 e2 context rel_type H1 H2.
  unfold relation_extractor.extract_relationships.
  change (relation_extractor.pairs_in_order (List.firstn 40 [e1; e2]))
    with [(e1, e2)].
  change (len [e1; e2] <? 2)%nat with false.
  cbn [for_each].
  rewrite (pair_step_reversed context e1 e2 _ rel_type);
    [reflexivity| |exact H1|exact H2].
  cbn. set_solver.
Qed.

Lemma extract_relationships_bert_glue_witness :
  relation_extractor.extract_relationships [GLUE; BERT] evaluate_context
  = Some [bert_on_glue].
Proof.
  rewrite (proj2 extract_relationships_bert_glue GLUE BERT evaluate_context
             (u "evaluates_on")).
  - vm_compute. reflexivity.
  - vm_compute. reflexivity.
  - vm_compute. reflexivity.
Defined.

(** C6: the code at the failing input, the entities of two sections
    that both mention GLUE and BERT. The pair is met as (GLUE, BERT)
    and again as (BERT, GLUE); the keys of [seen_pairs] are ordered
    pairs, so the second meeting is not recognised and the relationship
    is emitted twice. *)
Theorem extract_relationships_repeated_pair :
  relation_extractor.extract_relationships [GLUE; BERT; GLUE; BERT]
    evaluate_context
  = Some [bert_on_glue; bert_on_glue].
Proof. vm_compute. reflexivity. Qed.

(* ===================================================================== *)
(** * Entity recognition: keys and exceptions *)
(* ===================================================================== *)

Module EntityFacts.

Import Py Re ReSyntax ReFacts PyFacts entity_recognizer.

(** A loop whose body neither raises nor breaks the invariant [I]
    does not raise and keeps [I]. *)
Lemma for_each_inv {A S} (I : S -> Prop) (P : A -> Prop)
    (body : S -> A -> option S) (l : list A) :
  Forall P l ->
  (forall s x, P x -> I s -> exists s', body s x = Some s' /\ I s') ->
  forall s, I s -> exists s', for_each body l s = Some s' /\ I s'.
Proof.
  intros HP Hbody. induction HP as [|x l Hx _ IH]; intros s Hs.
  - exists s. split; [reflexivity | exact Hs].
  - destruct (Hbody s x Hx Hs) as (s1 & E1 & H1).
    destruct (IH s1 H1) as (s2 & E2 & H2).
    exists s2. split; [|exact H2]. cbn [for_each]. rewrite E1. exact E2.
Qed.

(** White space is neither upper case nor the lower-case image of an
    upper-case letter. *)
Lemma is_space_lower_char c : is_space (lower_char c) = is_space c.
Proof.
  unfold lower_char. destruct (is_upper c) eqn:E; [|reflexivity].
  assert (H : (0x41 <= c <= 0x5A \/ 0xC0 <= c <= 0xDE)%N).
  { unfold is_upper, in_range in E.
    repeat (apply orb_true_iff in E as [E|E]);
      apply andb_true_iff in E as [E1 E2];
      apply N.leb_le in E1; apply N.leb_le in E2; lia. }
  assert (F : forall x, (0x41 <= x <= 0x7A \/ 0xC0 <= x <= 0xFE)%N ->
                        is_space x = false).
  { intros x Hx. unfold is_space, in_range.
    repeat (apply orb_false_iff; split);
      try (apply N.eqb_neq; lia);
      apply andb_false_iff;
      first [ left; apply N.leb_gt; lia | right; apply N.leb_gt; lia ]. }
  rewrite (F c) by lia. apply F. lia.
Qed.

Lemma lstrip_by_map p f s :
  (forall c, p (f c) = p c) ->
  lstrip_by p (List.map f s) = List.map f (lstrip_by p s).
Proof.
  intros H. induction s as [|c s IH]; [reflexivity|].
  cbn [List.map lstrip_by]. rewrite H. destruct (p c); [exact IH | reflexivity].
Qed.

Lemma rstrip_by_map p f s :
  (forall c, p (f c) = p c) ->
  rstrip_by p (List.map f s) = List.map f (rstrip_by p s).
Proof.
  intros H. unfold rstrip_by.
  rewrite <- List.map_rev, (lstrip_by_map p f _ H), List.map_rev. reflexivity.
Qed.

(** [s.lower().strip()] is [s.strip().lower()]. *)
Lemma strip_lower s : strip (lower s) = lower (strip s).
Proof.
  unfold strip, lower.
  rewrite (lstrip_by_map _ _ _ is_space_lower_char).
  apply (rstrip_by_map _ _ _ is_space_lower_char).
Qed.

(** The key under which an entity is recorded in [seen]: its text in
    lower case. *)
Definition seen_key (e : Entity) : str := lower (text e).

(** The invariant of the passes: the entities found have distinct
    keys, all of them in [seen]. *)
Definition distinct_keys (a : acc) : Prop :=
  NoDup (List.map seen_key (fst a))
  /\ forall e, e ∈ fst a -> seen_key e ∈ snd a.

Lemma distinct_keys_empty : distinct_keys ([], ∅).
Proof. split; [constructor | intros e H; inversion H]. Qed.

Lemma distinct_keys_emit a key e :
  distinct_keys a -> key ∉ snd a -> seen_key e = key ->
  distinct_keys (emit a key e).
Proof.
  intros [Hn Hs] Hk He. unfold emit. split; cbn [fst snd].
  - rewrite List.map_app. cbn [List.map]. apply NoDup_app. split; [exact Hn|].
    split; [|apply NoDup_singleton].
    intros k Hin Hk'. apply list_elem_of_singleton in Hk'. subst k.
    apply list_elem_of_fmap in Hin as (e' & Ee & Hin).
    apply Hk. rewrite <- He, Ee. apply Hs. exact Hin.
  - intros e' Hin. apply elem_of_app in Hin as [Hin|Hin].
    + apply elem_of_union_r. apply Hs. exact Hin.
    + apply list_elem_of_singleton in Hin. subst e'.
      apply elem_of_union_l. apply elem_of_singleton. exact He.
Qed.

(** A step that emits under a fresh key or leaves the state alone. *)
Lemma emit_if_ok (c : bool) a key e :
  distinct_keys a -> seen_key e = key ->
  exists a',
    (if bool_decide (key ∉ snd a) && c then Some (emit a key e) else Some a)
    = Some a' /\ distinct_keys a'.
Proof.
  intros Ha He. destruct (bool_decide (key ∉ snd a)) eqn:E.
  - apply bool_decide_eq_true in E. destruct c; cbn [andb]; eauto.
    eexists. split; [reflexivity|]. apply distinct_keys_emit; auto.
  - cbn [andb]. eauto.
Qed.

(** With at most one group in the pattern, [m.lastindex] can only be
    1, and then [m.group(1)] is set. *)
Lemma matched_text r text m :
  well_grouped r 1 m -> (ngroups r <= 1)%nat ->
  exists matched,
    match lastindex m with
    | Some (S _) => group text m 1
    | _ => Some (group0 text m)
    end = Some matched.
Proof.
  intros [Hf _] Hn. unfold lastindex, group.
  destruct (caps (m_final m)) as [|[g [a b]] cs]; [eauto|].
  destruct g as [|g]; [eauto|].
  apply Forall_cons in Hf as [Hg _]. cbn [fst] in Hg.
  assert (g = O) by lia. subst g. cbn [lookup_cap Nat.eqb]. eauto.
Qed.

Lemma match_step_ok r text entity_type a m :
  well_grouped r 1 m -> (ngroups r <= 1)%nat -> distinct_keys a ->
  exists a', match_step text entity_type a m = Some a' /\ distinct_keys a'.
Proof.
  intros Hm Hn Ha. unfold match_step.
  destruct (matched_text r text m Hm Hn) as [matched E]. rewrite E.
  cbn [mbind option_bind].
  apply emit_if_ok; [exact Ha|]. unfold seen_key. cbn [entity_recognizer.text].
  symmetry. apply strip_lower.
Qed.

Lemma _match_patterns_ok text patterns entity_type a :
  Forall (fun p => (ngroups (rx p) <= 1)%nat) patterns ->
  distinct_keys a ->
  exists a',
    _match_patterns text patterns entity_type a = Some a' /\ distinct_keys a'.
Proof.
  intros Hp Ha. unfold _match_patterns.
  apply (for_each_inv distinct_keys _ _ _ Hp); [|exact Ha].
  intros s p Hn Hs. cbv beta.
  apply (for_each_inv distinct_keys (well_grouped (rx p) 1));
    [apply finditer_grouped| |exact Hs].
  intros s' m Hm Hs'. eapply match_step_ok; eauto.
Qed.

(** A pass over the matches of one pattern whose step reads group 1. *)
Lemma group_pass_ok (step : str -> acc -> rmatch -> option acc) text r a :
  always_sets 1 r = true ->
  (forall a m g, group text m 1 = Some g -> distinct_keys a ->
     exists a', step text a m = Some a' /\ distinct_keys a') ->
  distinct_keys a ->
  exists a',
    for_each (step text) (finditer I_flag r text) a = Some a'
    /\ distinct_keys a'.
Proof.
  intros Hr Hstep Ha.
  apply (for_each_inv distinct_keys (well_grouped r 1));
    [apply finditer_grouped| |exact Ha].
  intros s m Hm Hs.
  destruct (group_is_Some r 1 text m Hm Hr) as [g Hg]. eauto.
Qed.

Lemma generic_step_ok text a m g :
  group text m 1 = Some g -> distinct_keys a ->
  exists a', generic_step text a m = Some a' /\ distinct_keys a'.
Proof.
  intros Hg Ha. unfold generic_step. rewrite Hg. cbn [mbind option_bind].
  apply emit_if_ok; [exact Ha | reflexivity].
Qed.

Lemma problem_step_ok text a m g :
  group text m 1 = Some g -> distinct_keys a ->
  exists a', problem_step text a m = Some a' /\ distinct_keys a'.
Proof.
  intros Hg Ha. unfold problem_step. rewrite Hg. cbn [mbind option_bind].
  rewrite <- andb_assoc. apply emit_if_ok; [exact Ha | reflexivity].
Qed.

(** [part[0]] is read only where [part] has more than two
    characters. *)
Lemma part_step_ok a part :
  distinct_keys a ->
  exists a', part_step a part = Some a' /\ distinct_keys a'.
Proof.
  intros Ha. unfold part_step.
  set (p := rstrip_chars (u ".") (strip part)).
  destruct (bool_decide (lower p ∉ snd a)) eqn:E; cbn [andb]; [|eauto].
  destruct (2 <? len p)%nat eqn:L; cbn [andb]; [|eauto].
  destruct (len p <? 80)%nat; [|eauto].
  destruct p as [|c p'] eqn:Ep; [discriminate L|].
  cbn [List.head mbind option_bind].
  destruct (negb (is_lower c)); [|eauto].
  eexists. split; [reflexivity|].
  apply bool_decide_eq_true in E.
  apply distinct_keys_emit; [exact Ha | exact E | reflexivity].
Qed.

Lemma baseline_step_ok text a m g :
  group text m 1 = Some g -> distinct_keys a ->
  exists a', baseline_step text a m = Some a' /\ distinct_keys a'.
Proof.
  intros Hg Ha. unfold baseline_step. rewrite Hg. cbn [mbind option_bind].
  apply (for_each_inv distinct_keys (fun _ => True)); [| |exact Ha].
  - apply Forall_forall. auto.
  - intros s x _ Hs. apply part_step_ok. exact Hs.
Qed.

Lemma pattern_pass_ok (step : str -> acc -> rmatch -> option acc) text
    patterns a :
  Forall (fun p => always_sets 1 (rx p) = true) patterns ->
  (forall a m g, group text m 1 = Some g -> distinct_keys a ->
     exists a', step text a m = Some a' /\ distinct_keys a') ->
  distinct_keys a ->
  exists a',
    for_each
      (fun a pattern =>
         for_each (step text) (finditer I_flag (rx pattern) text) a)
      patterns a = Some a'
    /\ distinct_keys a'.
Proof.
  intros Hp Hstep Ha.
  apply (for_each_inv distinct_keys _ _ _ Hp); [|exact Ha].
  intros s p Hr Hs. cbv beta. apply group_pass_ok; auto.
Qed.

(** The pattern tables: one group each, always closed where the step
    reads it. *)
Lemma tables_one_group :
  Forall (fun p => (ngroups (rx p) <= 1)%nat)
    (DATASET_PATTERNS ++ METRIC_PATTERNS ++ METHOD_PATTERNS
     ++ TOOL_PATTERNS ++ THEORY_PATTERNS).
Proof.
  apply Forall_forall. intros p Hp. apply Nat.leb_le.
  revert p Hp. apply Forall_forall. apply List.Forall_forall.
  apply List.forallb_forall. vm_compute. reflexivity.
Qed.

Lemma heuristics_set_group :
  always_sets 1 DATASET_GENERIC = true
  /\ Forall (fun p => always_sets 1 (rx p) = true)
       (problem_patterns ++ baseline_patterns).
Proof.
  split; [vm_compute; reflexivity|].
  apply List.Forall_forall. apply List.forallb_forall. vm_compute. reflexivity.
Qed.

(** [extract_entities] does not raise, and the entities it returns
    have pairwise distinct lower-case texts. *)
Lemma extract_entities_ok section_type content :
  exists entities,
    extract_entities section_type content = Some entities
    /\ NoDup (List.map seen_key entities).
Proof.
  unfold extract_entities.
  destruct (len (strip content) <? 30)%nat;
    [exists []; split; [reflexivity | constructor]|].
  set (text := List.firstn 12000 content).
  pose proof tables_one_group as HT.
  repeat (apply Forall_app in HT as [? HT]).
  destruct heuristics_set_group as [HG HH].
  apply Forall_app in HH as [HP HB].
  destruct (_match_patterns_ok text DATASET_PATTERNS (u "dataset") ([], ∅))
    as (a1 & E1 & I1); [assumption | apply distinct_keys_empty|].
  destruct (_match_patterns_ok text METRIC_PATTERNS (u "metric") a1)
    as (a2 & E2 & I2); [assumption | assumption|].
  destruct (_match_patterns_ok text METHOD_PATTERNS (u "method") a2)
    as (a3 & E3 & I3); [assumption | assumption|].
  destruct (_match_patterns_ok text TOOL_PATTERNS (u "tool") a3)
    as (a4 & E4 & I4); [assumption | assumption|].
  destruct (_match_patterns_ok text THEORY_PATTERNS (u "theory") a4)
    as (a5 & E5 & I5); [assumption | assumption|].
  destruct (group_pass_ok generic_step text DATASET_GENERIC a5 HG
              (generic_step_ok text) I5) as (a6 & E6 & I6).
  assert (H7 : exists a7,
    (if one_of section_type [u "abstract"; u "introduction"; u "other"]
     then _extract_research_problems text a6 else Some a6) = Some a7
    /\ distinct_keys a7).
  { match goal with |- context [if ?c then _ else _] => destruct c end;
      [|eauto].
    apply pattern_pass_ok; auto. apply problem_step_ok. }
  destruct H7 as (a7 & E7 & I7).
  assert (H8 : exists a8,
    (if one_of section_type
          [u "experiments"; u "results"; u "discussion"; u "other"]
     then _extract_baselines text a7 else Some a7) = Some a8
    /\ distinct_keys a8).
  { match goal with |- context [if ?c then _ else _] => destruct c end;
      [|eauto].
    apply pattern_pass_ok; auto. apply baseline_step_ok. }
  destruct H8 as (a8 & E8 & I8).
  exists (fst a8). split; [|apply I8].
  rewrite E1. cbn [mbind option_bind]. rewrite E2. cbn [mbind option_bind].
  rewrite E3. cbn [mbind option_bind]. rewrite E4. cbn [mbind option_bind].
  rewrite E5. cbn [mbind option_bind]. rewrite E6. cbn [mbind option_bind].
  rewrite E7. cbn [mbind option_bind]. rewrite E8. reflexivity.
Qed.

End EntityFacts.

(** C9. For every section type and content [extract_entities] returns
    a list and does not raise; on empty content, on content of fewer
    than 30 characters, and more generally on content whose stripped
    length is below 30, the list is empty. *)
Theorem extract_entities_never_raises (section_type content : str) :
  (exists entities,
     entity_recognizer.extract_entities section_type content = Some entities)
  /\ (content = [] \/ (len content < 30)%nat ->
      entity_recognizer.extract_entities section_type content = Some [])
  /\ ((len (strip content) < 30)%nat ->
      entity_recognizer.extract_entities section_type content = Some []).
Proof.
  assert (H : (len (strip content) < 30)%nat ->
              entity_recognizer.extract_entities section_type content
              = Some []).
  { intros L. unfold entity_recognizer.extract_entities.
    apply Nat.ltb_lt in L. rewrite L. reflexivity. }
  split; [|split].
  - destruct (EntityFacts.extract_entities_ok section_type content)
      as (entities & E & _). eauto.
  - intros Hc. apply H. pose proof (strip_length content) as Hl.
    unfold len in *. destruct Hc as [->|Hc]; [cbn in *; lia | lia].
  - exact H.
Qed.

Lemma extract_entities_never_raises_witness :
  (len (u "We use BERT.") < 30)%nat
  /\ entity_recognizer.extract_entities (u "methods") (u "We use BERT.")
     = Some [].
Proof.
  split; [vm_compute; lia|].
  apply (proj1 (proj2 (extract_entities_never_raises
                         (u "methods") (u "We use BERT.")))).
  right. vm_compute. lia.
Defined.


Definition compared_with_gpt : str :=
  u "Our model was compared with GPT . and other models.".

(** C8: the code at the failing input. The method pass emits [GPT];
    the baseline pass strips the fragment [GPT .] and then removes the
    period, which leaves [GPT ] with the space before the period; its
    key differs from [gpt], and a second entity with the same
    lowercased, stripped text is emitted. *)
Theorem extract_entities_trailing_space :
  entity_recognizer.extract_entities (u "experiments") compared_with_gpt
  = Some [ {| entity_recognizer.text := u "GPT";
              entity_recognizer.entity_type := u "method";
              entity_recognizer.confidence := 8 # 10 |};
           {| entity_recognizer.text := u "GPT ";
              entity_recognizer.entity_type := u "baseline";
              entity_recognizer.confidence := 6 # 10 |} ]
  /\ strip (lower (u "GPT")) = strip (lower (u "GPT ")).
Proof. split; vm_compute; reflexivity. Qed.

(* ===================================================================== *)
(** * Strings: stripping and case *)
(* ===================================================================== *)

Module StripFacts.

Import Py.

Lemma lstrip_by_split p s :
  exists pre, s = pre ++ lstrip_by p s /\ List.forallb p pre = true.
Proof.
  induction s as [|c s (pre & E & F)]; [exists []; split; reflexivity|].
  cbn [lstrip_by]. destruct (p c) eqn:Pc.
  - exists (c :: pre). split; [cbn; f_equal; exact E|].
    cbn. rewrite Pc, F. reflexivity.
  - exists []. split; reflexivity.
Qed.

Lemma lstrip_by_head p s c r : lstrip_by p s = c :: r -> p c = false.
Proof.
  induction s as [|d s IH]; [discriminate|].
  cbn [lstrip_by]. destruct (p d) eqn:Pd; [exact IH|].
  intros E. inversion E. subst. exact Pd.
Qed.

Lemma lstrip_by_fixed p s :
  match s with c :: _ => p c = false | [] => True end -> lstrip_by p s = s.
Proof. destruct s as [|c s]; [reflexivity|]. cbn. intros ->. reflexivity. Qed.

Lemma lstrip_by_idem p s : lstrip_by p (lstrip_by p s) = lstrip_by p s.
Proof.
  apply lstrip_by_fixed. destruct (lstrip_by p s) as [|c r] eqn:E; [exact I|].
  eapply lstrip_by_head. exact E.
Qed.

Lemma rstrip_by_split p s :
  exists suf, s = rstrip_by p s ++ suf /\ List.forallb p suf = true.
Proof.
  unfold rstrip_by.
  destruct (lstrip_by_split p (List.rev s)) as (pre & E & F).
  exists (List.rev pre). split.
  - rewrite <- List.rev_app_distr, <- E, List.rev_involutive. reflexivity.
  - rewrite List.forallb_forall in *. intros x Hx. apply F.
    apply List.in_rev. exact Hx.
Qed.

Lemma rstrip_by_idem p s : rstrip_by p (rstrip_by p s) = rstrip_by p s.
Proof.
  unfold rstrip_by. rewrite List.rev_involutive, lstrip_by_idem. reflexivity.
Qed.

(** The last character left by [rstrip_by] is not one of those
    stripped. *)
Lemma rstrip_by_last p s r c : rstrip_by p s = r ++ [c] -> p c = false.
Proof.
  unfold rstrip_by. intros E.
  apply (f_equal (@List.rev N)) in E.
  rewrite List.rev_involutive, List.rev_app_distr in E. cbn in E.
  eapply lstrip_by_head. exact E.
Qed.

(** Stripping on the right keeps a first character that stays. *)
Lemma lstrip_by_rstrip_by p s :
  lstrip_by p s = s -> lstrip_by p (rstrip_by p s) = rstrip_by p s.
Proof.
  intros Hs. apply lstrip_by_fixed.
  destruct (rstrip_by p s) as [|c r] eqn:E; [exact I|].
  destruct (rstrip_by_split p s) as (suf & Es & _).
  rewrite E in Es. rewrite Es in Hs. cbn in Hs.
  destruct (p c) eqn:Pc; [|reflexivity].
  exfalso. pose proof (lstrip_by_split p (r ++ suf)) as (pre & E1 & _).
  apply (f_equal (@List.length N)) in Hs. apply (f_equal (@List.length N)) in E1.
  cbn in Hs. rewrite !List.length_app in *. lia.
Qed.

(** [s.strip().strip()] is [s.strip()]. *)
Lemma strip_strip s : strip (strip s) = strip s.
Proof.
  unfold strip.
  rewrite (lstrip_by_rstrip_by is_space (lstrip_by is_space s))
    by apply lstrip_by_idem.
  apply rstrip_by_idem.
Qed.

(** A stripped string neither starts nor ends with white space. *)
Lemma strip_head s c r : strip s = c :: r -> is_space c = false.
Proof.
  intros E. pose proof (strip_strip s) as H. rewrite E in H.
  unfold strip in H.
  destruct (lstrip_by is_space (c :: r)) as [|d t] eqn:L.
  - cbn in H. discriminate.
  - cbn [lstrip_by] in L. destruct (is_space c); [|reflexivity].
    exfalso. pose proof (lstrip_by_split is_space r) as (pre & E1 & _).
    pose proof (rstrip_by_split is_space (d :: t)) as (suf & E2 & _).
    rewrite H in E2. rewrite L in E1.
    apply (f_equal (@List.length N)) in E1. apply (f_equal (@List.length N)) in E2.
    cbn in E1, E2. rewrite !List.length_app in *. cbn in *. lia.
Qed.

Lemma strip_last s r c : strip s = r ++ [c] -> is_space c = false.
Proof. unfold strip. apply rstrip_by_last. Qed.

Lemma lower_char_idem c : lower_char (lower_char c) = lower_char c.
Proof.
  unfold lower_char. destruct (is_upper c) eqn:U; [|rewrite U; reflexivity].
  assert (H : is_upper (c + 32) = false); [|rewrite H; reflexivity].
  apply not_true_is_false. intros H. unfold is_upper, in_range in *.
  rewrite !orb_true_iff, !andb_true_iff, !N.leb_le in U, H. lia.
Qed.

(** [s.lower().lower()] is [s.lower()]. *)
Lemma lower_lower s : lower (lower s) = lower s.
Proof.
  unfold lower. rewrite List.map_map. apply List.map_ext. apply lower_char_idem.
Qed.

Lemma len_lower s : len (lower s) = len s.
Proof. unfold len, lower. apply List.length_map. Qed.

End StripFacts.

(* ===================================================================== *)
(** * Layout analysis: font sizes, classification, merging *)
(* ===================================================================== *)

Module SizeFacts.

Import Py pymupdf_parser layout_analyzer LanguageFacts.









End SizeFacts.


Module ClassifyFacts.

Import Py Re ReSyntax layout_analyzer StripFacts EntityFacts.

Lemma first_section_type_elem table clean :
  first_section_type table clean ∈ List.map fst table ++ [u "other"].
Proof.
  induction table as [|[ty patterns] table IH]; cbn [first_section_type].
  - left.
  - destruct (matches_any patterns clean); cbn [List.map fst app].
    + left.
    + right. exact IH.
Qed.

(** The section types of the table, and [other]. *)
Definition section_types : list str := [
  u "abstract"; u "introduction"; u "related_work"; u "methods";
  u "experiments"; u "results"; u "discussion"; u "conclusion";
  u "acknowledgments"; u "appendix"; u "references"; u "other" ].

Lemma section_types_table :
  List.map fst SECTION_PATTERNS ++ [u "other"] = section_types.
Proof. vm_compute. reflexivity. Qed.

Lemma classify_section_elem heading_text :
  classify_section heading_text ∈ section_types.
Proof.
  rewrite <- section_types_table. unfold classify_section.
  apply first_section_type_elem.
Qed.

Lemma title_not_section_type : u "title" ∉ section_types.
Proof.
  intros H. apply list_elem_of_In in H. vm_compute in H.
  repeat destruct H as [H|H]; try discriminate H. exact H.
Qed.

End ClassifyFacts.

(** X2. For every heading text [classify_section] returns one of the
    eleven section types of [SECTION_PATTERNS] or [other]; it never
    returns [title]. *)
Theorem classify_section_known_type (heading_text : Py.str) :
  layout_analyzer.classify_section heading_text
    ∈ List.map fst layout_analyzer.SECTION_PATTERNS ++ [Py.u "other"]
  /\ layout_analyzer.classify_section heading_text
       ∈ [ Py.u "abstract"; Py.u "introduction"; Py.u "related_work";
           Py.u "methods"; Py.u "experiments"; Py.u "results";
           Py.u "discussion"; Py.u "conclusion"; Py.u "acknowledgments";
           Py.u "appendix"; Py.u "references"; Py.u "other" ]
  /\ layout_analyzer.classify_section heading_text <> Py.u "title".
Proof.
  split; [|split].
  - unfold layout_analyzer.classify_section.
    apply ClassifyFacts.first_section_type_elem.
  - apply ClassifyFacts.classify_section_elem.
  - intros E. apply ClassifyFacts.title_not_section_type.
    rewrite <- E. apply ClassifyFacts.classify_section_elem.
Qed.

(** X3. [classify_section] looks at a heading up to letter case and
    surrounding white space: the heading, the heading stripped and the
    heading in lower case are classified alike. *)
Theorem classify_section_case_and_space (heading_text : Py.str) :
  layout_analyzer.classify_section (Py.strip heading_text)
  = layout_analyzer.classify_section heading_text
  /\ layout_analyzer.classify_section (Py.lower heading_text)
     = layout_analyzer.classify_section heading_text.
Proof.
  unfold layout_analyzer.classify_section. split.
  - rewrite StripFacts.strip_strip. reflexivity.
  - rewrite EntityFacts.strip_lower, StripFacts.lower_lower. reflexivity.
Qed.

Module MergeFacts.

Import Py pymupdf_parser layout_analyzer.

(** The block that replaces [prev] when [b] is merged into it. *)
Definition merged_block (prev b : TextBlock) : TextBlock :=
  {| text := text prev ++ [SP] ++ text b;
     font_size := font_size prev;
     font_name := font_name prev;
     is_bold := is_bold prev;
     page_num := page_num prev;
     bbox := (bbox0 prev, bbox1 prev, bbox2 b, bbox3 b) |}.

(** [merge_step] on a list that ends in [prev]. *)
Lemma merge_step_snoc l prev b :
  merge_step (l ++ [prev]) b =
    if same_line b prev then l ++ [merged_block prev b]
    else l ++ [prev; b].
Proof.
  unfold merge_step.
  rewrite List.map_app. cbn [List.map].
  rewrite List.last_last, List.removelast_last.
  destruct (same_line b prev); [reflexivity|].
  rewrite <- List.app_assoc. reflexivity.
Qed.

Lemma snoc_cases {A} (l : list A) : l = [] \/ exists l' x, l = l' ++ [x].
Proof. induction l as [|x l _] using List.rev_ind; [left | right]; eauto. Qed.

Lemma join_snoc sep l a :
  l <> [] -> join sep (l ++ [a]) = join sep l ++ sep ++ a.
Proof.
  induction l as [|x l IH]; [congruence|]. intros _.
  destruct l as [|y l]; [reflexivity|].
  change (join sep ((x :: y :: l) ++ [a]))
    with (x ++ sep ++ join sep ((y :: l) ++ [a])).
  rewrite IH by discriminate.
  change (join sep (x :: y :: l)) with (x ++ sep ++ join sep (y :: l)).
  rewrite <- !List.app_assoc. reflexivity.
Qed.

Lemma join_app sep l1 l2 :
  l1 <> [] -> l2 <> [] ->
  join sep (l1 ++ l2) = join sep l1 ++ sep ++ join sep l2.
Proof.
  intros H1. revert l1 H1.
  induction l2 as [|a l2 IH]; [congruence|]. intros l1 H1 _.
  destruct l2 as [|b l2]; [apply join_snoc; exact H1|].
  change (l1 ++ a :: b :: l2) with (l1 ++ [a] ++ b :: l2).
  rewrite List.app_assoc, IH; [|destruct l1; discriminate|discriminate].
  rewrite join_snoc by exact H1.
  change (join sep (a :: b :: l2)) with (a ++ sep ++ join sep (b :: l2)).
  rewrite <- !List.app_assoc. reflexivity.
Qed.

Lemma merge_step_nonempty merged b : merge_step merged b <> [].
Proof.
  unfold merge_step.
  destruct (List.last (List.map Some merged) None) as [prev|];
    [destruct (same_line b prev)|]; intros E;
    apply List.app_eq_nil in E as [_ E]; discriminate.
Qed.

Lemma merge_step_length merged b :
  (List.length (merge_step merged b) <= S (List.length merged))%nat.
Proof.
  destruct (snoc_cases merged) as [->|(l & prev & ->)]; [cbn; lia|].
  rewrite merge_step_snoc.
  destruct (same_line b prev); rewrite !List.length_app; cbn; lia.
Qed.

Lemma join_merge sep l a b :
  join sep (l ++ [a ++ sep ++ b]) = join sep ((l ++ [a]) ++ [b]).
Proof.
  destruct l as [|x l]; [reflexivity|].
  rewrite (join_snoc sep (x :: l)) by discriminate.
  rewrite (join_snoc sep ((x :: l) ++ [a])) by discriminate.
  rewrite (join_snoc sep (x :: l)) by discriminate.
  rewrite <- !List.app_assoc. reflexivity.
Qed.

(** The texts of the blocks, joined by spaces, before and after one
    step. *)
Lemma merge_step_text merged b :
  merged <> [] ->
  join [SP] (List.map text (merge_step merged b))
  = join [SP] (List.map text (merged ++ [b])).
Proof.
  intros Hne. destruct (snoc_cases merged) as [->|(l & prev & ->)];
    [congruence|].
  rewrite merge_step_snoc. destruct (same_line b prev).
  - rewrite !List.map_app. cbn [List.map merged_block text].
    apply join_merge.
  - rewrite <- List.app_assoc. reflexivity.
Qed.

Lemma fold_merge_step_text bs :
  forall merged,
    merged <> [] ->
    join [SP] (List.map text (List.fold_left merge_step bs merged))
    = join [SP] (List.map text (merged ++ bs)).
Proof.
  induction bs as [|b bs IH]; intros merged Hne; cbn [List.fold_left].
  - rewrite List.app_nil_r. reflexivity.
  - rewrite IH by apply merge_step_nonempty.
    change (merged ++ b :: bs) with (merged ++ [b] ++ bs).
    rewrite List.app_assoc.
    destruct bs as [|b' bs].
    + rewrite !List.app_nil_r. apply merge_step_text. exact Hne.
    + rewrite !List.map_app.
      rewrite !(join_app [SP] _ (List.map text (b' :: bs))).
      * rewrite <- List.map_app, merge_step_text by exact Hne. reflexivity.
      * destruct merged; discriminate.
      * discriminate.
      * intros E. apply List.map_eq_nil in E. exact (merge_step_nonempty _ _ E).
      * discriminate.
Qed.

Lemma fold_merge_step_length bs :
  forall merged,
    (List.length (List.fold_left merge_step bs merged)
     <= List.length merged + List.length bs)%nat.
Proof.
  induction bs as [|b bs IH]; intros merged; cbn [List.fold_left List.length];
    [lia|].
  specialize (IH (merge_step merged b)).
  pose proof (merge_step_length merged b). lia.
Qed.

Lemma fold_merge_step_nonempty bs :
  forall merged, merged <> [] -> List.fold_left merge_step bs merged <> [].
Proof.
  induction bs as [|b bs IH]; intros merged Hne; cbn [List.fold_left];
    [exact Hne|]. apply IH. apply merge_step_nonempty.
Qed.

(** What the merge test reads of a block. *)
Definition line_key (b : TextBlock) : Q * Q * bool * Z :=
  (bbox1 b, font_size b, is_bold b, page_num b).

Lemma same_line_key b b' p p' :
  line_key b = line_key b' -> line_key p = line_key p' ->
  same_line b p = same_line b' p'.
Proof.
  unfold line_key, same_line. intros Eb Ep.
  inversion Eb. inversion Ep. congruence.
Qed.

Lemma merged_block_key prev b : line_key (merged_block prev b) = line_key prev.
Proof. reflexivity. Qed.

(** No block passes the merge test with the block before it. *)
Fixpoint separated (l : list TextBlock) : Prop :=
  match l with
  | [] => True
  | p :: l' =>
      match l' with
      | [] => True
      | b :: _ => same_line b p = false
      end /\ separated l'
  end.

Lemma separated_snoc2 l p b :
  separated (l ++ [p; b]) <-> separated (l ++ [p]) /\ same_line b p = false.
Proof.
  induction l as [|x l IH].
  - cbn. tauto.
  - cbn [app separated]. rewrite IH.
    destruct l as [|y l]; cbn [app]; tauto.
Qed.

Lemma separated_last_key l p p' :
  line_key p' = line_key p -> separated (l ++ [p']) <-> separated (l ++ [p]).
Proof.
  intros E. induction l as [|x l IH].
  - cbn. tauto.
  - cbn [app separated]. rewrite IH.
    destruct l as [|y l]; cbn [app]; [|tauto].
    rewrite (same_line_key p' p x x E eq_refl). tauto.
Qed.

Lemma separated_middle l p b r :
  separated (l ++ p :: b :: r) -> same_line b p = false.
Proof.
  induction l as [|x l IH]; cbn [app separated]; [tauto|].
  intros [_ H]. apply IH. exact H.
Qed.

Lemma separated_lookup l :
  forall i p b,
    separated l -> l !! i = Some p -> l !! S i = Some b ->
    same_line b p = false.
Proof.
  induction l as [|x l IH]; intros i p b H Hp Hb; [discriminate|].
  destruct i as [|i].
  - cbn in Hp, Hb. inversion Hp. subst x.
    destruct l as [|y l]; [discriminate|]. cbn in Hb. inversion Hb. subst y.
    cbn in H. tauto.
  - cbn in Hp, Hb. destruct H as [_ H]. exact (IH i p b H Hp Hb).
Qed.

Lemma merge_step_separated merged b :
  separated merged -> separated (merge_step merged b).
Proof.
  destruct (snoc_cases merged) as [->|(l & prev & ->)]; [cbn; tauto|].
  intros H. rewrite merge_step_snoc. destruct (same_line b prev) eqn:E.
  - apply (separated_last_key l prev); [apply merged_block_key | exact H].
  - apply separated_snoc2. tauto.
Qed.

Lemma fold_merge_step_separated bs :
  forall merged,
    separated merged -> separated (List.fold_left merge_step bs merged).
Proof.
  induction bs as [|b bs IH]; intros merged H; cbn [List.fold_left];
    [exact H|]. apply IH. apply merge_step_separated. exact H.
Qed.

(** On a separated list the loop copies its input. *)
Lemma fold_merge_step_fixed bs :
  forall merged,
    merged <> [] -> separated (merged ++ bs) ->
    List.fold_left merge_step bs merged = merged ++ bs.
Proof.
  induction bs as [|b bs IH]; intros merged Hne H; cbn [List.fold_left].
  - rewrite List.app_nil_r. reflexivity.
  - destruct (snoc_cases merged) as [->|(l & prev & ->)]; [congruence|].
    rewrite <- List.app_assoc in H. cbn [app] in H.
    rewrite merge_step_snoc, (separated_middle _ _ _ _ H).
    rewrite IH.
    + rewrite <- !List.app_assoc. reflexivity.
    + destruct l; discriminate.
    + rewrite <- List.app_assoc. exact H.
Qed.

Lemma _merge_adjacent_blocks_separated bs :
  separated (_merge_adjacent_blocks bs).
Proof.
  unfold _merge_adjacent_blocks. destruct bs as [|b0 others]; [exact I|].
  apply fold_merge_step_separated. cbn. tauto.
Qed.

End MergeFacts.

(** X4. Merging the blocks of a page loses no text: the texts of the
    merged blocks, joined by single spaces, are the texts of the given
    blocks joined by single spaces. The merged list is no longer than
    the given one and is empty only for the empty list. *)
Theorem merge_adjacent_blocks_keeps_text
    (blocks : list pymupdf_parser.TextBlock) :
  Py.join [Py.SP]
    (List.map pymupdf_parser.text (layout_analyzer._merge_adjacent_blocks blocks))
  = Py.join [Py.SP] (List.map pymupdf_parser.text blocks)
  /\ (len (layout_analyzer._merge_adjacent_blocks blocks) <= len blocks)%nat
  /\ (layout_analyzer._merge_adjacent_blocks blocks = [] <-> blocks = []).
Proof.
  unfold layout_analyzer._merge_adjacent_blocks, len.
  destruct blocks as [|b0 others].
  - split; [reflexivity|]. split; [lia | tauto].
  - split; [|split].
    + rewrite MergeFacts.fold_merge_step_text by discriminate. reflexivity.
    + pose proof (MergeFacts.fold_merge_step_length others [b0]). cbn in *. lia.
    + split; [|discriminate]. intros E. exfalso.
      exact (MergeFacts.fold_merge_step_nonempty others [b0] ltac:(discriminate) E).
Qed.

(** X5. In the list [_merge_adjacent_blocks] returns no block passes
    the merge test (same line, same font size, same weight, same page)
    against the block before it, and merging is idempotent: a second
    pass returns its input. *)
Theorem merge_adjacent_blocks_idempotent
    (blocks : list pymupdf_parser.TextBlock) :
  let merged := layout_analyzer._merge_adjacent_blocks blocks in
  (forall i prev b,
     merged !! i = Some prev -> merged !! S i = Some b ->
     layout_analyzer.same_line b prev = false)
  /\ layout_analyzer._merge_adjacent_blocks merged = merged.
Proof.
  cbv zeta.
  pose proof (MergeFacts._merge_adjacent_blocks_separated blocks) as H.
  split.
  - intros i prev b. apply MergeFacts.separated_lookup. exact H.
  - destruct (layout_analyzer._merge_adjacent_blocks blocks) as [|m0 ms];
      [reflexivity|].
    unfold layout_analyzer._merge_adjacent_blocks.
    apply (MergeFacts.fold_merge_step_fixed ms [m0]); [discriminate | exact H].
Qed.

(* ===================================================================== *)
(** * Layout analysis: the shape of the section list *)
(* ===================================================================== *)

Module SectionFacts.

Import Py Re ReSyntax pymupdf_parser layout_analyzer.
Import StripFacts ClassifyFacts PageFacts.

(** The type [heading_checks] settles on is the classification of the
    text, or [other]. *)
Lemma heading_checks_type body_size heading_size block text :
  snd (heading_checks body_size heading_size block text) = classify_section text
  \/ snd (heading_checks body_size heading_size block text) = u "other".
Proof.
  unfold heading_checks.
  generalize (classify_section text). intros ty.
  repeat match goal with
         | |- context [if ?c then _ else _] => destruct c
         end; cbn [snd]; auto.
Qed.

(** One block: nothing changes, a section is opened (the one before it
    saved), or the open section is extended. *)
Lemma layout_step_shape body_size heading_size st block :
  layout_step body_size heading_size st block = st
  \/ (exists ty,
        is_other ty = false
        /\ ty = classify_section (strip (text block))
        /\ strip (text block) <> []
        /\ layout_step body_size heading_size st block
           = {| sections := save_section (sections st) (current_section st);
                current_section :=
                  Some (new_section ty (strip (text block)) (page_num block)) |})
  \/ (exists cur c,
        current_section st = Some cur
        /\ content cur `prefix_of` c
        /\ layout_step body_size heading_size st block
           = {| sections := sections st;
                current_section :=
                  Some (with_content cur c (page_num block)) |})
  \/ (current_section st = None
      /\ strip (text block) <> []
      /\ layout_step body_size heading_size st block
         = {| sections := sections st;
              current_section :=
                Some (new_section (u "other") (strip (text block))
                        (page_num block)) |}).
Proof.
  unfold layout_step.
  destruct (strip (text block)) as [|c0 t0] eqn:Et; [left; reflexivity|].
  pose proof (heading_checks_type body_size heading_size block (c0 :: t0)) as Hty.
  destruct (heading_checks body_size heading_size block (c0 :: t0))
    as [is_heading section_type].
  cbn [snd] in Hty.
  destruct (is_heading && negb (is_other section_type)) eqn:E1.
  { right. left. exists section_type.
    apply andb_true_iff in E1 as [_ E1]. apply negb_true_iff in E1.
    split; [exact E1|]. split; [|split; [discriminate | reflexivity]].
    destruct Hty as [->| ->]; [reflexivity|].
    exfalso. revert E1. clear. vm_compute. discriminate. }
  destruct (is_heading && is_other section_type && Qltb _ _).
  { destruct (current_section st) as [cur|] eqn:Ec.
    - right. right. left. eexists cur, _. split; [reflexivity|].
      split; [|reflexivity]. eexists. reflexivity.
    - right. right. right. split; [reflexivity|].
      split; [discriminate | reflexivity]. }
  destruct (current_section st) as [cur|] eqn:Ec; [|left; reflexivity].
  right. right. left. eexists cur, _. split; [reflexivity|].
  split; [|reflexivity]. eexists. reflexivity.
Qed.

(** One line of the text fallback: nothing changes, the open section
    is extended, or a heading shorter than 100 characters opens a
    section of a known type (the one before it saved). *)
Lemma text_step_cases st line :
  text_step st line = st
  \/ (exists cur c,
        current_section st = Some cur
        /\ content cur `prefix_of` c
        /\ text_step st line
           = {| sections := sections st;
                current_section := Some (with_content cur c (page_end cur)) |})
  \/ (exists ty,
        is_other ty = false
        /\ (exists h, ty = classify_section h)
        /\ strip line <> []
        /\ (len (strip line) < 100)%nat
        /\ text_step st line
           = {| sections := save_section (sections st) (current_section st);
                current_section := Some (new_section ty (strip line) 0) |}).
Proof.
  unfold text_step.
  destruct (strip line) as [|c0 t0] eqn:Et.
  { destruct (current_section st) as [cur|]; [|left; reflexivity].
    right. left. eexists cur, _. split; [reflexivity|].
    split; [|reflexivity]. eexists. reflexivity. }
  cbv zeta.
  match goal with
  | |- context [if negb (is_other ?ty) && ?b then _ else _] =>
      assert (Hty : exists h, ty = classify_section h)
        by (match goal with
            | |- exists h, (if ?c then _ else _) = _ => destruct c
            end; eauto);
      generalize dependent ty; intros section_type Hty;
      destruct (negb (is_other section_type) && b) eqn:E
  end.
  { right. right. exists section_type.
    apply andb_true_iff in E as [E1 E2]. apply negb_true_iff in E1.
    apply Nat.ltb_lt in E2.
    split; [exact E1|]. split; [exact Hty|]. split; [discriminate|].
    split; [exact E2 | reflexivity]. }
  destruct (current_section st) as [cur|]; [|left; reflexivity].
  right. left. eexists cur, _. split; [reflexivity|].
  split; [|reflexivity]. eexists. reflexivity.
Qed.

(** ** What the two loops add

    [Open] holds of the open section, [Saved] of the sections saved. *)

Section Loops.

Variables (Open Saved : Section -> Prop).

Hypothesis saved_ok :
  forall s, Open s -> strip (content s) <> [] -> Saved s.

Definition open_ok (st : layout_state) : Prop :=
  from_option Open True (current_section st).

Lemma save_section_adds sections cur :
  from_option Open True cur ->
  exists added,
    save_section sections cur = sections ++ added /\ Forall Saved added.
Proof using saved_ok.
  intros Hc. unfold save_section. destruct cur as [s|].
  - destruct (strip (content s)) eqn:E.
    + exists []. rewrite List.app_nil_r. split; [reflexivity | constructor].
    + exists [s]. split; [reflexivity|]. apply Forall_singleton.
      apply saved_ok; [exact Hc | rewrite E; discriminate].
  - exists []. rewrite List.app_nil_r. split; [reflexivity | constructor].
Qed.

Section BlockLoop.

Variables (body_size heading_size : Q).

Hypothesis with_content_open :
  forall cur c pg, Open cur -> Open (with_content cur c pg).
Hypothesis typed_open :
  forall block,
    is_other (classify_section (strip (text block))) = false ->
    strip (text block) <> [] ->
    Open (new_section (classify_section (strip (text block)))
         (strip (text block)) (page_num block)).
Hypothesis other_open :
  forall block,
    strip (text block) <> [] ->
    Open (new_section (u "other") (strip (text block)) (page_num block)).

Lemma layout_step_adds st block :
  open_ok st ->
  exists added,
    sections (layout_step body_size heading_size st block)
    = sections st ++ added
    /\ Forall Saved added
    /\ open_ok (layout_step body_size heading_size st block).
Proof using with_content_open saved_ok typed_open other_open.
  intros Hc. unfold open_ok in *.
  destruct (layout_step_shape body_size heading_size st block)
    as [E|[(ty & Hty & Ety & Hne & E)|[(cur & c & Ec & _ & E)|(Ec & Hne & E)]]];
    rewrite E; cbn [sections current_section from_option].
  - exists []. rewrite List.app_nil_r. split; [reflexivity|].
    split; [constructor | exact Hc].
  - destruct (save_section_adds (sections st) (current_section st) Hc)
      as (added & Ea & Ha).
    exists added. split; [exact Ea|]. split; [exact Ha|].
    subst ty. apply typed_open; assumption.
  - exists []. rewrite List.app_nil_r. split; [reflexivity|].
    split; [constructor|]. rewrite Ec in Hc. apply with_content_open. exact Hc.
  - exists []. rewrite List.app_nil_r. split; [reflexivity|].
    split; [constructor|]. apply other_open. exact Hne.
Qed.

Lemma fold_layout_step_adds bl :
  forall st,
    open_ok st ->
    exists added,
      sections (List.fold_left (layout_step body_size heading_size) bl st)
      = sections st ++ added
      /\ Forall Saved added
      /\ open_ok (List.fold_left (layout_step body_size heading_size) bl st).
Proof using with_content_open saved_ok typed_open other_open.
  induction bl as [|b bl IH]; intros st Hc; cbn [List.fold_left].
  - exists []. rewrite List.app_nil_r. split; [reflexivity|].
    split; [constructor | exact Hc].
  - destruct (layout_step_adds st b Hc) as (a1 & E1 & H1 & Hc1).
    destruct (IH _ Hc1) as (a2 & E2 & H2 & Hc2).
    exists (a1 ++ a2). rewrite E2, E1, List.app_assoc.
    split; [reflexivity|]. split; [|exact Hc2].
    apply Forall_app. split; assumption.
Qed.

End BlockLoop.

Section LineLoop.

Hypothesis with_content_open :
  forall cur c, Open cur -> Open (with_content cur c (page_end cur)).
Hypothesis heading_open :
  forall ty txt,
    is_other ty = false -> (exists h, ty = classify_section h) ->
    txt <> [] -> strip txt = txt -> (len txt < 100)%nat ->
    Open (new_section ty txt 0).

Lemma text_step_adds st line :
  open_ok st ->
  exists added,
    sections (text_step st line) = sections st ++ added
    /\ Forall Saved added
    /\ open_ok (text_step st line).
Proof using with_content_open saved_ok heading_open.
  intros Hc. unfold open_ok in *.
  destruct (text_step_cases st line)
    as [E|[(cur & c & Ec & _ & E)|(ty & Hty & Hh & Hne & Hlen & E)]];
    rewrite E; cbn [sections current_section from_option].
  - exists []. rewrite List.app_nil_r. split; [reflexivity|].
    split; [constructor | exact Hc].
  - exists []. rewrite List.app_nil_r. split; [reflexivity|].
    split; [constructor|]. rewrite Ec in Hc. apply with_content_open. exact Hc.
  - destruct (save_section_adds (sections st) (current_section st) Hc)
      as (added & Ea & Ha).
    exists added. split; [exact Ea|]. split; [exact Ha|].
    apply heading_open; auto using strip_strip.
Qed.

Lemma fold_text_step_adds lines :
  forall st,
    open_ok st ->
    exists added,
      sections (List.fold_left text_step lines st) = sections st ++ added
      /\ Forall Saved added
      /\ open_ok (List.fold_left text_step lines st).
Proof using with_content_open saved_ok heading_open.
  induction lines as [|l lines IH]; intros st Hc; cbn [List.fold_left].
  - exists []. rewrite List.app_nil_r. split; [reflexivity|].
    split; [constructor | exact Hc].
  - destruct (text_step_adds st l Hc) as (a1 & E1 & H1 & Hc1).
    destruct (IH _ Hc1) as (a2 & E2 & H2 & Hc2).
    exists (a1 ++ a2). rewrite E2, E1, List.app_assoc.
    split; [reflexivity|]. split; [|exact Hc2].
    apply Forall_app. split; assumption.
Qed.

Lemma _extract_sections_from_text_adds full_text language :
  Forall Saved (_extract_sections_from_text full_text language).
Proof using with_content_open saved_ok heading_open.
  unfold _extract_sections_from_text.
  destruct (fold_text_step_adds (split_char NL full_text)
              {| sections := []; current_section := None |} I)
    as (a1 & E1 & H1 & Hc1).
  match goal with
  | |- Forall _ (save_section ?l ?c) =>
      destruct (save_section_adds l c Hc1) as (a2 & E2 & H2)
  end.
  rewrite E2, E1. cbn [sections app].
  apply Forall_app. split; assumption.
Qed.

End LineLoop.

End Loops.


(** ** The sections saved *)

(** A section as the loops save it: its type is one of the table or
    [other], its heading is not empty and carries no surrounding white
    space, its content is not blank. *)
Definition typed (s : Section) : Prop :=
  section_type s ∈ section_types
  /\ heading s <> [] /\ strip (heading s) = heading s.

Definition saved (s : Section) : Prop :=
  typed s /\ strip (content s) <> [].

(** A section of the text fallback. *)
Definition text_saved (s : Section) : Prop :=
  saved s
  /\ section_type s ∈ List.map fst SECTION_PATTERNS
  /\ (len (heading s) < 100)%nat
  /\ page_start s = 0%Z /\ page_end s = 0%Z.

Lemma is_other_false ty : is_other ty = false -> ty <> u "other".
Proof. unfold is_other, str_eqb. apply bool_decide_eq_false. Qed.

Lemma known_not_other ty :
  ty ∈ section_types -> ty <> u "other" -> ty ∈ List.map fst SECTION_PATTERNS.
Proof.
  rewrite <- section_types_table. intros H Hne.
  apply elem_of_app in H as [H|H]; [exact H|].
  apply list_elem_of_singleton in H. contradiction.
Qed.

Lemma saved_not_title s : saved s -> has_type (u "title") s = false.
Proof.
  intros [[Hty _] _]. unfold has_type, str_eqb. apply bool_decide_eq_false.
  intros E. apply title_not_section_type. rewrite <- E. exact Hty.
Qed.

Lemma _extract_sections_from_text_saved full_text language :
  Forall text_saved (_extract_sections_from_text full_text language).
Proof.
  apply (_extract_sections_from_text_adds
           (fun s => typed s
                     /\ section_type s ∈ List.map fst SECTION_PATTERNS
                     /\ (len (heading s) < 100)%nat
                     /\ page_start s = 0%Z /\ page_end s = 0%Z)
           text_saved).
  - intros s (Ht & Hk & Hl & H0 & H1) Hc. repeat split; try assumption; apply Ht.
  - intros cur c H. exact H.
  - intros ty txt Hty (h & Eh) Hne Hs Hl. subst ty.
    pose proof (classify_section_elem h) as Hk.
    split; [split; [exact Hk | split; assumption]|].
    split; [apply known_not_other; [exact Hk | apply is_other_false; exact Hty]|].
    split; [exact Hl|]. split; reflexivity.
Qed.

Lemma text_saved_saved s : text_saved s -> saved s.
Proof. intros [H _]. exact H. Qed.

(** The title section, if any. *)
Definition is_title (s : Section) : Prop :=
  section_type s = u "title" /\ page_start s = 0%Z /\ page_end s = 0%Z.

Lemma title_section_cases first_page body_size heading_size :
  title_section first_page body_size heading_size = []
  \/ exists t, title_section first_page body_size heading_size = [t]
               /\ is_title t.
Proof.
  unfold title_section. destruct (Qltb _ _); [|left; reflexivity].
  right. eexists. split; [reflexivity|]. repeat split.
Qed.

Lemma other_in_section_types : u "other" ∈ section_types.
Proof. rewrite <- section_types_table. apply elem_of_app. right. left. Qed.

Lemma font_sections_saved doc first_page body_size heading_size :
  exists added,
    font_sections doc first_page body_size heading_size
    = title_section first_page body_size heading_size ++ added
    /\ Forall saved added.
Proof.
  unfold font_sections.
  match goal with
  | |- context [List.fold_left ?f ?bs ?st0] =>
      destruct (fold_layout_step_adds typed saved
                  ltac:(intros s H1 H2; split; assumption)
                  body_size heading_size
                  ltac:(intros cur c pg H; exact H)
                  ltac:(intros block H1 H2;
                        split; [apply classify_section_elem|];
                        split; [exact H2 | apply strip_strip])
                  ltac:(intros block H2;
                        split; [apply other_in_section_types|];
                        split; [exact H2 | apply strip_strip])
                  bs st0 I)
        as (a1 & E1 & H1 & Hc1)
  end.
  match goal with
  | |- context [save_section ?l ?c] =>
      destruct (save_section_adds typed saved
                  ltac:(intros s H2 H3; split; assumption) l c Hc1)
        as (a2 & E2 & H2)
  end.
  exists (a1 ++ a2). rewrite E2, E1. cbn [sections].
  rewrite List.app_assoc. split; [reflexivity|].
  apply Forall_app. split; assumption.
Qed.

Lemma filter_title_saved l :
  Forall saved l -> List.filter (has_type (u "title")) l = [].
Proof.
  induction 1 as [|s l Hs _ IH]; [reflexivity|].
  cbn [List.filter]. rewrite (saved_not_title s Hs). exact IH.
Qed.

Lemma has_type_title t : is_title t -> has_type (u "title") t = true.
Proof.
  intros [E _]. unfold has_type, str_eqb. apply bool_decide_eq_true. exact E.
Qed.

Lemma text_fallback_saved T added full_text language :
  (T = [] \/ exists t, T = [t] /\ is_title t) ->
  Forall saved added ->
  exists B,
    text_fallback (T ++ added) full_text language = T ++ B
    /\ Forall saved B.
Proof.
  intros HT Ha. unfold text_fallback.
  destruct (_ <? 2)%nat; [|eauto].
  destruct (_ <? _)%nat; [|eauto].
  exists (_extract_sections_from_text full_text language). split.
  - f_equal. rewrite List.filter_app, (filter_title_saved added Ha),
      List.app_nil_r.
    destruct HT as [->|(t & -> & Ht)]; [reflexivity|].
    cbn [List.filter]. rewrite (has_type_title t Ht). reflexivity.
  - eapply Forall_impl; [apply _extract_sections_from_text_saved|].
    apply text_saved_saved.
Qed.

Lemma recover_abstract_saved T B full_text :
  (T = [] \/ exists t, T = [t] /\ is_title t) ->
  Forall saved B ->
  exists A,
    recover_abstract (T ++ B) full_text = Some (T ++ A ++ B)
    /\ Forall saved A
    /\ Forall (fun s => page_start s = 0%Z /\ page_end s = 0%Z) A.
Proof.
  intros HT HB. unfold recover_abstract.
  destruct (negb _); [|exists []; repeat split; constructor].
  destruct (re_search IS_flags (rx abstract_pattern) full_text) as [m|] eqn:E;
    [|exists []; repeat split; constructor].
  apply (ReFacts.search_grouped _ _ 1) in E.
  destruct (ReFacts.group_is_Some _ _ full_text _ E
              LayoutFacts.abstract_pattern_sets_group) as [g1 Hg].
  rewrite Hg. cbn [mbind option_bind].
  destruct (50 <? len (strip g1))%nat eqn:L;
    [|exists []; repeat split; constructor].
  eexists [_]. split; [|split].
  - f_equal. unfold insert_abstract.
    destruct HT as [->|(t & -> & Ht)].
    + cbn [app]. destruct B as [|s0 others]; [reflexivity|].
      apply Forall_cons in HB as [H0 _].
      rewrite (saved_not_title s0 H0). reflexivity.
    + cbn [app]. rewrite (has_type_title t Ht). reflexivity.
  - apply Forall_singleton. split; [split|]; cbn [section_type heading content].
    + apply list_elem_of_In. vm_compute. tauto.
    + split; [discriminate | vm_compute; reflexivity].
    + rewrite strip_strip. apply Nat.ltb_lt in L.
      destruct (strip g1); [cbn in L; lia | discriminate].
  - apply Forall_singleton. split; reflexivity.
Qed.

(** The section that holds the whole text. *)
Definition full_text_record (full_text : str) (page_count : Z) : Section :=
  {| section_type := u "other";
     heading := u "Full Text";
     content := full_text;
     page_start := 0;
     page_end := page_count - 1 |}.

Lemma full_text_section_cases sections full_text page_count :
  exists F,
    full_text_section sections full_text page_count = sections ++ F
    /\ (F = [] \/ F = [full_text_record full_text page_count])
    /\ (F = [] -> (1 < len sections)%nat).
Proof.
  unfold full_text_section. destruct (len sections <=? 1)%nat eqn:E.
  - eexists. split; [reflexivity|]. split; [right; reflexivity | discriminate].
  - exists []. rewrite List.app_nil_r. split; [reflexivity|].
    split; [left; reflexivity|]. intros _. apply Nat.leb_gt in E. exact E.
Qed.

(** The result of [analyze_layout] on a document with pages: the title
    section if there is one, the sections saved, and the section that
    holds the whole text when at most one section came before it. *)
Lemma analyze_layout_shape doc first_page others :
  pages doc = first_page :: others ->
  exists T B F,
    analyze_layout doc
    = Some (T ++ B ++ F,
            detect_language (join [NL] (List.map raw_text (pages doc))))
    /\ (T = [] \/ exists t, T = [t] /\ is_title t)
    /\ Forall saved B
    /\ (F = [] \/ F = [full_text_record
                         (join [NL] (List.map raw_text (pages doc)))
                         (page_count doc)])
    /\ (F = [] -> (1 < len (T ++ B))%nat).
Proof.
  intros Ep. unfold analyze_layout. rewrite Ep. rewrite <- Ep.
  destruct (find_heading_font_size doc) as [body_size heading_size].
  cbv zeta.
  destruct (font_sections_saved doc first_page body_size heading_size)
    as (added & E1 & H1).
  rewrite E1.
  pose proof (title_section_cases first_page body_size heading_size) as HT.
  set (T := title_section first_page body_size heading_size) in *.
  match goal with
  | |- context [text_fallback _ ?ft ?lang] =>
      destruct (text_fallback_saved T added ft lang HT H1) as (B & E2 & H2)
  end.
  rewrite E2.
  match goal with
  | |- context [recover_abstract _ ?ft] =>
      destruct (recover_abstract_saved T B ft HT H2) as (A & E3 & H3 & _)
  end.
  rewrite E3. cbn [mbind option_bind].
  match goal with
  | |- context [full_text_section ?l ?ft ?pc] =>
      destruct (full_text_section_cases l ft pc) as (F & E4 & H4 & H5)
  end.
  rewrite E4. exists T, (A ++ B), F.
  rewrite <- !List.app_assoc. split; [reflexivity|].
  split; [exact HT|]. split; [apply Forall_app; split; assumption|].
  split; [exact H4|]. exact H5.
Qed.

(** ** First and last page of a section *)

Definition ordered (s : Section) : Prop := (page_start s <= page_end s)%Z.

(** The sections saved are ordered; the open one is, and ends at page
    [lo] at the latest. *)
Definition ordered_state (lo : Z) (st : layout_state) : Prop :=
  Forall ordered (sections st)
  /\ from_option
       (fun cur => (page_start cur <= page_end cur <= lo)%Z) True
       (current_section st).

(** Blocks in the order of their pages, from page [lo] on. *)
Fixpoint ascending (lo : Z) (bs : list TextBlock) : Prop :=
  match bs with
  | [] => True
  | b :: bs' => (lo <= page_num b)%Z /\ ascending (page_num b) bs'
  end.

Lemma ordered_state_later lo hi st :
  (lo <= hi)%Z -> ordered_state lo st -> ordered_state hi st.
Proof.
  intros Hl [Hs Hc]. split; [exact Hs|].
  destruct (current_section st) as [cur|]; [|exact I]. cbn in *. lia.
Qed.

Lemma save_section_ordered lo st :
  ordered_state lo st ->
  Forall ordered (save_section (sections st) (current_section st)).
Proof.
  intros [Hs Hc]. unfold save_section.
  destruct (current_section st) as [cur|]; [|exact Hs].
  destruct (strip (content cur)); [exact Hs|].
  apply Forall_app. split; [exact Hs|]. apply Forall_singleton.
  cbn in Hc. unfold ordered. lia.
Qed.

Lemma layout_step_ordered lo body_size heading_size st block :
  (lo <= page_num block)%Z -> ordered_state lo st ->
  ordered_state (page_num block) (layout_step body_size heading_size st block).
Proof.
  intros Hl Hst.
  destruct (layout_step_shape body_size heading_size st block)
    as [E|[(ty & _ & _ & _ & E)|[(cur & c & Ec & _ & E)|(_ & _ & E)]]];
    rewrite E.
  - eapply ordered_state_later; eauto.
  - split; cbn [sections current_section from_option new_section
                page_start page_end];
      [eapply save_section_ordered; exact Hst | lia].
  - destruct Hst as [Hs Hc]. rewrite Ec in Hc. cbn in Hc.
    split; cbn [sections current_section from_option with_content
                page_start page_end]; [exact Hs | lia].
  - destruct Hst as [Hs _].
    split; cbn [sections current_section from_option new_section
                page_start page_end]; [exact Hs | lia].
Qed.

Lemma fold_layout_step_ordered body_size heading_size bs :
  forall lo st,
    ascending lo bs -> ordered_state lo st ->
    exists hi,
      ordered_state hi
        (List.fold_left (layout_step body_size heading_size) bs st).
Proof.
  induction bs as [|b bs IH]; intros lo st Ha Hst; cbn [List.fold_left].
  - exists lo. exact Hst.
  - destruct Ha as [Hl Ha]. apply (IH (page_num b)); [exact Ha|].
    apply (layout_step_ordered lo); assumption.
Qed.

Lemma ascending_from lo lo' bs :
  (lo <= lo')%Z -> ascending lo' bs -> ascending lo bs.
Proof. destruct bs as [|b bs]; [tauto|]. cbn. intros H1 [H2 H3]. split; [lia | exact H3]. Qed.

Lemma ascending_page lo k l1 l2 :
  (lo <= k)%Z -> Forall (fun b => page_num b = k) l1 -> ascending k l2 ->
  ascending lo (l1 ++ l2).
Proof.
  intros Hl H1. revert lo Hl. induction H1 as [|b l1 Hb _ IH]; intros lo Hl H2.
  - apply (ascending_from lo k); assumption.
  - cbn [app ascending]. rewrite Hb. split; [exact Hl|].
    apply IH; [lia | exact H2].
Qed.

Lemma merge_step_page k merged b :
  Forall (fun b => page_num b = k) merged -> page_num b = k ->
  Forall (fun b => page_num b = k) (merge_step merged b).
Proof.
  intros Hm Hb.
  destruct (MergeFacts.snoc_cases merged) as [->|(l & prev & ->)].
  - apply Forall_singleton. exact Hb.
  - rewrite MergeFacts.merge_step_snoc.
    apply Forall_app in Hm as [Hl Hp]. apply Forall_cons in Hp as [Hp _].
    destruct (same_line b prev); apply Forall_app; split; try exact Hl.
    + apply Forall_singleton. exact Hp.
    + apply Forall_cons. split; [exact Hp | apply Forall_singleton; exact Hb].
Qed.

Lemma _merge_adjacent_blocks_page k bs :
  Forall (fun b => page_num b = k) bs ->
  Forall (fun b => page_num b = k) (_merge_adjacent_blocks bs).
Proof.
  unfold _merge_adjacent_blocks. destruct bs as [|b0 bs]; [tauto|].
  intros H. apply Forall_cons in H as [H0 H].
  assert (G : forall merged,
            Forall (fun b => page_num b = k) merged ->
            Forall (fun b => page_num b = k)
              (List.fold_left merge_step bs merged)).
  { induction H as [|b bs Hb _ IH]; intros merged Hm; [exact Hm|].
    cbn [List.fold_left]. apply IH. apply merge_step_page; assumption. }
  apply G. apply Forall_singleton. exact H0.
Qed.

Lemma merged_pages_ascending pgs :
  forall k,
    (forall i pg b, pgs !! i = Some pg -> b ∈ blocks pg ->
                    page_num b = (k + Z.of_nat i)%Z) ->
    ascending k
      (List.concat
         (List.map (fun page => _merge_adjacent_blocks (blocks page)) pgs)).
Proof.
  induction pgs as [|pg pgs IH]; intros k H; [exact I|].
  cbn [List.map List.concat].
  apply (ascending_page k k); [lia| |].
  - apply _merge_adjacent_blocks_page. apply Forall_forall. intros b Hb.
    rewrite (H O pg b eq_refl Hb). lia.
  - apply (ascending_from k (k + 1)); [lia|]. apply IH.
    intros i pg' b Hi Hb. rewrite (H (S i) pg' b Hi Hb). lia.
Qed.

(** The stages of [analyze_layout] keep a property that holds of the
    sections of the block loop, of sections on page 0 and of the
    section that holds the whole text. *)
Lemma analyze_layout_Forall (P : Section -> Prop) doc sections language :
  (forall s, page_start s = 0%Z /\ page_end s = 0%Z -> P s) ->
  (forall first_page body_size heading_size,
     Forall P (font_sections doc first_page body_size heading_size)) ->
  (pages doc <> [] ->
   P (full_text_record (join [NL] (List.map raw_text (pages doc)))
        (page_count doc))) ->
  analyze_layout doc = Some (sections, language) ->
  Forall P sections.
Proof.
  intros P0 Pf Pfull. unfold analyze_layout.
  destruct (pages doc) as [|first_page others] eqn:Ep.
  { intros [= <- _]. constructor. }
  rewrite <- Ep.
  destruct (find_heading_font_size doc) as [body_size heading_size].
  cbv zeta.
  specialize (Pf first_page body_size heading_size).
  specialize (Pfull ltac:(discriminate)). rewrite <- Ep in Pfull.
  set (ft := join [NL] (List.map raw_text (pages doc))) in *.
  assert (H2 : Forall P (text_fallback
                           (font_sections doc first_page body_size heading_size)
                           ft (detect_language ft))).
  { unfold text_fallback.
    destruct (_ <? 2)%nat; [|exact Pf].
    destruct (_ <? _)%nat; [|exact Pf].
    apply Forall_app. split; [apply Forall_filter_keep; exact Pf|].
    eapply Forall_impl; [apply _extract_sections_from_text_ok|].
    intros s Hs. apply P0. exact Hs. }
  revert H2. generalize (text_fallback
                           (font_sections doc first_page body_size heading_size)
                           ft (detect_language ft)).
  intros l2 H2.
  assert (H3 : forall l3, recover_abstract l2 ft = Some l3 -> Forall P l3).
  { intros l3. unfold recover_abstract.
    destruct (negb _); [|intros [= <-]; exact H2].
    destruct (re_search _ _ _) as [m|]; [|intros [= <-]; exact H2].
    destruct (group ft m 1) as [g1|]; [|discriminate].
    cbn [mbind option_bind].
    destruct (50 <? _)%nat; intros [= <-]; [|exact H2].
    unfold insert_abstract. destruct l2 as [|s0 l2'].
    - apply Forall_singleton. apply P0. split; reflexivity.
    - apply Forall_cons in H2 as [H0 Ho].
      destruct (has_type _ s0); repeat (apply Forall_cons; split; auto);
        apply P0; split; reflexivity. }
  destruct (recover_abstract l2 ft) as [l3|]; [|discriminate].
  specialize (H3 l3 eq_refl). cbn [mbind option_bind]. intros [= <- _].
  unfold full_text_section. destruct (_ <=? 1)%nat; [|exact H3].
  apply Forall_app. split; [exact H3|]. apply Forall_singleton. exact Pfull.
Qed.

Lemma font_sections_ordered doc first_page body_size heading_size :
  page_numbered doc ->
  Forall ordered (font_sections doc first_page body_size heading_size).
Proof.
  intros [_ Hb]. unfold font_sections.
  match goal with
  | |- context [List.fold_left ?f ?bs ?st0] =>
      destruct (fold_layout_step_ordered body_size heading_size bs 0 st0)
        as (hi & Hst)
  end.
  - apply merged_pages_ascending. intros i pg b Hi Hbk.
    rewrite (Hb i pg b Hi Hbk). lia.
  - split; cbn [sections current_section from_option]; [|exact I].
    destruct (title_section_cases first_page body_size heading_size)
      as [->|(t & -> & _ & H0 & H1)]; [constructor|].
    apply Forall_singleton. unfold ordered. lia.
  - eapply save_section_ordered. exact Hst.
Qed.

Lemma analyze_layout_ordered doc sections language :
  page_numbered doc ->
  analyze_layout doc = Some (sections, language) ->
  Forall ordered sections.
Proof.
  intros Hd. apply (analyze_layout_Forall ordered).
  - intros s [H0 H1]. unfold ordered. lia.
  - intros. apply font_sections_ordered. exact Hd.
  - intros Hp. unfold ordered. cbn [full_text_record page_start page_end].
    destruct Hd as [-> _].
    destruct (pages doc); [contradiction | cbn [List.length]; lia].
Qed.

End SectionFacts.

(** X6. Every section of the text fallback [_extract_sections_from_text]
    has one of the eleven types of [SECTION_PATTERNS], a heading that
    is not empty, carries no surrounding white space and is shorter
    than 100 characters, content that is not blank, and lies on page
    0. *)
Theorem text_sections_well_formed (full_text language : Py.str) :
  Forall
    (fun s =>
       layout_analyzer.section_type s
         ∈ List.map fst layout_analyzer.SECTION_PATTERNS
       /\ layout_analyzer.heading s <> []
       /\ Py.strip (layout_analyzer.heading s) = layout_analyzer.heading s
       /\ (len (layout_analyzer.heading s) < 100)%nat
       /\ Py.strip (layout_analyzer.content s) <> []
       /\ layout_analyzer.page_start s = 0%Z
       /\ layout_analyzer.page_end s = 0%Z)
    (layout_analyzer._extract_sections_from_text full_text language).
Proof.
  eapply Forall_impl;
    [apply SectionFacts._extract_sections_from_text_saved|].
  intros s ([(_ & H1 & H2) H3] & H4 & H5 & H6 & H7). auto 10.
Qed.

(** X7. [analyze_layout] does not raise, and in the list it returns
    every section type is [title], one of the eleven types of
    [SECTION_PATTERNS] or [other]; a section of type [title] can only
    be the first element of the list. *)
Theorem analyze_layout_section_types (doc : pymupdf_parser.ParsedDocument) :
  exists sections language,
    layout_analyzer.analyze_layout doc = Some (sections, language)
    /\ forall i s,
         sections !! i = Some s ->
         layout_analyzer.section_type s
           ∈ Py.u "title"
               :: List.map fst layout_analyzer.SECTION_PATTERNS ++ [Py.u "other"]
         /\ (layout_analyzer.section_type s = Py.u "title" -> i = O).
Proof.
  destruct (pymupdf_parser.pages doc) as [|first_page others] eqn:Ep.
  { exists [], (Py.u "en"). unfold layout_analyzer.analyze_layout. rewrite Ep.
    split; [reflexivity|]. intros i s H. rewrite lookup_nil in H. discriminate. }
  destruct (SectionFacts.analyze_layout_shape doc first_page others Ep)
    as (T & B & F & E & HT & HB & HF & _).
  eexists _, _. split; [exact E|].
  assert (Hrest : forall s, s ∈ B ++ F ->
            layout_analyzer.section_type s ∈ ClassifyFacts.section_types).
  { intros s Hs. apply elem_of_app in Hs as [Hs|Hs].
    - rewrite Forall_forall in HB. apply (HB s Hs).
    - destruct HF as [->| ->]; [inversion Hs|].
      apply list_elem_of_singleton in Hs. subst s.
      apply SectionFacts.other_in_section_types. }
  rewrite ClassifyFacts.section_types_table.
  intros i s Hi.
  assert (Hcase : (i = O /\ exists t, T = [t] /\ s = t /\ SectionFacts.is_title t)
                  \/ s ∈ B ++ F).
  { destruct HT as [->|(t & -> & Ht)].
    - right. apply list_elem_of_lookup. exists i. exact Hi.
    - destruct i as [|i].
      + left. cbn in Hi. inversion Hi; subst.
        split; [reflexivity|]. exists s. auto.
      + right. cbn in Hi. apply list_elem_of_lookup. exists i. exact Hi. }
  destruct Hcase as [(-> & t & _ & -> & Ht & _)|Hs].
  - split; [rewrite Ht; left | reflexivity].
  - specialize (Hrest s Hs). split; [right; exact Hrest|].
    intros Et. exfalso. apply ClassifyFacts.title_not_section_type.
    rewrite <- Et. exact Hrest.
Qed.

(** X8. In the list [analyze_layout] returns, every section other than
    a title and the section headed [Full Text] that holds the whole
    text has a heading that is not empty and carries no surrounding
    white space, and content that is not blank. The [Full Text]
    section, when present, is the last one, and it is present whenever
    fewer than two sections come before it. *)
Theorem analyze_layout_sections_filled (doc : pymupdf_parser.ParsedDocument) :
  exists sections language,
    layout_analyzer.analyze_layout doc = Some (sections, language)
    /\ (let full :=
          {| layout_analyzer.section_type := Py.u "other";
             layout_analyzer.heading := Py.u "Full Text";
             layout_analyzer.content :=
               Py.join [Py.NL]
                 (List.map pymupdf_parser.raw_text (pymupdf_parser.pages doc));
             layout_analyzer.page_start := 0;
             layout_analyzer.page_end := pymupdf_parser.page_count doc - 1 |} in
        exists found,
          (sections = found \/ sections = found ++ [full])
          /\ (sections = found ->
              found = [] \/ (2 <= len found)%nat)
          /\ Forall
               (fun s =>
                  layout_analyzer.section_type s = Py.u "title"
                  \/ (layout_analyzer.heading s <> []
                      /\ Py.strip (layout_analyzer.heading s)
                         = layout_analyzer.heading s
                      /\ Py.strip (layout_analyzer.content s) <> []))
               found).
Proof.
  destruct (pymupdf_parser.pages doc) as [|first_page others] eqn:Ep.
  { exists [], (Py.u "en"). unfold layout_analyzer.analyze_layout. rewrite Ep.
    split; [reflexivity|]. exists []. split; [left; reflexivity|].
    split; [left; reflexivity | constructor]. }
  destruct (SectionFacts.analyze_layout_shape doc first_page others Ep)
    as (T & B & F & E & HT & HB & HF & Hlen).
  rewrite <- Ep.
  eexists _, _. split; [exact E|]. cbv zeta.
  exists (T ++ B). split; [|split].
  - destruct HF as [->| ->]; [left | right].
    + rewrite List.app_nil_r. reflexivity.
    + rewrite List.app_assoc. reflexivity.
  - intros Es. right. destruct HF as [->| ->].
    + specialize (Hlen eq_refl). unfold len in *. lia.
    + exfalso. apply (f_equal (@List.length _)) in Es.
      rewrite !List.length_app in Es. cbn in Es. lia.
  - apply Forall_app. split.
    + destruct HT as [->|(t & -> & Ht & _)]; [constructor|].
      apply Forall_singleton. left. exact Ht.
    + eapply Forall_impl; [exact HB|].
      intros s [(_ & H1 & H2) H3]. right. auto.
Qed.

(** X9. In a document whose blocks carry the index of their page, as
    [parse_pdf] sets it, no section of [analyze_layout] ends before it
    starts: [page_start <= page_end]. *)
Theorem analyze_layout_pages_ordered
    (doc : pymupdf_parser.ParsedDocument) sections language :
  PageFacts.page_numbered doc ->
  layout_analyzer.analyze_layout doc = Some (sections, language) ->
  Forall
    (fun s => (layout_analyzer.page_start s <= layout_analyzer.page_end s)%Z)
    sections.
Proof.
  intros Hd E.
  exact (SectionFacts.analyze_layout_ordered doc sections language Hd E).
Qed.

Lemma analyze_layout_pages_ordered_witness :
  exists sections language,
    layout_analyzer.analyze_layout short_paper = Some (sections, language)
    /\ Forall
         (fun s => (layout_analyzer.page_start s <= layout_analyzer.page_end s)%Z)
         sections.
Proof.
  eexists _, _. split; [vm_compute; reflexivity|].
  assert (Hd : PageFacts.page_numbered short_paper).
  { split; [reflexivity|]. intros i pg b Hi Hb.
    destruct i as [|i]; [|destruct i; discriminate Hi].
    injection Hi as <-. cbn [pymupdf_parser.blocks] in Hb.
    repeat (apply elem_of_cons in Hb as [->|Hb]; [reflexivity|]).
    inversion Hb. }
  exact (analyze_layout_pages_ordered short_paper _ _ Hd
           ltac:(vm_compute; reflexivity)).
Defined.

(* ===================================================================== *)
(** * Text extraction: the document [parse_pdf] builds *)
(* ===================================================================== *)

Module ParseFacts.

Import Py pymupdf_parser layout_analyzer StripFacts.

(** A block as [parse_pdf] builds it for page [i]. *)
Definition block_of_page (i : nat) (b : TextBlock) : Prop :=
  page_num b = Z.of_nat i /\ text b <> [] /\ strip (text b) = text b.

Lemma span_block_ok i span :
  Forall (block_of_page i) (span_block i span).
Proof.
  unfold span_block.
  destruct (strip (default [] (span_text span))) as [|c t] eqn:E;
    [constructor|].
  apply Forall_singleton. split; [reflexivity|]. split; [discriminate|].
  cbn [text]. rewrite <- E. apply strip_strip.
Qed.

Lemma Forall_flat_map {A B} (P : B -> Prop) (f : A -> list B) l :
  (forall x, Forall P (f x)) -> Forall P (List.flat_map f l).
Proof.
  intros H. induction l as [|x l IH]; [constructor|].
  cbn [List.flat_map]. apply Forall_app. split; [apply H | exact IH].
Qed.

Lemma page_blocks_ok i page : Forall (block_of_page i) (page_blocks i page).
Proof.
  unfold page_blocks. apply Forall_flat_map. intros block.
  destruct (block_type block) as [[| |]|]; try constructor.
  apply Forall_flat_map. intros line.
  apply Forall_flat_map. apply span_block_ok.
Qed.

Lemma pages_from_lookup doc :
  forall n i pg,
    pages_from n doc !! i = Some pg ->
    exists page, doc !! i = Some page /\ pg = parsed_page (n + i) page.
Proof.
  induction doc as [|page doc IH]; intros n i pg H; [discriminate|].
  destruct i as [|i]; cbn in H.
  - inversion H. exists page. rewrite Nat.add_0_r. split; reflexivity.
  - destruct (IH (S n) i pg H) as (page' & E1 & E2).
    exists page'. split; [exact E1|]. rewrite E2. f_equal. lia.
Qed.

Lemma pages_from_length doc : forall n, List.length (pages_from n doc) = List.length doc.
Proof. induction doc as [|page doc IH]; intros n; cbn; [|rewrite IH]; reflexivity. Qed.

Lemma parse_pdf_page_numbered doc : PageFacts.page_numbered (parse_pdf doc).
Proof.
  split.
  - cbn [parse_pdf page_count pages]. rewrite pages_from_length. reflexivity.
  - intros i pg b Hi Hb. cbn [parse_pdf pages] in Hi.
    apply pages_from_lookup in Hi as (page & _ & ->).
    cbn [parsed_page blocks] in Hb.
    pose proof (page_blocks_ok (0 + i) page) as H.
    rewrite Forall_forall in H. apply (H b Hb).
Qed.

End ParseFacts.

(** X10. For every document, [parse_pdf] returns one page per page of
    the document, in order, and sets [page_count] to their number; page
    [i] carries the number [i], the size and the plain text of its
    source, and each of its blocks carries the page number [i] and a
    text that is not empty and has no surrounding white space. *)
Theorem parse_pdf_pages_and_blocks (doc : pymupdf_parser.FitzDocument) :
  let parsed := pymupdf_parser.parse_pdf doc in
  pymupdf_parser.page_count parsed
  = Z.of_nat (len (pymupdf_parser.pages parsed))
  /\ len (pymupdf_parser.pages parsed) = len (pymupdf_parser.fitz_pages doc)
  /\ forall i pg,
       pymupdf_parser.pages parsed !! i = Some pg ->
       exists page,
         pymupdf_parser.fitz_pages doc !! i = Some page
         /\ pymupdf_parser.pp_page_num pg = Z.of_nat i
         /\ pymupdf_parser.width pg = pymupdf_parser.rect_width page
         /\ pymupdf_parser.height pg = pymupdf_parser.rect_height page
         /\ pymupdf_parser.raw_text pg = pymupdf_parser.plain_text page
         /\ Forall
              (fun b =>
                 pymupdf_parser.page_num b = Z.of_nat i
                 /\ pymupdf_parser.text b <> []
                 /\ Py.strip (pymupdf_parser.text b) = pymupdf_parser.text b)
              (pymupdf_parser.blocks pg).
Proof.
  cbv zeta. unfold len.
  cbn [pymupdf_parser.parse_pdf pymupdf_parser.page_count pymupdf_parser.pages].
  rewrite ParseFacts.pages_from_length.
  split; [reflexivity|]. split; [reflexivity|].
  intros i pg Hi.
  apply ParseFacts.pages_from_lookup in Hi as (page & Hp & ->).
  exists page. split; [exact Hp|]. repeat split.
  apply ParseFacts.page_blocks_ok.
Qed.

(** X11. The first two stages of the parsing pipeline compose: for
    every document, [analyze_layout] applied to the result of
    [parse_pdf] does not raise; the section list is empty exactly for
    the document without pages; and every section starts and ends on
    pages of the document, counted from 0, and does not end before it
    starts. *)
Theorem parsed_document_sections (doc : pymupdf_parser.FitzDocument) :
  exists sections language,
    layout_analyzer.analyze_layout (pymupdf_parser.parse_pdf doc)
    = Some (sections, language)
    /\ (sections = [] <-> pymupdf_parser.fitz_pages doc = [])
    /\ Forall
         (fun s =>
            (0 <= layout_analyzer.page_start s
             /\ layout_analyzer.page_start s <= layout_analyzer.page_end s
             /\ layout_analyzer.page_end s
                <= Z.of_nat (len (pymupdf_parser.fitz_pages doc)) - 1)%Z)
         sections.
Proof.
  pose proof (ParseFacts.parse_pdf_page_numbered doc) as Hd.
  destruct (pymupdf_parser.fitz_pages doc) as [|page pages'] eqn:Ep.
  { exists [], (Py.u "en"). split; [|split; [tauto | constructor]].
    unfold layout_analyzer.analyze_layout, pymupdf_parser.parse_pdf.
    rewrite Ep. reflexivity. }
  assert (Epp : pymupdf_parser.pages (pymupdf_parser.parse_pdf doc)
                = pymupdf_parser.parsed_page 0 page
                  :: pymupdf_parser.pages_from 1 pages').
  { unfold pymupdf_parser.parse_pdf. rewrite Ep. reflexivity. }
  destruct (SectionFacts.analyze_layout_shape _ _ _ Epp)
    as (T & B & F & E & _ & _ & HF & Hlen).
  eexists _, _. split; [exact E|]. split.
  - split; [|discriminate]. intros E0. exfalso.
    destruct HF as [->| ->].
    + specialize (Hlen eq_refl). rewrite List.app_nil_r in E0.
      rewrite E0 in Hlen. cbn in Hlen. lia.
    + apply (f_equal (@List.length _)) in E0.
      rewrite !List.length_app in E0. cbn in E0. lia.
  - pose proof (PageFacts.analyze_layout_zero_based _ _ _ Hd E) as Hz.
    pose proof (SectionFacts.analyze_layout_ordered _ _ _ Hd E) as Ho.
    rewrite Forall_forall in Hz, Ho. apply Forall_forall. intros s Hs.
    specialize (Hz s Hs). specialize (Ho s Hs).
    unfold PageFacts.zero_based, SectionFacts.ordered in *.
    cbn [pymupdf_parser.parse_pdf pymupdf_parser.page_count] in Hz.
    rewrite Ep in Hz. lia.
Qed.

(* ===================================================================== *)
(** * Facts about matching: the text of a match *)
(* ===================================================================== *)

Module ReLang.

Import Py Re ReSyntax.

(** [lang fl r w]: the characters [w] can be read by [r], assertions
    taken to read nothing. Every match of [r] reads such a [w]. *)
Fixpoint lang (fl : flags) (r : regex) (w : str) : Prop :=
  match r with
  | Empty => w = []
  | Lit c => exists x, w = [x] /\ lit_matches fl c x = true
  | Dot => exists x, w = [x] /\ dot_matches fl x = true
  | Class neg items => exists x, w = [x] /\ class_matches fl neg items x = true
  | Cat r1 r2 => exists w1 w2, w = w1 ++ w2 /\ lang fl r1 w1 /\ lang fl r2 w2
  | Or r1 r2 => lang fl r1 w \/ lang fl r2 w
  | Repeat r1 lo hi _ =>
      exists ws,
        w = List.concat ws /\ Forall (lang fl r1) ws
        /\ (lo <= List.length ws)%nat
        /\ from_option (fun h => (List.length ws <= h)%nat) True hi
  | Group _ r1 => lang fl r1 w
  | Ahead _ _ | Bol | Eol | WordB _ => w = []
  end.

(** [st1] is [st] after reading [w]. *)
Definition reads (st st1 : mstate) (w : str) : Prop :=
  rest st = w ++ rest st1 /\ pos st1 = (pos st + List.length w)%nat.

Lemma reads_nil st : reads st st [].
Proof. split; [reflexivity | cbn; lia]. Qed.

Lemma reads_app st st1 st2 w1 w2 :
  reads st st1 w1 -> reads st1 st2 w2 -> reads st st2 (w1 ++ w2).
Proof.
  intros [E1 P1] [E2 P2]. split.
  - rewrite E1, E2, List.app_assoc. reflexivity.
  - rewrite List.length_app. lia.
Qed.

Lemma reads_advance st x r : rest st = x :: r -> reads st (advance st x r) [x].
Proof. intros E. split; [exact E | cbn; lia]. Qed.

Lemma reads_set_cap st st1 w n a b :
  reads st st1 w -> reads st (set_cap n a b st1) w.
Proof. intros H. exact H. Qed.

(** [k] accepted, from [st], after a word of [L] was read. *)
Definition accepts (L : str -> Prop) (st : mstate)
    (k : mstate -> option mstate) (res : mstate) : Prop :=
  exists st1 w, k st1 = Some res /\ reads st st1 w /\ L w.

Lemma rep_loop_lang body (L : str -> Prop) lo hi greedy k :
  (forall st k' res, body st k' = Some res -> accepts L st k' res) ->
  forall fuel i st0 res,
    rep_loop body lo hi greedy k fuel i st0 = Some res ->
    from_option (fun h => (i <= h)%nat) True hi ->
    accepts
      (fun w => exists ws,
         w = List.concat ws /\ Forall L ws
         /\ (lo <= i + List.length ws)%nat
         /\ from_option (fun h => (i + List.length ws <= h)%nat) True hi)
      st0 k res.
Proof.
  intros Hbody. induction fuel as [|f IH]; intros i st0 res; [discriminate|].
  cbn [rep_loop].
  set (goal :=
    accepts
      (fun w => exists ws,
         w = List.concat ws /\ Forall L ws
         /\ (lo <= i + List.length ws)%nat
         /\ from_option (fun h => (i + List.length ws <= h)%nat) True hi)
      st0 k res).
  assert (Hagain :
    (if below i hi then
       body st0 (fun st1 =>
         if (i <? lo)%nat || (pos st0 <? pos st1)%nat
         then rep_loop body lo hi greedy k f (S i) st1 else None)
     else None) = Some res -> goal).
  { destruct (below i hi) eqn:B; [|discriminate]. intros H.
    apply Hbody in H as (st1 & w1 & H & R1 & L1).
    destruct (_ || _); [|discriminate].
    apply IH in H as (st2 & w2 & H & R2 & ws & -> & Fws & Hlo & Hhi).
    - exists st2, (w1 ++ List.concat ws). split; [exact H|].
      split; [eapply reads_app; eauto|].
      exists (w1 :: ws). split; [reflexivity|].
      split; [constructor; assumption|]. cbn [List.length].
      split; [lia|]. destruct hi as [h|]; cbn in *; [lia | exact I].
    - destruct hi as [h|]; cbn in *; [|exact I].
      apply Nat.ltb_lt in B. lia. }
  assert (Hleave :
    (if (lo <=? i)%nat then k st0 else None) = Some res ->
    from_option (fun h => (i <= h)%nat) True hi -> goal).
  { destruct (lo <=? i)%nat eqn:B; [|discriminate]. intros H Hi.
    exists st0, []. split; [exact H|]. split; [apply reads_nil|].
    exists []. split; [reflexivity|]. split; [constructor|].
    cbn [List.length]. apply Nat.leb_le in B. split; [lia|].
    destruct hi as [h|]; cbn in *; [lia | exact I]. }
  destruct greedy; unfold orelse.
  - destruct (if below i hi then _ else None) eqn:E.
    + intros [= <-] _. auto.
    + auto.
  - destruct (if (lo <=? i)%nat then _ else None) eqn:E.
    + intros [= <-] Hi. auto.
    + intros H _. auto.
Qed.

(** A successful run read a word of the language of its pattern. *)
Lemma run_lang fl r :
  forall st k res,
    run fl r st k = Some res -> accepts (lang fl r) st k res.
Proof.
  assert (Here : forall st (k : mstate -> option mstate) res,
            k st = Some res -> accepts (fun w => w = []) st k res)
    by (intros st k res H; exists st, []; split; [exact H|];
        split; [apply reads_nil | reflexivity]).
  assert (Hchar : forall p st k res,
            step_char p st k = Some res ->
            accepts (fun w => exists x, w = [x] /\ p x = true) st k res).
  { intros p st k res. unfold step_char.
    destruct (rest st) as [|x s] eqn:E; [discriminate|].
    destruct (p x) eqn:Px; [|discriminate]. intros H.
    eexists _, [x]. split; [exact H|].
    split; [apply reads_advance; exact E | eauto]. }
  induction r as [ |c| |neg items|r1 IH1 r2 IH2|r1 IH1 r2 IH2
                  |r1 IH1 lo hi greedy|n r1 IH1|neg r1 IH1| | |neg];
    intros st k res; cbn [run lang]; try (apply Hchar); try (apply Here).
  - intros H. apply IH1 in H as (st1 & w1 & H & R1 & L1).
    apply IH2 in H as (st2 & w2 & H & R2 & L2).
    exists st2, (w1 ++ w2). split; [exact H|].
    split; [eapply reads_app; eauto | eauto].
  - unfold orelse. destruct (run fl r1 st k) eqn:E.
    + intros [= <-]. apply IH1 in E as (st1 & w & H & R & L).
      exists st1, w. auto.
    + intros H. apply IH2 in H as (st1 & w & H & R & L).
      exists st1, w. auto.
  - intros H. eapply rep_loop_lang in H; [|exact IH1|].
    + destruct H as (st1 & w & H & R & ws & -> & Fws & Hlo & Hhi).
      exists st1, (List.concat ws). split; [exact H|]. split; [exact R|].
      exists ws. cbn in Hlo, Hhi. auto.
    + destruct hi; cbn; [lia | exact I].
  - intros H. apply IH1 in H as (st1 & w & H & R & L).
    eexists _, w. split; [exact H|]. split; [|exact L].
    apply reads_set_cap. exact R.
  - destruct (run fl r1 st Some); destruct neg; try discriminate; apply Here.
  - destruct (pos st =? 0)%nat; [apply Here | discriminate].
  - destruct (at_eol st); [apply Here | discriminate].
  - destruct (xorb neg (at_boundary st)); [apply Here | discriminate].
Qed.

Lemma match_here_lang fl r adv st m :
  match_here fl r adv st = Some m ->
  exists w,
    m_start m = pos st /\ reads st (m_final m) w /\ lang fl r w.
Proof.
  unfold match_here.
  destruct (run fl r st _) as [st1|] eqn:E; [|discriminate].
  intros [= <-]. cbn [m_start m_final].
  apply run_lang in E as (st2 & w & H & R & L).
  destruct (adv && (pos st2 =? pos st)%nat); [discriminate|].
  injection H as <-. eauto.
Qed.

(** The match a scan finds: where it lies in the text scanned, and
    what it reads. *)
Lemma scan_lang fl r s :
  forall adv p pv m,
    scan fl r adv p pv s = Some m ->
    exists pre w,
      s = pre ++ w ++ rest (m_final m)
      /\ m_start m = (p + List.length pre)%nat
      /\ m_end m = (m_start m + List.length w)%nat
      /\ lang fl r w.
Proof.
  assert (Hhere : forall adv p pv s0 m,
            match_here fl r adv (start_state p pv s0) = Some m ->
            exists pre w,
              s0 = pre ++ w ++ rest (m_final m)
              /\ m_start m = (p + List.length pre)%nat
              /\ m_end m = (m_start m + List.length w)%nat
              /\ lang fl r w).
  { intros adv p pv s0 m E.
    apply match_here_lang in E as (w & E1 & [E2 E3] & L).
    cbn [pos rest start_state] in *. exists [], w.
    cbn [app List.length]. unfold m_end. repeat split; try assumption; lia. }
  induction s as [|c s IH]; intros adv p pv m; cbn [scan];
    destruct (match_here fl r adv (start_state p pv _)) as [m0|] eqn:E;
    try discriminate.
  - intros [= <-]. eapply Hhere. exact E.
  - intros [= <-]. eapply Hhere. exact E.
  - intros H. apply IH in H as (pre & w & E1 & E2 & E3 & L).
    exists (c :: pre), w. cbn [app List.length].
    repeat split; try assumption; [f_equal; exact E1 | lia].
Qed.


Lemma slice_middle (pre w post : str) :
  slice (pre ++ w ++ post) (List.length pre) (List.length pre + List.length w)
  = w.
Proof.
  unfold slice.
  replace (List.length pre + List.length w - List.length pre)%nat
    with (List.length w) by lia.
  change (take (length w) (drop (length pre) (pre ++ w ++ post)) = w).
  rewrite drop_app_length, take_app_length. reflexivity.
Qed.

(** What [re.search] finds: [m.group()] is a piece of the text that
    the pattern reads. *)
Lemma search_lang fl r text m :
  re_search fl r text = Some m ->
  exists pre post,
    text = pre ++ group0 text m ++ post
    /\ m_start m = List.length pre
    /\ lang fl r (group0 text m).
Proof.
  unfold re_search. intros H.
  apply scan_lang in H as (pre & w & E1 & E2 & E3 & L).
  cbn [Nat.add] in E2.
  assert (Eg : group0 text m = w).
  { unfold group0. rewrite E3, E2. rewrite E1 at 1. apply slice_middle. }
  rewrite Eg. exists pre, (rest (m_final m)). auto.
Qed.


End ReLang.

(* ===================================================================== *)
(** * Reference parsing: the fields of a reference *)
(* ===================================================================== *)

Module FieldFacts.

Import Py Re ReSyntax ReFacts ReLang StripFacts reference_parser.

Local Open Scope N_scope.

Lemma digit_class x :
  class_matches no_flags false [CDigit false] x = is_decimal x.
Proof.
  unfold class_matches, item_matches. cbn [List.existsb xorb].
  destruct (is_decimal x); reflexivity.
Qed.

Lemma space_class x :
  class_matches no_flags false [CSpace false] x = is_space x.
Proof.
  unfold class_matches, item_matches. cbn [List.existsb xorb].
  destruct (is_space x); reflexivity.
Qed.

Lemma not_space_class x :
  class_matches no_flags true [CSpace false] x = negb (is_space x).
Proof.
  unfold class_matches, item_matches. cbn [List.existsb xorb].
  destruct (is_space x); reflexivity.
Qed.

Lemma lit_plain c x : lit_matches no_flags c x = true -> x = c.
Proof. unfold lit_matches. cbn [IGNORECASE no_flags]. apply N.eqb_eq. Qed.

Lemma decimal_value_le c : is_decimal c = true -> decimal_value c <= 9.
Proof.
  unfold is_decimal, decimal_value, in_range.
  rewrite !orb_true_iff, !andb_true_iff, !N.leb_le. intros H.
  repeat match goal with
         | |- context [if ?b then _ else _] => destruct b eqn:?
         end;
    repeat match goal with
           | H : (_ && _) = true |- _ => apply andb_true_iff in H as [? ?]
           | H : (_ && _) = false |- _ => apply andb_false_iff in H
           | H : (_ <=? _) = true |- _ => apply N.leb_le in H
           | H : (_ <=? _) = false |- _ => apply N.leb_gt in H
           end; lia.
Qed.

Lemma decimal_not_space c : is_decimal c = true -> is_space c = false.
Proof.
  intros H. apply not_true_is_false. intros S. revert H S.
  unfold is_decimal, is_space, in_range.
  rewrite !orb_true_iff, !andb_true_iff, !N.leb_le, !N.eqb_eq. lia.
Qed.

Lemma rstrip_by_fixed p s :
  match List.rev s with c :: _ => p c = false | [] => True end ->
  rstrip_by p s = s.
Proof.
  intros H. unfold rstrip_by. rewrite lstrip_by_fixed by exact H.
  apply List.rev_involutive.
Qed.

Lemma int_digits_step acc x r :
  is_decimal x = true ->
  int_digits acc (x :: r) = int_digits (10 * acc + decimal_value x) r.
Proof. intros H. cbn [int_digits]. rewrite H. reflexivity. Qed.

(** ** The year *)

Lemma year_pattern :
  rx (u "\b(19|20)\d{2}\b")
  = Cat (WordB false)
      (Cat (Group 1 (Or (Cat (Lit 49) (Lit 57)) (Cat (Lit 50) (Lit 48))))
         (Cat (Repeat (Class false [CDigit false]) 2 (Some 2%nat) true)
            (WordB false))).
Proof. vm_compute. reflexivity. Qed.

(** What the year pattern reads: [19] or [20] and two digits. *)
Definition year_text (w : str) : Prop :=
  exists c d,
    (w = [49; 57; c; d] \/ w = [50; 48; c; d])
    /\ is_decimal c = true /\ is_decimal d = true.

Lemma year_lang w :
  lang no_flags (rx (u "\b(19|20)\d{2}\b")) w -> year_text w.
Proof.
  rewrite year_pattern. cbn [lang].
  intros (w1 & w2 & -> & -> & w3 & w4 & -> & Hg & w5 & w6 & ->
          & (ws & -> & Fws & Hlo & Hhi) & ->).
  cbn [from_option] in Hhi.
  destruct ws as [|a [|b [|c ws]]]; cbn [List.length] in Hlo, Hhi; try lia.
  apply Forall_cons in Fws as [(x & -> & Hx) Fws].
  apply Forall_cons in Fws as [(y & -> & Hy) _].
  rewrite digit_class in Hx, Hy.
  exists x, y. split; [|split; assumption].
  destruct Hg as [(v1 & v2 & -> & (a1 & -> & H1) & (a2 & -> & H2))
                 |(v1 & v2 & -> & (a1 & -> & H1) & (a2 & -> & H2))];
    apply lit_plain in H1, H2; subst; [left | right]; reflexivity.
Qed.

Lemma int_year w :
  year_text w -> exists y, int w = Some y /\ 1900 <= y <= 2099.
Proof.
  intros (c & d & Hw & Hc & Hd).
  assert (Hs : strip w = w).
  { unfold strip.
    rewrite (lstrip_by_fixed is_space w)
      by (destruct Hw as [-> | ->]; reflexivity).
    apply rstrip_by_fixed.
    destruct Hw as [-> | ->]; cbn [List.rev app];
      apply decimal_not_space; exact Hd. }
  pose proof (decimal_value_le c Hc). pose proof (decimal_value_le d Hd).
  unfold int. rewrite Hs.
  destruct Hw as [-> | ->].
  - rewrite (int_digits_step _ 49 _ eq_refl), (int_digits_step _ 57 _ eq_refl),
      (int_digits_step _ _ _ Hc), (int_digits_step _ _ _ Hd).
    cbn [int_digits]. eexists. split; [reflexivity|].
    change (decimal_value 49) with 1. change (decimal_value 57) with 9. lia.
  - rewrite (int_digits_step _ 50 _ eq_refl), (int_digits_step _ 48 _ eq_refl),
      (int_digits_step _ _ _ Hc), (int_digits_step _ _ _ Hd).
    cbn [int_digits]. eexists. split; [reflexivity|].
    change (decimal_value 50) with 2. change (decimal_value 48) with 0. lia.
Qed.

(** ** A pattern that is one group *)

(** Where the whole pattern is group [n], [m.group(n)] is [m.group()]. *)
Lemma match_here_whole_group fl n r1 adv st text m :
  match_here fl (Group n r1) adv st = Some m ->
  group text m n = Some (group0 text m).
Proof.
  unfold match_here. cbn [run].
  destruct (run fl r1 st _) as [res|] eqn:E; [|discriminate].
  intros [= <-].
  apply run_lang in E as (st2 & w & H & _ & _).
  cbn [pos set_cap] in H.
  destruct (adv && (pos st2 =? pos st)%nat); [discriminate|].
  injection H as <-.
  unfold group, group0, m_end.
  cbn [m_final m_start caps set_cap lookup_cap pos].
  rewrite Nat.eqb_refl. reflexivity.
Qed.

Lemma scan_whole_group fl n r1 text s :
  forall adv p pv m,
    scan fl (Group n r1) adv p pv s = Some m ->
    group text m n = Some (group0 text m).
Proof.
  induction s as [|c s IH]; intros adv p pv m; cbn [scan];
    destruct (match_here fl (Group n r1) adv (start_state p pv _))
      as [m0|] eqn:E; try discriminate.
  - intros [= <-]. eapply match_here_whole_group. exact E.
  - intros [= <-]. eapply match_here_whole_group. exact E.
  - apply IH.
Qed.

Lemma singletons (P : N -> bool) (ws : list str) :
  Forall (fun w => exists x, w = [x] /\ P x = true) ws ->
  List.length (List.concat ws) = List.length ws
  /\ Forall (fun x => P x = true) (List.concat ws).
Proof.
  induction 1 as [|w ws (x & -> & Hx) _ [IH1 IH2]]; [split; [reflexivity|constructor]|].
  cbn [List.concat app List.length]. split; [f_equal; exact IH1|].
  apply Forall_cons. split; assumption.
Qed.

Lemma lstrip_by_app_keep p x c y :
  p c = false -> lstrip_by p (x ++ c :: y) = lstrip_by p x ++ c :: y.
Proof.
  intros Pc. induction x as [|a x IH]; cbn [app lstrip_by].
  - rewrite Pc. reflexivity.
  - destruct (p a); [exact IH | reflexivity].
Qed.

Lemma rstrip_by_app_keep p x c y :
  p c = false -> rstrip_by p (x ++ c :: y) = x ++ c :: rstrip_by p y.
Proof.
  intros Pc. unfold rstrip_by.
  rewrite List.rev_app_distr. cbn [List.rev].
  rewrite <- List.app_assoc. cbn [app].
  rewrite (lstrip_by_app_keep p (List.rev y) c (List.rev x) Pc).
  rewrite List.rev_app_distr. cbn [List.rev].
  rewrite List.rev_involutive, <- List.app_assoc. reflexivity.
Qed.

(** ** The DOI *)

Lemma doi_pattern :
  rx (u "(10\.\d{4,}/[^\s]+)")
  = Group 1
      (Cat (Lit 49)
         (Cat (Lit 48)
            (Cat (Lit 46)
               (Cat (Repeat (Class false [CDigit false]) 4 None true)
                  (Cat (Lit 47)
                     (Repeat (Class true [CSpace false]) 1 None true)))))).
Proof. vm_compute. reflexivity. Qed.

(** A DOI as the parser keeps it: [10.], four digits or more, a slash
    and a tail without white space that does not end in a period. *)
Definition doi_text (d : str) : Prop :=
  exists digits tail,
    d = u "10." ++ digits ++ [47] ++ tail
    /\ (4 <= List.length digits)%nat
    /\ Forall (fun x => is_decimal x = true) digits
    /\ Forall (fun x => is_space x = false) tail
    /\ (forall t, tail <> t ++ [46]).

Lemma doi_lang w :
  lang no_flags (rx (u "(10\.\d{4,}/[^\s]+)")) w ->
  doi_text (rstrip_chars (u ".") w).
Proof.
  rewrite doi_pattern. cbn [lang].
  intros (w1 & w2 & -> & (a1 & -> & H1) & w3 & w4 & -> & (a2 & -> & H2)
          & w5 & w6 & -> & (a3 & -> & H3)
          & w7 & w8 & -> & (ds & -> & Fds & Hds & _)
          & w9 & w10 & -> & (a4 & -> & H4) & (ts & -> & Fts & _ & _)).
  apply lit_plain in H1, H2, H3, H4. subst.
  apply (singletons (class_matches no_flags false [CDigit false])) in Fds
    as [Lds Fds].
  apply (singletons (class_matches no_flags true [CSpace false])) in Fts
    as [_ Fts].
  assert (Fds' : Forall (fun x => is_decimal x = true) (List.concat ds))
    by (eapply Forall_impl; [exact Fds|];
        intros x Hx; cbn beta in Hx; rewrite digit_class in Hx; exact Hx).
  assert (Fts' : Forall (fun x => is_space x = false) (List.concat ts))
    by (eapply Forall_impl; [exact Fts|];
        intros x Hx; cbn beta in Hx; rewrite not_space_class in Hx;
        apply negb_true_iff; exact Hx).
  clear Fds Fts.
  unfold rstrip_chars.
  change ([49] ++ [48] ++ [46] ++ List.concat ds ++ [47] ++ List.concat ts)
    with (([49; 48; 46] ++ List.concat ds) ++ 47 :: List.concat ts).
  rewrite rstrip_by_app_keep by reflexivity.
  exists (List.concat ds), (rstrip_by (fun c => mem_char c (u ".")) (List.concat ts)).
  split; [rewrite <- List.app_assoc; reflexivity|].
  split; [rewrite Lds; exact Hds|]. split; [exact Fds'|]. split.
  - destruct (rstrip_by_split (fun c => mem_char c (u ".")) (List.concat ts))
      as (suf & E & _).
    rewrite E in Fts'. apply Forall_app in Fts' as [Fts' _]. exact Fts'.
  - intros t E. apply rstrip_by_last in E. discriminate E.
Qed.

(** ** The authors *)

Lemma authors_ok (pieces : list str) :
  let authors :=
    List.firstn 10
      (List.map strip
         (List.filter (fun a => (1 <? len (strip a))%nat) pieces)) in
  (len authors <= 10)%nat
  /\ Forall (fun a => strip a = a /\ (1 < len a)%nat) authors.
Proof.
  cbv zeta. split; [apply List.firstn_le_length|].
  apply Forall_take. apply Forall_forall. intros a Ha.
  apply list_elem_of_In, List.in_map_iff in Ha as (b & <- & Hb).
  apply List.filter_In in Hb as [_ Hb]. apply Nat.ltb_lt in Hb.
  split; [apply strip_strip | exact Hb].
Qed.

(** ** One reference *)

(** The fields of a reference parsed from [text] with number [n]. *)
Definition parsed_from (text : str) (n : N) (r : Reference) : Prop :=
  raw_text r = text
  /\ order r = n
  /\ venue r = None
  /\ from_option (fun y => 1900 <= y <= 2099) True (year r)
  /\ from_option doi_text True (doi r)
  /\ (len (authors r) <= 10)%nat
  /\ Forall (fun a => strip a = a /\ (1 < len a)%nat) (authors r).

Lemma title_pattern_sets_group :
  always_sets 1 (rx title_pattern) = true.
Proof. vm_compute. reflexivity. Qed.

Lemma _parse_single_reference_fields text n :
  exists r, _parse_single_reference text n = Some r /\ parsed_from text n r.
Proof.
  unfold _parse_single_reference.
  (* the year *)
  assert (Hy : exists y,
            match re_search no_flags (rx (u "\b(19|20)\d{2}\b")) text with
            | Some m => y ← int (group0 text m); Some (Some y)
            | None => Some None
            end = Some y
            /\ from_option (fun y => 1900 <= y <= 2099) True y).
  { destruct (re_search no_flags (rx (u "\b(19|20)\d{2}\b")) text)
      as [m|] eqn:E; [|exists None; split; [reflexivity | exact I]].
    apply search_lang in E as (_ & _ & _ & _ & L).
    apply year_lang, int_year in L as (y & -> & Hy).
    exists (Some y). split; [reflexivity | exact Hy]. }
  destruct Hy as (y & -> & Hy). cbn [mbind option_bind].
  (* the DOI *)
  assert (Hd : exists d,
            match re_search no_flags (rx (u "(10\.\d{4,}/[^\s]+)")) text with
            | Some m => g ← group text m 1; Some (Some (rstrip_chars (u ".") g))
            | None => Some None
            end = Some d
            /\ from_option doi_text True d).
  { destruct (re_search no_flags (rx (u "(10\.\d{4,}/[^\s]+)")) text)
      as [m|] eqn:E; [|exists None; split; [reflexivity | exact I]].
    pose proof E as E'. apply search_lang in E' as (_ & _ & _ & _ & L).
    unfold re_search in E. rewrite doi_pattern in E.
    apply (scan_whole_group _ _ _ text) in E. rewrite E.
    eexists. split; [reflexivity|]. apply doi_lang. exact L. }
  destruct Hd as (d & -> & Hd). cbn [mbind option_bind].
  (* the title *)
  assert (Ht : exists t,
            match re_search no_flags (rx title_pattern) text with
            | Some m => g ← group text m 1; Some (Some g)
            | None =>
                match split_plain no_flags (rx (u "\.\s+")) text 3 with
                | _ :: p1 :: _ =>
                    Some (if (10 <? len p1)%nat then Some (strip p1) else None)
                | _ => Some None
                end
            end = Some t).
  { destruct (re_search no_flags (rx title_pattern) text) as [m|] eqn:E.
    - apply (search_grouped _ _ 1) in E.
      destruct (group_is_Some _ _ text _ E title_pattern_sets_group)
        as [g ->]. eexists. reflexivity.
    - destruct (split_plain _ _ _ _) as [|p0 [|p1 ps]]; eexists; reflexivity. }
  destruct Ht as (t & ->). cbn [mbind option_bind].
  eexists. split; [reflexivity|].
  unfold parsed_from. cbn [raw_text order venue year doi authors].
  split; [reflexivity|]. split; [reflexivity|]. split; [reflexivity|].
  split; [exact Hy|]. split; [exact Hd|].
  match goal with
  | |- context [match ?a with [] => [] | _ :: _ => List.firstn 10 ?l end] =>
      destruct a; [split; [cbn; lia | constructor]|]
  end.
  apply authors_ok.
Qed.

End FieldFacts.

(* ===================================================================== *)
(** * Reference parsing: the list of references *)
(* ===================================================================== *)

Module ListFacts.

Import Py Re ReSyntax ReFacts ReLang StripFacts reference_parser.
Import FieldFacts ReferenceFacts EntityFacts.

(** A loop keeps what each of its steps keeps. *)
Lemma for_each_keeps {A S} (I : S -> Prop) (body : S -> A -> option S) l :
  (forall s x s', body s x = Some s' -> I s -> I s') ->
  forall s s', for_each body l s = Some s' -> I s -> I s'.
Proof.
  intros Hb. induction l as [|x l IH]; intros s s'; cbn [for_each].
  - intros [= <-] H. exact H.
  - destruct (body s x) as [s1|] eqn:E; [|discriminate].
    cbn [mbind option_bind]. intros H Hs. apply (IH s1 s' H).
    apply (Hb s x s1 E Hs).
Qed.

(** A reference of the result: parsed from its own [raw_text], which
    is not empty and carries no surrounding white space. *)
Definition well_formed (r : Reference) : Prop :=
  _parse_single_reference (raw_text r) (order r) = Some r
  /\ raw_text r <> [] /\ strip (raw_text r) = raw_text r.

Lemma parsed_well_formed t n r :
  t <> [] -> strip t = t ->
  _parse_single_reference t n = Some r -> well_formed r.
Proof.
  intros Hne Hs E.
  destruct (_parse_single_reference_fields t n) as (r0 & E0 & H0).
  rewrite E0 in E. injection E as <-.
  pose proof H0 as (Hr & Ho & _). unfold well_formed.
  rewrite Hr, Ho. auto.
Qed.

Lemma flush_cases st :
  exists refs,
    flush st = Some refs
    /\ (refs = references st
        \/ exists r, refs = references st ++ [r]
                     /\ _parse_single_reference (strip (current_ref st))
                          (ref_num st) = Some r
                     /\ strip (current_ref st) <> []).
Proof.
  unfold flush. destruct (strip (current_ref st)) as [|c t] eqn:E.
  - eexists. split; [reflexivity | left; reflexivity].
  - destruct (_parse_single_reference_fields (c :: t) (ref_num st))
      as (r & Er & _).
    rewrite Er. cbn [mbind option_bind]. eexists. split; [reflexivity|].
    right. exists r. split; [reflexivity|]. split; [reflexivity | discriminate].
Qed.

Lemma flush_well_formed st :
  Forall well_formed (references st) ->
  exists refs, flush st = Some refs /\ Forall well_formed refs.
Proof.
  intros H. destruct (flush_cases st) as (refs & E & [->|(r & -> & Er & Hne)]).
  - eauto.
  - exists (references st ++ [r]). split; [exact E|].
    apply Forall_app. split; [exact H|]. apply Forall_singleton.
    apply (parsed_well_formed _ _ _ Hne (strip_strip _) Er).
Qed.

Lemma ref_step_well_formed st block st' :
  ref_step st block = Some st' ->
  Forall well_formed (references st) -> Forall well_formed (references st').
Proof.
  unfold ref_step. destruct block as [block|]; [|intros [= <-] H; exact H].
  destruct (isdigit (strip block)).
  - intros E H. destruct (flush_well_formed st H) as (refs & Ef & Hr).
    rewrite Ef in E. cbn [mbind option_bind] in E.
    destruct (int (strip block)) as [n|]; [|discriminate].
    cbn [mbind option_bind] in E. injection E as <-. exact Hr.
  - intros [= <-] H. exact H.
Qed.

Lemma line_step_well_formed acc line acc' :
  line_step acc line = Some acc' ->
  Forall well_formed (fst acc) -> Forall well_formed (fst acc').
Proof.
  unfold line_step. destruct acc as [refs i].
  destruct (20 <? len (strip line))%nat eqn:L.
  - destruct (_parse_single_reference (strip line) (i + 1)) as [r|] eqn:Er;
      [|discriminate].
    cbn [mbind option_bind]. intros [= <-] H. cbn [fst] in *.
    apply Forall_app. split; [exact H|]. apply Forall_singleton.
    apply (parsed_well_formed (strip line) (i + 1)%N);
      [|apply strip_strip | exact Er].
    apply Nat.ltb_lt in L. destruct (strip line); [cbn in L; lia | discriminate].
  - intros [= <-] H. exact H.
Qed.

Lemma parse_references_well_formed text refs :
  parse_references text = Some refs -> Forall well_formed refs.
Proof.
  unfold parse_references.
  destruct (for_each ref_step _ _) as [st|] eqn:E; [|discriminate].
  cbn [mbind option_bind].
  apply (for_each_keeps (fun st => Forall well_formed (references st))) in E;
    [|apply ref_step_well_formed | constructor].
  destruct (flush_well_formed st E) as (rs & -> & Hrs).
  cbn [mbind option_bind].
  destruct rs as [|r rs]; [|intros [= <-]; exact Hrs].
  destruct (for_each line_step _ _) as [acc|] eqn:El; [|discriminate].
  cbn [mbind option_bind]. intros [= <-].
  apply (for_each_keeps (fun acc => Forall well_formed (fst acc))) in El;
    [exact El | apply line_step_well_formed | constructor].
Qed.

(** ** Exceptions *)












(** ** Text without markers *)






End ListFacts.


(** X13. Every reference [parse_references] returns has a [raw_text]
    that is not empty and carries no surrounding white space, and is
    the reference [_parse_single_reference] builds from that text and
    its own number: no venue, a year between 1900 and 2099 if any, at
    most 10 authors. *)
Theorem parse_references_entries (text : Py.str)
    (refs : list reference_parser.Reference) :
  reference_parser.parse_references text = Some refs ->
  Forall
    (fun r =>
       reference_parser.raw_text r <> []
       /\ Py.strip (reference_parser.raw_text r) = reference_parser.raw_text r
       /\ reference_parser._parse_single_reference
            (reference_parser.raw_text r) (reference_parser.order r)
          = Some r
       /\ reference_parser.venue r = None
       /\ from_option (fun y => (1900 <= y <= 2099)%N) True
            (reference_parser.year r)
       /\ (len (reference_parser.authors r) <= 10)%nat)
    refs.
Proof.
  intros E. apply ListFacts.parse_references_well_formed in E.
  eapply Forall_impl; [exact E|].
  intros r (Er & Hne & Hs).
  destruct (FieldFacts._parse_single_reference_fields
              (reference_parser.raw_text r) (reference_parser.order r))
    as (r0 & E0 & _ & _ & Hv & Hy & _ & Ha & _).
  rewrite Er in E0. injection E0 as <-. auto 10.
Qed.

Lemma parse_references_entries_witness :
  Forall
    (fun r =>
       reference_parser.raw_text r <> []
       /\ Py.strip (reference_parser.raw_text r) = reference_parser.raw_text r
       /\ reference_parser._parse_single_reference
            (reference_parser.raw_text r) (reference_parser.order r)
          = Some r
       /\ reference_parser.venue r = None
       /\ from_option (fun y => (1900 <= y <= 2099)%N) True
            (reference_parser.year r)
       /\ (len (reference_parser.authors r) <= 10)%nat)
    [ {| reference_parser.raw_text := smith_doe;
         reference_parser.title := None;
         reference_parser.authors :=
           [ Py.u "[1] Smith"; Py.u "J."; Py.u "Doe";
             Py.u "A. Deep Learning. NeurIPS" ];
         reference_parser.year := Some 2019%N;
         reference_parser.venue := None;
         reference_parser.doi := None;
         reference_parser.order := 0%N |} ].
Proof.
  apply (parse_references_entries smith_doe). vm_compute. reflexivity.
Defined.





(* ===================================================================== *)
(** * Relationship extraction: what a relationship is made of *)
(* ===================================================================== *)

Module KindFacts.

Import Py relation_extractor RelationFacts PairFacts.

(** The relation types of the lexical patterns, and those of the type
    heuristics. *)
Definition pattern_types : list str :=
  [ u "uses"; u "evaluates_on"; u "improves"; u "comparative"; u "part_of" ].

Definition heuristic_types : list str :=
  [ u "evaluates_on"; u "uses"; u "comparative"; u "improves"; u "causal" ].

Lemma pattern_types_table :
  List.map fst RELATION_INDICATORS = pattern_types.
Proof. vm_compute. reflexivity. Qed.

Lemma first_relation_elem src_esc tgt_esc text_lower table t :
  first_relation src_esc tgt_esc text_lower table = Some (Some t) ->
  t ∈ List.map fst table.
Proof.
  induction table as [|[rel_type patterns] table IH]; cbn [first_relation];
    [discriminate|].
  destruct (first_pattern src_esc tgt_esc text_lower patterns) as [[|]|];
    cbn [mbind option_bind]; [| |discriminate].
  - intros [= <-]. left.
  - intros H. right. apply IH. exact H.
Qed.

Lemma _check_pattern_relation_elem src_text tgt_text context t :
  _check_pattern_relation src_text tgt_text context = Some (Some t) ->
  t ∈ pattern_types.
Proof.
  unfold _check_pattern_relation. intros H.
  apply first_relation_elem in H. rewrite pattern_types_table in H. exact H.
Qed.

Lemma TYPE_RELATIONS_elem pair t :
  TYPE_RELATIONS !! pair = Some t -> t ∈ heuristic_types.
Proof.
  unfold TYPE_RELATIONS. intros H.
  apply elem_of_list_to_map_2 in H.
  apply list_elem_of_In in H. apply list_elem_of_In.
  cbn [In] in H. unfold heuristic_types. cbn [In].
  repeat (destruct H as [H|H]; [injection H as _ <-; tauto|]).
  contradiction.
Qed.

(** [r] was made for the pair [(e1, e2)]: it runs between the two
    texts in one direction or the other, and carries the type and the
    confidence of the lexical patterns or of the type heuristics. *)
Definition made_for (e1 e2 : Entity) (r : Relationship) : Prop :=
  exists s t ty conf,
    r = relationship s t ty conf
    /\ ((s = text e1 /\ t = text e2) \/ (s = text e2 /\ t = text e1))
    /\ ((conf = (7 # 10)%Q /\ ty ∈ pattern_types)
        \/ (conf = (1 # 2)%Q /\ ty ∈ heuristic_types)).

Lemma pair_step_made context e1 e2 st :
  pair_step context e1 e2 st = None
  \/ pair_step context e1 e2 st = Some st
  \/ exists r,
       pair_step context e1 e2 st
       = Some (record st (lower (text e1), lower (text e2)) r)
       /\ made_for e1 e2 r.
Proof.
  unfold pair_step.
  destruct (bool_decide _); [right; left; reflexivity|].
  destruct (_check_pattern_relation (text e1) (text e2) context)
    as [[t|]|] eqn:E1; [| |left; reflexivity].
  { right. right. eexists. split; [reflexivity|].
    eexists _, _, _, _. split; [reflexivity|]. split; [left; split; reflexivity|].
    left. split; [reflexivity|]. eapply _check_pattern_relation_elem. exact E1. }
  destruct (_check_pattern_relation (text e2) (text e1) context)
    as [[t|]|] eqn:E2; [| |left; reflexivity].
  { right. right. eexists. split; [reflexivity|].
    eexists _, _, _, _. split; [reflexivity|]. split; [right; split; reflexivity|].
    left. split; [reflexivity|]. eapply _check_pattern_relation_elem. exact E2. }
  destruct (_entities_co_occur (text e1) (text e2) context 250)
    as [[|]|]; [| |left; reflexivity]; [|right; left; reflexivity].
  cbn [mbind option_bind fst snd].
  destruct (TYPE_RELATIONS !! (entity_type e1, entity_type e2)) as [t|] eqn:T1.
  { right. right. eexists. split; [reflexivity|].
    eexists _, _, _, _. split; [reflexivity|]. split; [left; split; reflexivity|].
    right. split; [reflexivity|]. eapply TYPE_RELATIONS_elem. exact T1. }
  destruct (TYPE_RELATIONS !! (entity_type e2, entity_type e1)) as [t|] eqn:T2.
  { right. right. eexists. split; [reflexivity|].
    eexists _, _, _, _. split; [reflexivity|]. split; [right; split; reflexivity|].
    right. split; [reflexivity|]. eapply TYPE_RELATIONS_elem. exact T2. }
  right. left. reflexivity.
Qed.

Lemma pair_loop_made context pairs :
  forall st st',
    for_each (fun st '(e1, e2) => pair_step context e1 e2 st) pairs st
    = Some st' ->
    exists added,
      relationships st' = relationships st ++ added
      /\ Forall (fun r => exists e1 e2, (e1, e2) ∈ pairs /\ made_for e1 e2 r)
           added
      /\ (List.length added <= List.length pairs)%nat.
Proof.
  induction pairs as [|[e1 e2] pairs IH]; intros st st'.
  - intros [= <-]. exists []. rewrite List.app_nil_r.
    split; [reflexivity|]. split; [constructor | cbn; lia].
  - cbn [for_each].
    destruct (pair_step context e1 e2 st) as [st1|] eqn:E; [|discriminate].
    cbn [mbind option_bind]. intros H.
    apply IH in H as (added & H & Ha & Hl).
    assert (Ha' : Forall (fun r => exists a b,
                            (a, b) ∈ (e1, e2) :: pairs /\ made_for a b r)
                    added).
    { eapply Forall_impl; [exact Ha|]. intros r (a & b & Hab & Hm).
      exists a, b. split; [right; exact Hab | exact Hm]. }
    destruct (pair_step_made context e1 e2 st) as [E'|[E'|(r & E' & Hm)]];
      rewrite E' in E; [discriminate| |]; injection E as <-.
    + exists added. split; [exact H|]. split; [exact Ha'|].
      cbn [List.length]. lia.
    + exists (r :: added). rewrite record_relationships in H.
      split; [rewrite H, <- List.app_assoc; reflexivity|].
      split; [|cbn [List.length]; lia].
      apply Forall_cons. split; [|exact Ha'].
      exists e1, e2. split; [left | exact Hm].
Qed.

Lemma pairs_in_order_length l :
  (2 * List.length (pairs_in_order l)
   = List.length l * (List.length l - 1))%nat.
Proof.
  induction l as [|e l IH]; [reflexivity|].
  cbn [pairs_in_order]. rewrite List.length_app, List.length_map.
  cbn [List.length]. destruct l as [|e' l]; [reflexivity|].
  cbn [List.length] in *. nia.
Qed.

(** What the loop of [extract_relationships] returns. *)
Lemma extract_relationships_made entities context rels :
  extract_relationships entities context = Some rels ->
  Forall (fun r => exists e1 e2,
            (e1, e2) ∈ pairs_in_order (List.firstn 40 entities)
            /\ made_for e1 e2 r) rels
  /\ (List.length rels
      <= List.length (pairs_in_order (List.firstn 40 entities)))%nat.
Proof.
  unfold extract_relationships.
  destruct (len entities <? 2)%nat;
    [intros [= <-]; split; [constructor | cbn; lia]|].
  destruct (for_each _ _ _) as [st|] eqn:E; [|discriminate].
  cbn [mbind option_bind]. intros [= <-].
  apply pair_loop_made in E as (added & -> & Ha & Hl).
  cbn [relationships app]. split; assumption.
Qed.

(** ** Co-occurrence *)

Lemma abs_diff_comm a b : abs_diff a b = abs_diff b a.
Proof. unfold abs_diff. lia. Qed.

Lemma existsb_swap {A B} (f : A -> B -> bool) la lb :
  List.existsb (fun a => List.existsb (fun b => f a b) lb) la
  = List.existsb (fun b => List.existsb (fun a => f a b) la) lb.
Proof.
  apply eq_true_iff_eq. rewrite !List.existsb_exists. split.
  - intros (a & Ha & H). apply List.existsb_exists in H as (b & Hb & H).
    exists b. split; [exact Hb|]. apply List.existsb_exists. eauto.
  - intros (b & Hb & H). apply List.existsb_exists in H as (a & Ha & H).
    exists a. split; [exact Ha|]. apply List.existsb_exists. eauto.
Qed.

Lemma existsb_same {A} (f g : A -> bool) l :
  (forall a, f a = g a) -> List.existsb f l = List.existsb g l.
Proof.
  intros H. induction l as [|a l IH]; [reflexivity|].
  cbn [List.existsb]. rewrite H, IH. reflexivity.
Qed.

End KindFacts.

(** X16. Every relationship [extract_relationships] returns runs
    between the texts of two of the first 40 entities, in one direction
    or the other; its description is source, type and target separated
    by single spaces; its confidence is 0.7 with one of the five types
    of the lexical patterns, or 0.5 with one of the five types of the
    type heuristics. *)
Theorem extract_relationships_made_of
    (entities : list relation_extractor.Entity) (context : Py.str)
    (rels : list relation_extractor.Relationship) :
  relation_extractor.extract_relationships entities context = Some rels ->
  Forall
    (fun r =>
       (exists e1 e2,
          e1 ∈ List.firstn 40 entities /\ e2 ∈ List.firstn 40 entities
          /\ ((relation_extractor.source r = relation_extractor.text e1
               /\ relation_extractor.target r = relation_extractor.text e2)
              \/ (relation_extractor.source r = relation_extractor.text e2
                  /\ relation_extractor.target r = relation_extractor.text e1)))
       /\ relation_extractor.description r
          = relation_extractor.source r ++ Py.u " "
            ++ relation_extractor.relation_type r ++ Py.u " "
            ++ relation_extractor.target r
       /\ ((relation_extractor.confidence r = (7 # 10)%Q
            /\ relation_extractor.relation_type r
                 ∈ [ Py.u "uses"; Py.u "evaluates_on"; Py.u "improves";
                     Py.u "comparative"; Py.u "part_of" ])
           \/ (relation_extractor.confidence r = (1 # 2)%Q
               /\ relation_extractor.relation_type r
                    ∈ [ Py.u "evaluates_on"; Py.u "uses"; Py.u "comparative";
                        Py.u "improves"; Py.u "causal" ])))
    rels.
Proof.
  intros E. apply KindFacts.extract_relationships_made in E as [E _].
  eapply Forall_impl; [exact E|].
  intros r (e1 & e2 & Hp & s & t & ty & conf & -> & Hst & Hty).
  apply RelationFacts.pairs_in_order_elem in Hp as [H1 H2].
  split; [|split].
  - exists e1, e2. split; [exact H1|]. split; [exact H2|]. exact Hst.
  - reflexivity.
  - exact Hty.
Qed.

Lemma extract_relationships_made_of_witness :
  Forall
    (fun r =>
       (exists e1 e2,
          e1 ∈ List.firstn 40 [BERT; GLUE] /\ e2 ∈ List.firstn 40 [BERT; GLUE]
          /\ ((relation_extractor.source r = relation_extractor.text e1
               /\ relation_extractor.target r = relation_extractor.text e2)
              \/ (relation_extractor.source r = relation_extractor.text e2
                  /\ relation_extractor.target r = relation_extractor.text e1)))
       /\ relation_extractor.description r
          = relation_extractor.source r ++ Py.u " "
            ++ relation_extractor.relation_type r ++ Py.u " "
            ++ relation_extractor.target r
       /\ ((relation_extractor.confidence r = (7 # 10)%Q
            /\ relation_extractor.relation_type r
                 ∈ [ Py.u "uses"; Py.u "evaluates_on"; Py.u "improves";
                     Py.u "comparative"; Py.u "part_of" ])
           \/ (relation_extractor.confidence r = (1 # 2)%Q
               /\ relation_extractor.relation_type r
                    ∈ [ Py.u "evaluates_on"; Py.u "uses"; Py.u "comparative";
                        Py.u "improves"; Py.u "causal" ])))
    [bert_on_glue].
Proof.
  apply (extract_relationships_made_of [BERT; GLUE] evaluate_context).
  vm_compute. reflexivity.
Defined.

(** X17. [extract_relationships] looks at the first 40 entities only,
    and returns at most one relationship per pair of positions among
    them: at most [n (n - 1) / 2] for [n] entities, and never more than
    780. With fewer than two entities the list is empty. *)
Theorem extract_relationships_bounded
    (entities : list relation_extractor.Entity) (context : Py.str) :
  relation_extractor.extract_relationships entities context
  = relation_extractor.extract_relationships (List.firstn 40 entities) context
  /\ ((len entities < 2)%nat ->
      relation_extractor.extract_relationships entities context = Some [])
  /\ forall rels,
       relation_extractor.extract_relationships entities context = Some rels ->
       (2 * len rels
        <= Nat.min 40 (len entities) * (Nat.min 40 (len entities) - 1))%nat
       /\ (len rels <= 780)%nat.
Proof.
  split; [|split].
  - unfold relation_extractor.extract_relationships, len.
    rewrite List.firstn_firstn, Nat.min_id.
    rewrite List.length_firstn.
    destruct (List.length entities <? 2)%nat eqn:E.
    + apply Nat.ltb_lt in E.
      replace (Nat.min 40 (List.length entities) <? 2)%nat with true
        by (symmetry; apply Nat.ltb_lt; lia).
      reflexivity.
    + apply Nat.ltb_ge in E.
      replace (Nat.min 40 (List.length entities) <? 2)%nat with false
        by (symmetry; apply Nat.ltb_ge; lia).
      reflexivity.
  - intros H. unfold relation_extractor.extract_relationships.
    apply Nat.ltb_lt in H. rewrite H. reflexivity.
  - intros rels E. apply KindFacts.extract_relationships_made in E as [_ E].
    pose proof (KindFacts.pairs_in_order_length (List.firstn 40 entities)) as Hp.
    rewrite List.length_firstn in Hp. unfold len in *.
    set (n := Nat.min 40 (List.length entities)) in *.
    assert (Hn : (n <= 40)%nat) by (subst n; lia).
    split; [lia|]. nia.
Qed.

(** X18. Co-occurrence is symmetric: [_entities_co_occur] gives the
    same answer, or raises alike, when the two entity texts are
    exchanged. *)
Theorem entities_co_occur_symmetric
    (e1_text e2_text context : Py.str) (window : nat) :
  relation_extractor._entities_co_occur e1_text e2_text context window
  = relation_extractor._entities_co_occur e2_text e1_text context window.
Proof.
  unfold relation_extractor._entities_co_occur.
  destruct (relation_extractor.finditer_dyn
              (ReSyntax.escape (Py.lower e1_text)) (Py.lower context))
    as [ms1|];
    destruct (relation_extractor.finditer_dyn
                (ReSyntax.escape (Py.lower e2_text)) (Py.lower context))
      as [ms2|]; cbn [mbind option_bind]; try reflexivity.
  f_equal. rewrite KindFacts.existsb_swap.
  apply KindFacts.existsb_same. intros p2.
  apply KindFacts.existsb_same. intros p1.
  rewrite KindFacts.abs_diff_comm. reflexivity.
Qed.

(** Three entities, two of which are evaluated on the third. *)
Definition RoBERTa : relation_extractor.Entity :=
  {| relation_extractor.text := Py.u "RoBERTa";
     relation_extractor.entity_type := Py.u "method" |}.

Definition two_models_context : Py.str :=
  Py.u "We evaluate BERT on GLUE. We also evaluate RoBERTa on GLUE.".

(** X19. Among entities (the first 40) whose lower-case texts are
    pairwise distinct, [extract_relationships] returns at most one
    relationship per unordered pair of texts: two relationships at
    different positions of the result differ in their pair of
    lower-case ends, in whichever direction they run. *)
Theorem extract_relationships_one_per_text_pair
    (entities : list relation_extractor.Entity) (context : Py.str)
    (rels : list relation_extractor.Relationship) (i j : nat)
    (r1 r2 : relation_extractor.Relationship) :
  NoDup (List.map (fun e => Py.lower (relation_extractor.text e))
           (List.firstn 40 entities)) ->
  relation_extractor.extract_relationships entities context = Some rels ->
  i <> j -> rels !! i = Some r1 -> rels !! j = Some r2 ->
  (Py.lower (relation_extractor.source r1),
   Py.lower (relation_extractor.target r1))
  <> (Py.lower (relation_extractor.source r2),
      Py.lower (relation_extractor.target r2))
  /\ (Py.lower (relation_extractor.source r1),
      Py.lower (relation_extractor.target r1))
     <> (Py.lower (relation_extractor.target r2),
         Py.lower (relation_extractor.source r2)).
Proof.
  intros Hk E Hij H1 H2.
  exact (PairFacts.extract_relationships_one_per_pair
           entities context rels i j r1 r2 Hk E Hij H1 H2).
Qed.

Lemma extract_relationships_one_per_text_pair_witness :
  (Py.u "bert", Py.u "glue") <> (Py.u "roberta", Py.u "glue")
  /\ (Py.u "bert", Py.u "glue") <> (Py.u "glue", Py.u "roberta").
Proof.
  apply (extract_relationships_one_per_text_pair
           [BERT; GLUE; RoBERTa] two_models_context
           [ relation_extractor.relationship (Py.u "BERT") (Py.u "GLUE")
               (Py.u "evaluates_on") (7 # 10);
             relation_extractor.relationship (Py.u "RoBERTa") (Py.u "GLUE")
               (Py.u "evaluates_on") (7 # 10) ]
           0 1
           (relation_extractor.relationship (Py.u "BERT") (Py.u "GLUE")
              (Py.u "evaluates_on") (7 # 10))
           (relation_extractor.relationship (Py.u "RoBERTa") (Py.u "GLUE")
              (Py.u "evaluates_on") (7 # 10))).
  - vm_compute. apply (bool_decide_unpack (NoDup _)). vm_compute. exact I.
  - vm_compute. reflexivity.
  - discriminate.
  - reflexivity.
  - reflexivity.
Defined.

(* ===================================================================== *)
(** * Entity recognition: what an entity is made of *)
(* ===================================================================== *)

Module OccursFacts.

Import Py Re ReSyntax StripFacts.

(** [s] is a piece of [t]: [s in t]. *)
Definition occurs (s t : str) : Prop := exists pre post, t = pre ++ s ++ post.

Lemma occurs_refl s : occurs s s.
Proof. exists [], []. rewrite List.app_nil_r. reflexivity. Qed.

Lemma occurs_trans s t v : occurs s t -> occurs t v -> occurs s v.
Proof.
  intros (p1 & q1 & ->) (p2 & q2 & ->).
  exists (p2 ++ p1), (q1 ++ q2). rewrite <- !List.app_assoc. reflexivity.
Qed.

Lemma occurs_take n (s : str) : occurs (List.firstn n s) s.
Proof.
  exists [], (List.skipn n s). cbn [app]. symmetry. apply List.firstn_skipn.
Qed.

Lemma occurs_drop n (s : str) : occurs (List.skipn n s) s.
Proof.
  exists (List.firstn n s), []. rewrite List.app_nil_r.
  symmetry. apply List.firstn_skipn.
Qed.

Lemma occurs_slice (text : str) a b : occurs (slice text a b) text.
Proof.
  unfold slice. eapply occurs_trans; [apply occurs_take | apply occurs_drop].
Qed.

Lemma occurs_lstrip_by p s : occurs (lstrip_by p s) s.
Proof.
  destruct (lstrip_by_split p s) as (pre & E & _).
  exists pre, []. rewrite List.app_nil_r. exact E.
Qed.

Lemma occurs_rstrip_by p s : occurs (rstrip_by p s) s.
Proof.
  destruct (rstrip_by_split p s) as (suf & E & _).
  exists [], suf. exact E.
Qed.

Lemma occurs_strip s : occurs (strip s) s.
Proof.
  unfold strip. eapply occurs_trans;
    [apply occurs_rstrip_by | apply occurs_lstrip_by].
Qed.

Lemma occurs_group text m g s : group text m g = Some s -> occurs s text.
Proof.
  unfold group. destruct (lookup_cap g _) as [[a b]|]; [|discriminate].
  intros [= <-]. apply occurs_slice.
Qed.

Lemma occurs_group0 text m : occurs (group0 text m) text.
Proof. apply occurs_slice. Qed.

Lemma split_pieces_occur text n ms :
  forall last,
    Forall (fun piece => from_option (fun s => occurs s text) True piece)
      (split_pieces text n last ms).
Proof.
  induction ms as [|m ms IH]; intros last; cbn [split_pieces].
  - apply Forall_singleton. cbn. apply occurs_drop.
  - apply Forall_cons. split; [cbn; apply occurs_slice|].
    apply Forall_app. split; [|apply IH].
    unfold groups. apply Forall_forall. intros piece Hp.
    apply list_elem_of_In, List.in_map_iff in Hp as (g & <- & _).
    destruct (group text m g) as [s|] eqn:E; [|exact I].
    cbn. eapply occurs_group. exact E.
Qed.

Lemma split_plain_occur fl r text maxsplit :
  Forall (fun s => occurs s text) (split_plain fl r text maxsplit).
Proof.
  unfold split_plain. apply Forall_forall. intros s Hs.
  apply list_elem_of_omap in Hs as (piece & Hp & E).
  cbn in E. subst piece.
  pose proof (split_pieces_occur text 0 (limit maxsplit (finditer fl r text)) 0)
    as H.
  rewrite Forall_forall in H. exact (H _ Hp).
Qed.

Lemma occurs_length s t : occurs s t -> (List.length s <= List.length t)%nat.
Proof. intros (pre & post & ->). rewrite !List.length_app. lia. Qed.

End OccursFacts.

Module EntityKindFacts.

Import Py Re ReSyntax ReFacts StripFacts OccursFacts ListFacts.
Import entity_recognizer EntityFacts.

Lemma len_strip_lower s : len (strip (lower s)) = len (strip s).
Proof. rewrite strip_lower. apply len_lower. Qed.

Section Kinds.

(** The txt searched, and a property of entities to establish. *)
Variables (txt : str) (P : Entity -> Prop).

Definition all_ok (a : acc) : Prop := Forall P (fst a).

Lemma emit_ok a key e : all_ok a -> P e -> all_ok (emit a key e).
Proof.
  intros Ha He. unfold all_ok, emit. cbn [fst].
  apply Forall_app. split; [exact Ha | apply Forall_singleton; exact He].
Qed.

Lemma match_step_kind entity_type a m a' :
  (forall matched,
     occurs matched txt -> (1 < len (strip matched))%nat ->
     P {| entity_recognizer.text := strip matched; entity_type := entity_type;
          confidence := 8 # 10 |}) ->
  match_step txt entity_type a m = Some a' -> all_ok a -> all_ok a'.
Proof.
  intros HP. unfold match_step.
  destruct (match lastindex m with
            | Some (S _) => group txt m 1
            | _ => Some (group0 txt m)
            end) as [matched|] eqn:E; [|discriminate].
  cbn [mbind option_bind].
  assert (Ho : occurs matched txt).
  { destruct (lastindex m) as [[|g]|];
      [injection E as <-; apply occurs_group0
      |eapply occurs_group; exact E
      |injection E as <-; apply occurs_group0]. }
  destruct (bool_decide _ && (1 <? len (strip (lower matched)))%nat) eqn:C;
    intros [= <-] Ha; [|exact Ha].
  apply emit_ok; [exact Ha|]. apply HP; [exact Ho|].
  apply andb_true_iff in C as [_ C]. apply Nat.ltb_lt in C.
  rewrite len_strip_lower in C. exact C.
Qed.

Lemma _match_patterns_kind patterns entity_type a a' :
  (forall matched,
     occurs matched txt -> (1 < len (strip matched))%nat ->
     P {| entity_recognizer.text := strip matched; entity_type := entity_type;
          confidence := 8 # 10 |}) ->
  _match_patterns txt patterns entity_type a = Some a' ->
  all_ok a -> all_ok a'.
Proof.
  intros HP. unfold _match_patterns. apply for_each_keeps.
  intros s pattern s'. apply for_each_keeps.
  intros s1 m s2. apply match_step_kind. exact HP.
Qed.

Lemma generic_step_kind a m a' :
  (forall g,
     occurs g txt -> (2 < len (strip g))%nat ->
     P {| entity_recognizer.text := strip g; entity_type := u "dataset";
          confidence := 65 # 100 |}) ->
  generic_step txt a m = Some a' -> all_ok a -> all_ok a'.
Proof.
  intros HP. unfold generic_step.
  destruct (group txt m 1) as [g|] eqn:E; [|discriminate].
  cbn [mbind option_bind].
  destruct (bool_decide _ && (2 <? len (strip g))%nat) eqn:C;
    intros [= <-] Ha; [|exact Ha].
  apply emit_ok; [exact Ha|]. apply HP; [eapply occurs_group; exact E|].
  apply andb_true_iff in C as [_ C]. apply Nat.ltb_lt in C. exact C.
Qed.

Lemma problem_step_kind a m a' :
  (forall g,
     occurs g txt -> (10 < len (strip g) < 200)%nat ->
     P {| entity_recognizer.text := strip g; entity_type := u "research_problem";
          confidence := 6 # 10 |}) ->
  problem_step txt a m = Some a' -> all_ok a -> all_ok a'.
Proof.
  intros HP. unfold problem_step.
  destruct (group txt m 1) as [g|] eqn:E; [|discriminate].
  cbn [mbind option_bind].
  destruct (bool_decide _ && (10 <? len (strip g))%nat
            && (len (strip g) <? 200)%nat) eqn:C;
    intros [= <-] Ha; [|exact Ha].
  apply emit_ok; [exact Ha|]. apply HP; [eapply occurs_group; exact E|].
  apply andb_true_iff in C as [C C2]. apply andb_true_iff in C as [_ C1].
  apply Nat.ltb_lt in C1, C2. split; assumption.
Qed.

Lemma part_step_kind raw a part a' :
  (forall part c rest',
     occurs part raw -> part = c :: rest' ->
     (2 < len part < 80)%nat -> is_lower c = false ->
     (forall t, part <> t ++ u ".") ->
     P {| entity_recognizer.text := part; entity_type := u "baseline";
          confidence := 6 # 10 |}) ->
  occurs part raw ->
  part_step a part = Some a' -> all_ok a -> all_ok a'.
Proof.
  intros HP Ho. unfold part_step.
  set (p := rstrip_chars (u ".") (strip part)).
  assert (Hp : occurs p raw).
  { subst p. unfold rstrip_chars.
    eapply occurs_trans; [apply occurs_rstrip_by|].
    eapply occurs_trans; [apply occurs_strip | exact Ho]. }
  assert (Hdot : forall t, p <> t ++ u ".").
  { intros t E. subst p. unfold rstrip_chars in E.
    apply rstrip_by_last in E. discriminate E. }
  destruct (bool_decide _ && (2 <? len p)%nat && (len p <? 80)%nat) eqn:C;
    [|intros [= <-] Ha; exact Ha].
  destruct p as [|c rest'] eqn:Ep; [discriminate|].
  cbn [List.head mbind option_bind].
  destruct (negb (is_lower c)) eqn:L; intros [= <-] Ha; [|exact Ha].
  apply emit_ok; [exact Ha|].
  apply andb_true_iff in C as [C C2]. apply andb_true_iff in C as [_ C1].
  apply Nat.ltb_lt in C1, C2. apply negb_true_iff in L.
  apply (HP (c :: rest') c rest'); auto.
Qed.

Lemma baseline_step_kind a m a' :
  (forall part c rest',
     occurs part txt -> part = c :: rest' ->
     (2 < len part < 80)%nat -> is_lower c = false ->
     (forall t, part <> t ++ u ".") ->
     P {| entity_recognizer.text := part; entity_type := u "baseline";
          confidence := 6 # 10 |}) ->
  baseline_step txt a m = Some a' -> all_ok a -> all_ok a'.
Proof.
  intros HP. unfold baseline_step.
  destruct (group txt m 1) as [g|] eqn:E; [|discriminate].
  cbn [mbind option_bind].
  assert (Hraw : occurs (strip g) txt).
  { eapply occurs_trans; [apply occurs_strip | eapply occurs_group; exact E]. }
  pose proof (split_plain_occur no_flags (rx (u ",\s*|\s+and\s+")) (strip g) 0)
    as Hparts.
  revert Hparts. generalize (split_plain no_flags (rx (u ",\s*|\s+and\s+"))
                               (strip g) 0).
  intros parts Hparts. revert a.
  induction Hparts as [|part parts Hpart _ IH]; intros a; cbn [for_each].
  - intros [= <-] Ha. exact Ha.
  - destruct (part_step a part) as [a1|] eqn:E1; [|discriminate].
    cbn [mbind option_bind]. intros H Ha. apply (IH a1 H).
    apply (part_step_kind (strip g) a part a1); [|exact Hpart|exact E1|exact Ha].
    intros p c rest' Hp. apply HP.
    eapply occurs_trans; [exact Hp | exact Hraw].
Qed.

End Kinds.

(** ** The entities of one call *)

(** An entity of [extract_entities] for a section of type
    [section_type] whose searched text is [text]. *)
Definition recognized (section_type text : str) (e : Entity) : Prop :=
  occurs (entity_recognizer.text e) text
  /\ ((entity_type e ∈ [u "dataset"; u "metric"; u "method"; u "tool"; u "theory"]
       /\ confidence e = (8 # 10)%Q
       /\ (1 < len (entity_recognizer.text e))%nat
       /\ strip (entity_recognizer.text e) = entity_recognizer.text e)
      \/ (entity_type e = u "dataset"
          /\ confidence e = (65 # 100)%Q
          /\ (2 < len (entity_recognizer.text e))%nat
          /\ strip (entity_recognizer.text e) = entity_recognizer.text e)
      \/ (entity_type e = u "research_problem"
          /\ confidence e = (6 # 10)%Q
          /\ (10 < len (entity_recognizer.text e) < 200)%nat
          /\ strip (entity_recognizer.text e) = entity_recognizer.text e
          /\ one_of section_type [u "abstract"; u "introduction"; u "other"]
             = true)
      \/ (entity_type e = u "baseline"
          /\ confidence e = (6 # 10)%Q
          /\ (2 < len (entity_recognizer.text e) < 80)%nat
          /\ (exists c rest', entity_recognizer.text e = c :: rest'
                              /\ is_lower c = false)
          /\ (forall t, entity_recognizer.text e <> t ++ u ".")
          /\ one_of section_type
               [u "experiments"; u "results"; u "discussion"; u "other"]
             = true)).

Lemma one_of_elem s l : one_of s l = true -> s ∈ l.
Proof.
  unfold one_of. intros H. apply List.existsb_exists in H as (x & Hx & E).
  apply bool_decide_eq_true in E. subst x. apply list_elem_of_In. exact Hx.
Qed.

Lemma occurs_strip_in matched text :
  occurs matched text -> occurs (strip matched) text.
Proof. intros H. eapply occurs_trans; [apply occurs_strip | exact H]. Qed.

Lemma extract_entities_recognized section_type content entities :
  extract_entities section_type content = Some entities ->
  Forall (recognized section_type (List.firstn 12000 content)) entities.
Proof.
  unfold extract_entities.
  destruct (len (strip content) <? 30)%nat; [intros [= <-]; constructor|].
  set (text := List.firstn 12000 content).
  set (P := recognized section_type text).
  assert (Hpat : forall ty,
            ty ∈ [u "dataset"; u "metric"; u "method"; u "tool"; u "theory"] ->
            forall matched,
              occurs matched text -> (1 < len (strip matched))%nat ->
              P {| entity_recognizer.text := strip matched;
                   entity_type := ty; confidence := 8 # 10 |}).
  { intros ty Hty matched Ho Hl. split; [apply occurs_strip_in; exact Ho|].
    left. cbn [entity_type confidence entity_recognizer.text].
    split; [exact Hty|]. split; [reflexivity|]. split; [exact Hl|].
    apply strip_strip. }
  intros H.
  apply bind_Some in H as (a1 & E1 & H).
  apply bind_Some in H as (a2 & E2 & H).
  apply bind_Some in H as (a3 & E3 & H).
  apply bind_Some in H as (a4 & E4 & H).
  apply bind_Some in H as (a5 & E5 & H).
  apply bind_Some in H as (a6 & E6 & H).
  apply bind_Some in H as (a7 & E7 & H).
  apply bind_Some in H as (a8 & E8 & H).
  injection H as <-.
  pose proof (_match_patterns_kind text P _ _ _ _
                (Hpat _ ltac:(apply list_elem_of_In; left; reflexivity))
                E1 (Forall_nil_2 _)) as I1.
  pose proof (_match_patterns_kind text P _ _ _ _
                (Hpat _ ltac:(apply list_elem_of_In; do 1 right; left;
                              reflexivity)) E2 I1) as I2.
  pose proof (_match_patterns_kind text P _ _ _ _
                (Hpat _ ltac:(apply list_elem_of_In; do 2 right; left;
                              reflexivity)) E3 I2) as I3.
  pose proof (_match_patterns_kind text P _ _ _ _
                (Hpat _ ltac:(apply list_elem_of_In; do 3 right; left;
                              reflexivity)) E4 I3) as I4.
  pose proof (_match_patterns_kind text P _ _ _ _
                (Hpat _ ltac:(apply list_elem_of_In; do 4 right; left;
                              reflexivity)) E5 I4) as I5.
  clear E1 E2 E3 E4 E5 I1 I2 I3 I4.
  apply (for_each_keeps (all_ok P)) in E6; [|clear E6|exact I5].
  2:{ intros s m s'. apply generic_step_kind.
      intros g Ho Hl. split; [apply occurs_strip_in; exact Ho|].
      right. left. cbn [entity_type confidence entity_recognizer.text].
      split; [reflexivity|]. split; [reflexivity|]. split; [exact Hl|].
      apply strip_strip. }
  assert (I7 : all_ok P a7).
  { destruct (one_of section_type [u "abstract"; u "introduction"; u "other"])
      eqn:S; [|injection E7 as <-; exact E6].
    unfold _extract_research_problems in E7.
    apply (for_each_keeps (all_ok P)) in E7; [exact E7| |exact E6].
    intros s pattern s'. apply for_each_keeps.
    intros s1 m s2. apply problem_step_kind.
    intros g Ho Hl. split; [apply occurs_strip_in; exact Ho|].
    right. right. left. cbn [entity_type confidence entity_recognizer.text].
    split; [reflexivity|]. split; [reflexivity|]. split; [exact Hl|].
    split; [apply strip_strip | exact S]. }
  destruct (one_of section_type
              [u "experiments"; u "results"; u "discussion"; u "other"])
    eqn:S; [|injection E8 as <-; exact I7].
  unfold _extract_baselines in E8.
  apply (for_each_keeps (all_ok P)) in E8; [exact E8| |exact I7].
  intros s pattern s'. apply for_each_keeps.
  intros s1 m s2. apply baseline_step_kind.
  intros part c rest' Ho Ep Hl Hc Hdot. split; [exact Ho|].
  right. right. right. cbn [entity_type confidence entity_recognizer.text].
  split; [reflexivity|]. split; [reflexivity|]. split; [exact Hl|].
  split; [eauto|]. split; [exact Hdot | exact S].
Qed.

End EntityKindFacts.

(** X20. [extract_entities] takes every entity text from the first
    12000 characters of the content: the text is a contiguous piece
    of the content that ends within those characters, and it has at
    least two characters. *)
Theorem extract_entities_texts_from_content (section_type content : Py.str) :
  exists entities,
    entity_recognizer.extract_entities section_type content = Some entities
    /\ forall e, e ∈ entities ->
         (exists pre post,
            content = pre ++ entity_recognizer.text e ++ post
            /\ (length pre + length (entity_recognizer.text e) <= 12000)%nat)
         /\ (2 <= length (entity_recognizer.text e))%nat.
Proof.
  destruct (EntityFacts.extract_entities_ok section_type content)
    as (entities & E & _).
  exists entities. split; [exact E|]. intros e He.
  pose proof (EntityKindFacts.extract_entities_recognized _ _ _ E) as H.
  rewrite Forall_forall in H. destruct (H e He) as [(pre & post & Ho) Hk].
  split.
  - exists pre, (post ++ List.skipn 12000 content). split.
    + rewrite <- (List.firstn_skipn 12000 content) at 1. rewrite Ho.
      rewrite <- !List.app_assoc. reflexivity.
    + pose proof (List.firstn_le_length 12000 content) as L.
      rewrite Ho, !List.length_app in L. lia.
  - unfold len in Hk.
    destruct Hk as [(_ & _ & L & _)|[(_ & _ & L & _)|[(_ & _ & L & _)
                   |(_ & _ & L & _)]]]; lia.
Qed.

(** X21. Every entity of [extract_entities] has one of four shapes: a
    pattern entity of type dataset, metric, method, tool or theory
    with confidence 0.8; a generic dataset with confidence 0.65; a
    research problem with confidence 0.6, only when the section type
    is abstract, introduction or other; a baseline with confidence
    0.6, only when the section type is experiments, results,
    discussion or other. *)
Theorem extract_entities_types_and_confidence (section_type content : Py.str) :
  exists entities,
    entity_recognizer.extract_entities section_type content = Some entities
    /\ forall e, e ∈ entities ->
         (entity_recognizer.entity_type e
            ∈ [Py.u "dataset"; Py.u "metric"; Py.u "method"; Py.u "tool";
               Py.u "theory"]
          /\ entity_recognizer.confidence e = (8 # 10)%Q)
         \/ (entity_recognizer.entity_type e = Py.u "dataset"
             /\ entity_recognizer.confidence e = (65 # 100)%Q)
         \/ (entity_recognizer.entity_type e = Py.u "research_problem"
             /\ entity_recognizer.confidence e = (6 # 10)%Q
             /\ section_type
                  ∈ [Py.u "abstract"; Py.u "introduction"; Py.u "other"])
         \/ (entity_recognizer.entity_type e = Py.u "baseline"
             /\ entity_recognizer.confidence e = (6 # 10)%Q
             /\ section_type
                  ∈ [Py.u "experiments"; Py.u "results"; Py.u "discussion";
                     Py.u "other"]).
Proof.
  destruct (EntityFacts.extract_entities_ok section_type content)
    as (entities & E & _).
  exists entities. split; [exact E|]. intros e He.
  pose proof (EntityKindFacts.extract_entities_recognized _ _ _ E) as H.
  rewrite Forall_forall in H. destruct (H e He) as [_ Hk].
  destruct Hk as [(T & C & _)|[(T & C & _)|[(T & C & _ & _ & S)
                 |(T & C & _ & _ & _ & S)]]].
  - left. auto.
  - right. left. auto.
  - right. right. left. split; [exact T|]. split; [exact C|].
    apply EntityKindFacts.one_of_elem. exact S.
  - right. right. right. split; [exact T|]. split; [exact C|].
    apply EntityKindFacts.one_of_elem. exact S.
Qed.

(** X22. The heuristic entities of [extract_entities] are bounded in
    length: a research problem has more than 10 and fewer than 200
    characters and no white space at either end; a baseline has more
    than 2 and fewer than 80 characters, does not start with a
    lower-case letter and does not end with a period. *)
Theorem extract_entities_heuristic_lengths (section_type content : Py.str) :
  exists entities,
    entity_recognizer.extract_entities section_type content = Some entities
    /\ forall e, e ∈ entities ->
         (entity_recognizer.entity_type e = Py.u "research_problem" ->
          (10 < len (entity_recognizer.text e) < 200)%nat
          /\ Py.strip (entity_recognizer.text e) = entity_recognizer.text e)
         /\ (entity_recognizer.entity_type e = Py.u "baseline" ->
             (2 < len (entity_recognizer.text e) < 80)%nat
             /\ (exists c rest',
                   entity_recognizer.text e = c :: rest'
                   /\ Py.is_lower c = false)
             /\ forall t, entity_recognizer.text e <> t ++ Py.u ".").
Proof.
  destruct (EntityFacts.extract_entities_ok section_type content)
    as (entities & E & _).
  exists entities. split; [exact E|]. intros e He.
  pose proof (EntityKindFacts.extract_entities_recognized _ _ _ E) as H.
  rewrite Forall_forall in H. destruct (H e He) as [_ Hk].
  split; intros T; rewrite T in Hk;
    destruct Hk as [(T' & _)|[(T' & _)|[(T' & Hk)|(T' & Hk)]]];
    try (apply list_elem_of_In in T'; vm_compute in T';
         intuition discriminate);
    try (vm_compute in T'; discriminate T').
  - destruct Hk as (_ & L & S & _). auto.
  - destruct Hk as (_ & L & C & D & _). auto.
Qed.

(** X23. No two entities of one [extract_entities] call have the same
    text up to letter case: the lower-cased texts of the returned
    entities are pairwise distinct. *)
Theorem extract_entities_distinct_lower_texts (section_type content : Py.str) :
  exists entities,
    entity_recognizer.extract_entities section_type content = Some entities
    /\ NoDup (List.map (fun e => Py.lower (entity_recognizer.text e))
                entities).
Proof.
  destruct (EntityFacts.extract_entities_ok section_type content)
    as (entities & E & D).
  exists entities. split; [exact E | exact D].
Qed.

(* ===================================================================== *)
(** * Table extraction: the shape of a table record *)
(* ===================================================================== *)

Module TableFacts.

Import Py pymupdf_parser StripFacts ListFacts.

Lemma indices_where_elem {A} (p : A -> bool) (l : list A) :
  forall i j,
    j ∈ indices_where p i l <->
    exists x, (i <= j)%nat /\ l !! (j - i)%nat = Some x /\ p x = true.
Proof.
  induction l as [|y l IH]; intros i j; cbn [indices_where].
  - split; [intros H; inversion H | intros (x & _ & H & _); discriminate H].
  - assert (Hrest : j ∈ indices_where p (S i) l <->
                    exists x, (i < j)%nat /\ (y :: l) !! (j - i)%nat = Some x
                              /\ p x = true).
    { rewrite IH. split; intros (x & Hle & Hx & Hp); exists x.
      - split; [lia|]. split; [|exact Hp].
        replace (j - i)%nat with (S (j - S i)) by lia. exact Hx.
      - split; [lia|]. split; [|exact Hp].
        replace (j - i)%nat with (S (j - S i)) in Hx by lia. exact Hx. }
    destruct (p y) eqn:Py.
    + rewrite elem_of_cons, Hrest. split.
      * intros [->|(x & Hle & Hx & Hp)].
        -- exists y. rewrite Nat.sub_diag. auto.
        -- exists x. split; [lia | auto].
      * intros (x & Hle & Hx & Hp).
        destruct (decide (j = i)) as [->|Hne]; [left; reflexivity|].
        right. exists x. split; [lia | auto].
    + rewrite Hrest. split; intros (x & Hle & Hx & Hp); exists x.
      * split; [lia | auto].
      * split; [|auto]. destruct (decide (j = i)) as [->|Hne]; [|lia].
        rewrite Nat.sub_diag in Hx. injection Hx as ->. congruence.
Qed.

(** [[l[i] for i, x in enumerate(l) if p(x)]] is [[x for x in l if p(x)]]. *)
Lemma indices_where_filter {A} (p : A -> bool) (d : A) (l : list A) :
  forall k,
    List.map (fun i => List.nth (i - k) l d) (indices_where p k l)
    = List.filter p l.
Proof.
  induction l as [|y l IH]; intros k; cbn [indices_where List.filter];
    [reflexivity|].
  assert (Hrest : List.map (fun i => List.nth (i - k) (y :: l) d)
                    (indices_where p (S k) l) = List.filter p l).
  { rewrite <- (IH (S k)). apply List.map_ext_in. intros i Hi.
    apply list_elem_of_In, indices_where_elem in Hi as (x & Hle & _).
    replace (i - k)%nat with (S (i - S k)) by lia. reflexivity. }
  destruct (p y); cbn [List.map]; [|exact Hrest].
  rewrite Nat.sub_diag. cbn [List.nth]. f_equal. exact Hrest.
Qed.

Lemma headers_filter (raw_headers : list str) :
  List.map (fun i => List.nth i raw_headers [])
    (indices_where non_blank O raw_headers)
  = List.filter non_blank raw_headers.
Proof.
  rewrite <- (indices_where_filter non_blank [] raw_headers O).
  apply List.map_ext. intros i. rewrite Nat.sub_0_r. reflexivity.
Qed.

Lemma cell_text_stripped h : strip (cell_text h) = cell_text h.
Proof. apply strip_strip. Qed.

Lemma pick_columns_shape row indices cs :
  pick_columns row indices = Some cs ->
  List.length cs = List.length indices
  /\ Forall (fun c => strip c = c) cs
  /\ forall i, i ∈ indices -> (i < List.length row)%nat.
Proof.
  revert cs. induction indices as [|i indices IH]; intros cs;
    cbn [pick_columns].
  - intros [= <-]. split; [reflexivity|]. split; [constructor|].
    intros i H. inversion H.
  - destruct (List.nth_error row i) as [c|] eqn:Ec; [|discriminate].
    cbn [mbind option_bind].
    destruct (pick_columns row indices) as [cs'|]; [|discriminate].
    cbn [mbind option_bind]. intros [= <-].
    destruct (IH cs' eq_refl) as (L & S & B).
    split; [cbn [List.length]; lia|].
    split; [constructor; [apply cell_text_stripped | exact S]|].
    intros j Hj. apply elem_of_cons in Hj as [->|Hj]; [|apply B; exact Hj].
    apply List.nth_error_Some. rewrite Ec. discriminate.
Qed.

(** A data row of a table record with [n] columns. *)
Definition row_ok (n : nat) (r : list str) : Prop :=
  List.length r = n
  /\ Forall (fun c => strip c = c) r
  /\ exists c, c ∈ r /\ c <> [] /\ c <> u "—" /\ c <> u "-".

Lemma content_cell c :
  non_blank c && negb (placeholder c) = true ->
  c <> [] /\ c <> u "—" /\ c <> u "-".
Proof.
  intros H. apply andb_true_iff in H as [_ H]. apply negb_true_iff in H.
  unfold placeholder, str_eqb in H.
  apply orb_false_iff in H as [H H3]. apply orb_false_iff in H as [H1 H2].
  apply bool_decide_eq_false in H1, H2, H3. auto.
Qed.

Lemma row_step_rows indices rows row rows' :
  row_step indices rows row = Some rows' ->
  Forall (row_ok (List.length indices)) rows ->
  Forall (row_ok (List.length indices)) rows'
  /\ (List.length rows' <= S (List.length rows))%nat.
Proof.
  unfold row_step. destruct (negb (List.existsb cell_true row));
    [intros [= <-] H; split; [exact H | lia]|].
  destruct (pick_columns row indices) as [clean_row|] eqn:Ep; [|discriminate].
  cbn [mbind option_bind].
  destruct (List.existsb _ clean_row) eqn:Ee;
    intros [= <-] H; [|split; [exact H | lia]].
  split; [|rewrite List.length_app; cbn [List.length]; lia].
  apply Forall_app. split; [exact H|]. apply Forall_singleton.
  destruct (pick_columns_shape _ _ _ Ep) as (L & S & _).
  split; [exact L|]. split; [exact S|].
  apply List.existsb_exists in Ee as (c & Hc & Hk).
  exists c. split; [apply list_elem_of_In; exact Hc | apply content_cell, Hk].
Qed.

Lemma row_step_wide indices rows row rows' :
  row_step indices rows row = Some rows' ->
  List.existsb cell_true row = true ->
  forall i, i ∈ indices -> (i < List.length row)%nat.
Proof.
  unfold row_step. intros H E. rewrite E in H. cbn [negb] in H.
  destruct (pick_columns row indices) as [clean_row|] eqn:Ep; [|discriminate].
  apply (pick_columns_shape _ _ _ Ep).
Qed.

Lemma for_each_steps {A S} (body : S -> A -> option S) l :
  forall s s',
    for_each body l s = Some s' ->
    forall x, x ∈ l -> exists s1 s2, body s1 x = Some s2.
Proof.
  induction l as [|y l IH]; intros s s' H x Hx; [inversion Hx|].
  cbn [for_each] in H. destruct (body s y) as [s1|] eqn:E; [|discriminate].
  cbn [mbind option_bind] in H.
  apply elem_of_cons in Hx as [->|Hx]; [eauto | eapply IH; eauto].
Qed.

Lemma for_each_rows indices l :
  forall rows rows',
    for_each (row_step indices) l rows = Some rows' ->
    Forall (row_ok (List.length indices)) rows ->
    Forall (row_ok (List.length indices)) rows'
    /\ (List.length rows' <= List.length rows + List.length l)%nat.
Proof.
  induction l as [|row l IH]; intros rows rows'; cbn [for_each].
  - intros [= <-] H. split; [exact H | lia].
  - destruct (row_step indices rows row) as [rows1|] eqn:E; [|discriminate].
    cbn [mbind option_bind]. intros H Hr.
    destruct (row_step_rows _ _ _ _ E Hr) as [H1 L1].
    destruct (IH _ _ H H1) as [H2 L2].
    split; [exact H2 | cbn [List.length]; lia].
Qed.

(** What the [try] block of [extract_tables_from_pdf] appends for a
    table whose cells are [extracted]. *)
Definition recorded (page_num : nat) (extracted : list (list (option str)))
    (t : Table) : Prop :=
  (2 <= List.length extracted)%nat
  /\ page t = (Z.of_nat page_num + 1)%Z
  /\ headers t
     = List.filter non_blank (List.map cell_text (List.hd [] extracted))
  /\ headers t <> []
  /\ rows t <> []
  /\ (List.length (rows t) <= List.length extracted - 1)%nat
  /\ Forall (row_ok (List.length (headers t))) (rows t)
  /\ strip (caption t) = caption t
  /\ forall row, row ∈ List.tl extracted ->
       List.existsb cell_true row = true ->
       forall j h, List.hd [] extracted !! j = Some h ->
                   cell_text h <> [] -> (j < List.length row)%nat.

Lemma _clean_caption_stripped c : strip (_clean_caption c) = _clean_caption c.
Proof.
  unfold _clean_caption. destruct c; [reflexivity | apply strip_strip].
Qed.

Lemma non_blank_true (s : str) : non_blank s = true <-> s <> [].
Proof. destruct s; cbn; split; congruence. Qed.

Lemma table_record_recorded page_num page_text ti table t :
  table_record page_num page_text ti table = Some (Some t) ->
  exists extracted,
    extract table = Some extracted /\ recorded page_num extracted t.
Proof.
  unfold table_record.
  destruct (extract table) as [extracted|]; [|discriminate].
  cbn [mbind option_bind]. intros H. exists extracted. split; [reflexivity|].
  destruct (len extracted <? 2)%nat eqn:L2; [discriminate|].
  apply Nat.ltb_ge in L2. unfold len in L2.
  set (raw_headers := List.map cell_text (List.hd [] extracted)) in *.
  pose proof (headers_filter raw_headers) as Hf.
  pose proof (indices_where_elem non_blank raw_headers O) as Hi.
  pose proof (List.length_map (fun i => List.nth i raw_headers [])
                (indices_where non_blank O raw_headers)) as Hl.
  revert H Hf Hi Hl.
  generalize (indices_where non_blank O raw_headers). intros indices.
  destruct indices as [|i0 is0]; [discriminate|].
  set (indices := i0 :: is0).
  destruct (for_each (row_step indices) (List.tl extracted) []) as [rws|]
    eqn:Er; [|discriminate].
  cbn [mbind option_bind].
  destruct rws as [|r0 rs] eqn:Erows; [discriminate|].
  intros [= <-] Hf Hi Hl. unfold recorded.
  cbn [page headers rows caption].
  destruct (for_each_rows _ _ _ _ Er (Forall_nil_2 _)) as [Hrows Hlen].
  split; [exact L2|]. split; [reflexivity|]. split; [exact Hf|].
  split; [discriminate|]. split; [discriminate|].
  split.
  { cbn [List.length] in Hlen. rewrite List.length_tl in Hlen. exact Hlen. }
  split; [subst indices; rewrite <- Hl in Hrows; exact Hrows|].
  split; [apply _clean_caption_stripped|].
  intros row Hrow Hany j h Hj Hh.
  destruct (for_each_steps _ _ _ _ Er row Hrow) as (s1 & s2 & Hs).
  apply (row_step_wide _ _ _ _ Hs Hany). apply Hi.
  exists (cell_text h). split; [lia|]. rewrite Nat.sub_0_r.
  split; [|apply non_blank_true; exact Hh].
  unfold raw_headers. change (List.map cell_text ?l) with (cell_text <$> l).
  rewrite list_lookup_fmap, Hj. reflexivity.
Qed.

Lemma page_tables_from_record page_num page_text tables :
  forall ti t,
    t ∈ page_tables_from page_num page_text ti tables ->
    exists k table,
      tables !! k = Some table
      /\ table_record page_num page_text (ti + k) table = Some (Some t).
Proof.
  induction tables as [|table tables IH]; intros ti t Ht; [inversion Ht|].
  cbn [page_tables_from] in Ht.
  assert (Hrest : t ∈ page_tables_from page_num page_text (S ti) tables ->
                  exists k table0,
                    (table :: tables) !! k = Some table0
                    /\ table_record page_num page_text (ti + k) table0
                       = Some (Some t)).
  { intros H. apply IH in H as (k & table0 & Hk & Hr).
    exists (S k), table0. split; [exact Hk|].
    replace (ti + S k)%nat with (S ti + k)%nat by lia. exact Hr. }
  destruct (table_record page_num page_text ti table) as [[t'|]|] eqn:E;
    try (apply Hrest; exact Ht).
  apply elem_of_cons in Ht as [->|Ht]; [|apply Hrest; exact Ht].
  exists O, table. rewrite Nat.add_0_r. split; [reflexivity | exact E].
Qed.

Lemma page_tables_from_length page_num page_text tables :
  forall ti,
    (List.length (page_tables_from page_num page_text ti tables)
     <= List.length tables)%nat.
Proof.
  induction tables as [|table tables IH]; intros ti; cbn [page_tables_from];
    [cbn [List.length]; lia|].
  specialize (IH (S ti)).
  destruct (table_record page_num page_text ti table) as [[t'|]|];
    cbn [List.length]; lia.
Qed.

(** The number of tables [find_tables] locates in the file. *)
Definition located (doc : list FitzPage) : nat :=
  List.length (List.concat (List.map page_tables doc)).

Lemma tables_from_length doc :
  forall n, (List.length (tables_from n doc) <= located doc)%nat.
Proof.
  unfold located.
  induction doc as [|p doc IH]; intros n; cbn [tables_from List.map List.concat];
    [cbn; lia|].
  rewrite !List.length_app.
  pose proof (page_tables_from_length n (page_text p) (page_tables p) O).
  specialize (IH (S n)). lia.
Qed.

(** Pages do not decrease along the list. *)
Definition ascending_pages (tables : list Table) : Prop :=
  forall i j t1 t2,
    (i <= j)%nat -> tables !! i = Some t1 -> tables !! j = Some t2 ->
    (page t1 <= page t2)%Z.

Lemma tables_from_ascending doc :
  forall n,
    Forall (fun t => (Z.of_nat n + 1 <= page t)%Z) (tables_from n doc)
    /\ ascending_pages (tables_from n doc).
Proof.
  induction doc as [|p doc IH]; intros n; cbn [tables_from].
  - split; [constructor|]. intros i j t1 t2 _ H. discriminate H.
  - destruct (IH (S n)) as [Hlow Hasc].
    assert (Hhere : Forall (fun t => page t = (Z.of_nat n + 1)%Z)
                      (page_tables_from n (page_text p) O (page_tables p))).
    { apply Forall_forall. intros t Ht.
      eapply PageFacts.page_tables_from_page. exact Ht. }
    split.
    + apply Forall_app. split.
      * eapply Forall_impl; [exact Hhere|]. cbn beta. intros t ->. lia.
      * eapply Forall_impl; [exact Hlow|]. cbn beta. intros t H. lia.
    + intros i j t1 t2 Hij H1 H2.
      rewrite Forall_forall in Hhere, Hlow.
      apply lookup_app_Some in H1 as [H1|[L1 H1]];
        apply lookup_app_Some in H2 as [H2|[L2 H2]].
      * apply list_elem_of_lookup_2 in H1, H2.
        rewrite (Hhere _ H1), (Hhere _ H2). lia.
      * apply list_elem_of_lookup_2 in H1, H2.
        rewrite (Hhere _ H1). specialize (Hlow _ H2). cbn beta in Hlow. lia.
      * apply lookup_lt_Some in H2. lia.
      * eapply Hasc; [|exact H1|exact H2]. lia.
Qed.

End TableFacts.

(** The record of the table of [one_table_pdf]. *)
Definition accuracy_table : pymupdf_parser.Table :=
  {| pymupdf_parser.page := 1;
     pymupdf_parser.headers := [Py.u "Model"; Py.u "Accuracy"];
     pymupdf_parser.rows := [[Py.u "BERT"; Py.u "0.91"]];
     pymupdf_parser.caption := Py.u "Accuracy on GLUE" |}.

(** X24. Every table record of [extract_tables_from_pdf] is
    well formed: it has at least one header and at least one row; no
    header is empty; every row has as many cells as there are headers
    and has a cell that is neither empty nor a dash; headers, cells and
    the caption carry no white space at either end. *)
Theorem extract_tables_well_formed
    (doc : list pymupdf_parser.FitzPage) (t : pymupdf_parser.Table) :
  t ∈ pymupdf_parser.extract_tables_from_pdf doc ->
  pymupdf_parser.headers t <> []
  /\ Forall (fun h => h <> [] /\ Py.strip h = h) (pymupdf_parser.headers t)
  /\ pymupdf_parser.rows t <> []
  /\ Forall (fun r =>
               length r = length (pymupdf_parser.headers t)
               /\ Forall (fun c => Py.strip c = c) r
               /\ exists c, c ∈ r /\ c <> [] /\ c <> Py.u "—"
                            /\ c <> Py.u "-")
       (pymupdf_parser.rows t)
  /\ Py.strip (pymupdf_parser.caption t) = pymupdf_parser.caption t.
Proof.
  intros Ht. unfold pymupdf_parser.extract_tables_from_pdf in Ht.
  apply PageFacts.tables_from_page in Ht as (i & p & _ & Ht).
  apply TableFacts.page_tables_from_record in Ht as (k & table & _ & Hr).
  apply TableFacts.table_record_recorded in Hr as (extracted & _ & R).
  destruct R as (_ & _ & Hh & Hne & Hrows & _ & Hok & Hc & _).
  split; [exact Hne|]. split; [|split; [exact Hrows|split; [exact Hok|exact Hc]]].
  rewrite Hh. apply Forall_forall. intros h Hin.
  apply list_elem_of_In, List.filter_In in Hin as [Hin Hb].
  split; [apply TableFacts.non_blank_true; exact Hb|].
  apply List.in_map_iff in Hin as (c & <- & _).
  apply TableFacts.cell_text_stripped.
Qed.

Lemma extract_tables_well_formed_witness :
  accuracy_table ∈ pymupdf_parser.extract_tables_from_pdf one_table_pdf
  /\ pymupdf_parser.headers accuracy_table <> []
  /\ pymupdf_parser.rows accuracy_table <> []
  /\ Py.strip (pymupdf_parser.caption accuracy_table)
     = pymupdf_parser.caption accuracy_table.
Proof.
  assert (H : accuracy_table
                ∈ pymupdf_parser.extract_tables_from_pdf one_table_pdf)
    by (vm_compute; constructor).
  split; [exact H|].
  destruct (extract_tables_well_formed one_table_pdf accuracy_table H)
    as (H1 & _ & H2 & _ & H3).
  auto.
Defined.

(** X25. [extract_tables_from_pdf] lists the tables in page order, the
    page numbers never decreasing along the list, and returns at most
    as many records as [find_tables] locates tables in the file; a
    file without located tables gives the empty list. *)
Theorem extract_tables_in_page_order (doc : list pymupdf_parser.FitzPage) :
  (forall i j t1 t2,
     (i <= j)%nat ->
     pymupdf_parser.extract_tables_from_pdf doc !! i = Some t1 ->
     pymupdf_parser.extract_tables_from_pdf doc !! j = Some t2 ->
     (pymupdf_parser.page t1 <= pymupdf_parser.page t2)%Z)
  /\ (length (pymupdf_parser.extract_tables_from_pdf doc)
      <= length (List.concat (List.map pymupdf_parser.page_tables doc)))%nat.
Proof.
  unfold pymupdf_parser.extract_tables_from_pdf. split.
  - apply (TableFacts.tables_from_ascending doc O).
  - apply TableFacts.tables_from_length.
Qed.

(** X26. Every table record of [extract_tables_from_pdf] comes from a
    located table whose [extract()] returned at least two rows; its
    headers are the non-blank stripped cells of the first row, in
    order; it has at most one row per data row; and no data row with a
    filled cell is too short to have a cell under each non-blank
    header: a table with such a row is dropped as a whole. *)
Theorem extract_tables_provenance
    (doc : list pymupdf_parser.FitzPage) (t : pymupdf_parser.Table) :
  t ∈ pymupdf_parser.extract_tables_from_pdf doc ->
  exists i p k table extracted,
    doc !! i = Some p
    /\ pymupdf_parser.page_tables p !! k = Some table
    /\ pymupdf_parser.extract table = Some extracted
    /\ (2 <= length extracted)%nat
    /\ pymupdf_parser.headers t
       = List.filter pymupdf_parser.non_blank
           (List.map pymupdf_parser.cell_text (List.hd [] extracted))
    /\ (length (pymupdf_parser.rows t) <= length extracted - 1)%nat
    /\ forall row, row ∈ List.tl extracted ->
         List.existsb pymupdf_parser.cell_true row = true ->
         forall j h, List.hd [] extracted !! j = Some h ->
                     pymupdf_parser.cell_text h <> [] ->
                     (j < length row)%nat.
Proof.
  intros Ht. unfold pymupdf_parser.extract_tables_from_pdf in Ht.
  apply PageFacts.tables_from_page in Ht as (i & p & Hp & Ht).
  apply TableFacts.page_tables_from_record in Ht as (k & table & Hk & Hr).
  apply TableFacts.table_record_recorded in Hr as (extracted & He & R).
  destruct R as (L & _ & Hh & _ & _ & Hl & _ & _ & Hw).
  exists i, p, k, table, extracted. auto 10.
Qed.

Lemma extract_tables_provenance_witness :
  accuracy_table ∈ pymupdf_parser.extract_tables_from_pdf one_table_pdf
  /\ exists extracted,
       (2 <= length extracted)%nat
       /\ pymupdf_parser.headers accuracy_table
          = List.filter pymupdf_parser.non_blank
              (List.map pymupdf_parser.cell_text (List.hd [] extracted)).
Proof.
  assert (H : accuracy_table
                ∈ pymupdf_parser.extract_tables_from_pdf one_table_pdf)
    by (vm_compute; constructor).
  split; [exact H|].
  destruct (extract_tables_provenance one_table_pdf accuracy_table H)
    as (i & p & k & table & extracted & _ & _ & _ & L & Hh & _).
  exists extracted. split; [exact L | exact Hh].
Defined.

(* ===================================================================== *)
(** * Numbered headings *)
(* ===================================================================== *)

Module NumberedFacts.

Import Py Re ReSyntax ReLang FieldFacts layout_analyzer.









End NumberedFacts.


